(** * Felicity: capacity-safe event registration and inventory

    A shallow embedding of the registration engine of the Felicity back end
    (Express + Mongoose) and the properties of its inventory counters.

    Embedded source files:
    - [backend/src/models/Event.js], [models/Registration.js] (schemas),
    - [backend/src/routes/eventHelpers.js] ([computeStatus],
      [checkEligibility], [findOrganizerAndEvent]),
    - [backend/src/routes/normalRegistration.js] (register, payment proof),
    - [backend/src/routes/merchandiseRegistration.js] (register),
    - [backend/src/routes/registrationRoutes.js] (payment, scan, check-in).

    Modelling conventions.
    - A Mongo collection keyed by [_id] is a finite map ([gmap]) from the
      identifier to the document; the registration collection is a list in
      insertion order and a registration's [_id] is its position (the engine
      never deletes a registration).
    - JavaScript objects used as dictionaries ([formResponses],
      [merchandiseSelections]) are [gmap string _]; arrays are lists.
    - Numbers (fees, prices, stock, counters, dates in milliseconds) are [Z].
    - Every handler is a function from the database and the request to a
      response and the new database; handlers run one at a time.
    - The outside world enters as arguments: the clock ([now]), the four
      random bytes of the ticket code in hexadecimal ([rnd]), whether the
      store refuses the ledger write ([fault]), and the QR encoder
      ([toDataURL], a section variable). Outgoing mail is not modelled. *)

From stdpp Require Import base option list gmap strings fin_maps.
From Stdlib Require Import ZArith Lia Ascii.

Local Open Scope string_scope.
Local Open Scope list_scope.
Local Open Scope Z_scope.

(** ** Schemas *)

(** [formFieldSchema] of Event.js. *)
Record FormField := mkFormField {
  field_id : string;
  field_label : string;
  field_required : bool
}.

(** [merchOptionSchema] of Event.js. *)
Record MerchOption := mkMerchOption {
  opt_id : string;
  opt_label : string;
  price : Z;
  stock : Z
}.

(** [merchandiseItemSchema] of Event.js. *)
Record MerchItem := mkMerchItem {
  item_id : string;
  itemName : string;
  required : bool;
  options : list MerchOption
}.

Inductive EventType := normal | merchandise.
Inductive Eligibility := elig_iiit | elig_non_iiit | elig_all.
Inductive EventStatus := draft | published | ongoing | completed.
Inductive ParticipantType := iiit | non_iiit.

(** [eventSchema] of Event.js, without the descriptive fields. *)
Record Event := mkEvent {
  eventType : EventType;
  eligibility : Eligibility;
  registrationDeadline : option Z;
  startDate : Z;
  endDate : Z;
  registrationLimit : Z;
  registrationFee : Z;
  organizerId : string;
  status : EventStatus;
  registrationOpen : bool;
  registrationCount : Z;
  customForm : list FormField;
  merchandiseItems : list MerchItem
}.

Inductive PaymentStatus := not_required | pending | approved | rejected.

(** A value of [formResponses]: JSON null, a string, or an array of strings
    (checkbox fields); an absent key is [undefined]. *)
Inductive FormValue :=
| VNull
| VStr (s : string)
| VArr (l : list string).

(** An entry of [merchandiseSelections] as stored on the registration. *)
Record Selection := mkSelection {
  sel_itemName : string;
  optionId : string;
  optionLabel : string;
  sel_price : Z
}.

(** [registrationSchema] of Registration.js. *)
Record Registration := mkRegistration {
  eventId : string;
  userId : string;
  ticketId : string;
  paymentStatus : PaymentStatus;
  paymentProof : string;
  qrCode : string;
  formResponses : gmap string FormValue;
  merchandiseSelections : gmap string Selection;
  amountPaid : Z;
  attended : bool;
  attendedAt : option Z
}.

(** The authenticated participant, as [User.findById] returns it. *)
Record User := mkUser {
  user_id : string;
  participantType : ParticipantType
}.

(** The database: events by [_id], registrations in insertion order, and the
    organizer profile [_id] of each organizer account ([Organizer.userId] is
    unique). *)
Record Db := mkDb {
  events : gmap string Event;
  registrations : list Registration;
  organizers : gmap string string
}.

#[global] Instance EventType_eq_dec : EqDecision EventType.
Proof. solve_decision. Defined.
#[global] Instance Eligibility_eq_dec : EqDecision Eligibility.
Proof. solve_decision. Defined.
#[global] Instance EventStatus_eq_dec : EqDecision EventStatus.
Proof. solve_decision. Defined.
#[global] Instance ParticipantType_eq_dec : EqDecision ParticipantType.
Proof. solve_decision. Defined.
#[global] Instance PaymentStatus_eq_dec : EqDecision PaymentStatus.
Proof. solve_decision. Defined.

(** What a handler sends back. [Message c m] is
    [response.status(c).json({ message: m })]. *)
Inductive Response :=
| Message (code : Z) (message : string)
| Created (reg : Registration)
| MessageReg (message : string) (reg : Registration).

(** ** Field updates *)

Definition set_registrationCount (n : Z) (e : Event) : Event :=
  mkEvent (eventType e) (eligibility e) (registrationDeadline e) (startDate e)
    (endDate e) (registrationLimit e) (registrationFee e) (organizerId e)
    (status e) (registrationOpen e) n (customForm e) (merchandiseItems e).

Definition set_merchandiseItems (l : list MerchItem) (e : Event) : Event :=
  mkEvent (eventType e) (eligibility e) (registrationDeadline e) (startDate e)
    (endDate e) (registrationLimit e) (registrationFee e) (organizerId e)
    (status e) (registrationOpen e) (registrationCount e) (customForm e) l.

Definition set_options (l : list MerchOption) (i : MerchItem) : MerchItem :=
  mkMerchItem (item_id i) (itemName i) (required i) l.

Definition add_stock (d : Z) (o : MerchOption) : MerchOption :=
  mkMerchOption (opt_id o) (opt_label o) (price o) (stock o + d).

Definition set_events (m : gmap string Event) (db : Db) : Db :=
  mkDb m (registrations db) (organizers db).

Definition set_registrations (l : list Registration) (db : Db) : Db :=
  mkDb (events db) l (organizers db).

(** ** The handler monad

    A route handler threads the database and may answer early
    ([return response.status(...).json(...)]): [inl r] is an answer already
    sent, [inr a] a value with which the handler goes on. *)

Definition Handler (A : Type) : Type := Db → (Response + A) * Db.

#[global] Instance Handler_ret : MRet Handler := λ A a db, (inr a, db).

#[global] Instance Handler_bind : MBind Handler := λ A B f m db,
  match m db with
  | (inl r, db') => (inl r, db')
  | (inr a, db') => f a db'
  end.

(** [return response.status(...).json(...)]. *)
Definition respond {A} (r : Response) : Handler A := λ db, (inl r, db).

(** [if (b) return response...]. *)
Definition respondIf (b : bool) (r : Response) : Handler unit :=
  if b then respond r else mret ().

Definition getDb : Handler Db := λ db, (inr db, db).
Definition modifyDb (f : Db → Db) : Handler unit := λ db, (inr (), f db).

(** Running a handler whose last statement answers. *)
Definition runHandler (h : Handler Response) (db : Db) : Response * Db :=
  match h db with
  | (inl r, db') => (r, db')
  | (inr r, db') => (r, db')
  end.

(** ** Inventory store primitives *)

Definition incCount (d : Z) (e : Event) : Event :=
  set_registrationCount (registrationCount e + d) e.

(** [Event.findByIdAndUpdate(id, { $inc: { registrationCount: d } })]. *)
Definition Event_incCount (eid : string) (d : Z) (db : Db) : Db :=
  set_events (alter (incCount d) eid (events db)) db.

(** [Event.findOneAndUpdate({ _id, registrationCount: { $lt: limit } },
    { $inc: { registrationCount: 1 } }, { new: true })]: [None] when no
    document matches the filter. *)
Definition Event_reserveSlot (eid : string) (limit : Z) (db : Db) : option Db :=
  match events db !! eid with
  | Some e =>
      if bool_decide (registrationCount e < limit)
      then Some (Event_incCount eid 1 db) else None
  | None => None
  end.

(** Update every element that satisfies [p] (a filtered positional
    operator [$[x]] with an array filter). *)
Definition alter_all {A} (p : A → bool) (f : A → A) (l : list A) : list A :=
  map (λ x, if p x then f x else x) l.

(** Update the first element that satisfies [p] (the positional operator [$],
    and [Array.prototype.find] followed by a mutation of the element). *)
Fixpoint alter_first {A} (p : A → bool) (f : A → A) (l : list A) : list A :=
  match l with
  | [] => []
  | x :: l' => if p x then f x :: l' else x :: alter_first p f l'
  end.

Definition has_item_id (i : string) (it : MerchItem) : bool :=
  bool_decide (item_id it = i).
Definition has_opt_id (o : string) (op : MerchOption) : bool :=
  bool_decide (opt_id op = o).

(** [{ $inc: { "merchandiseItems.$[item].options.$[opt].stock": d } }] with
    [arrayFilters: [{ "item._id": i }, { "opt._id": o }]]. *)
Definition incStockFiltered (i o : string) (d : Z) (items : list MerchItem)
  : list MerchItem :=
  alter_all (has_item_id i)
    (λ it, set_options (alter_all (has_opt_id o) (add_stock d) (options it)) it)
    items.

(** [{ $inc: { "merchandiseItems.$.options.$[opt].stock": d } }] under the
    filter [{ "merchandiseItems._id": i }] with
    [arrayFilters: [{ "opt._id": o }]]. *)
Definition incStockPositional (i o : string) (d : Z) (items : list MerchItem)
  : list MerchItem :=
  alter_first (has_item_id i)
    (λ it, set_options (alter_all (has_opt_id o) (add_stock d) (options it)) it)
    items.

(** [merchandiseItems.find(...)], [options.find(...)], then
    [option.stock = option.stock + 1] on the document in memory. *)
Definition incStockFound (i o : string) (d : Z) (items : list MerchItem)
  : list MerchItem :=
  alter_first (has_item_id i)
    (λ it, set_options (alter_first (has_opt_id o) (add_stock d) (options it)) it)
    items.

Definition Event_alterItems (eid : string)
    (f : list MerchItem → list MerchItem) (db : Db) : Db :=
  set_events
    (alter (λ e, set_merchandiseItems (f (merchandiseItems e)) e) eid (events db))
    db.

(** The filter of the stock decrement,
    [{ _id, "merchandiseItems._id": i, "merchandiseItems.options._id": o,
       "merchandiseItems.options.stock": { $gt: 0 } }]:
    each dotted path ranges over all elements of the arrays it crosses, and
    the three conditions are matched independently of each other. *)
Definition stockFilter (i o : string) (e : Event) : bool :=
  existsb (has_item_id i) (merchandiseItems e)
  && existsb (λ it, existsb (has_opt_id o) (options it)) (merchandiseItems e)
  && existsb (λ it, existsb (λ op, bool_decide (stock op > 0)) (options it))
       (merchandiseItems e).

(** The guarded decrement of merchandiseRegistration.js (step 8); [None]
    when no document matches. *)
Definition Event_reserveStock (eid i o : string) (db : Db) : option Db :=
  match events db !! eid with
  | Some e =>
      if stockFilter i o e
      then Some (Event_alterItems eid (incStockFiltered i o (-1)) db)
      else None
  | None => None
  end.

(** ** Registration ledger *)

(** [Registration.findOne({ eventId, userId })]. *)
Definition Registration_findByEventUser (eid uid : string) (db : Db)
  : option (nat * Registration) :=
  list_find (λ r, eventId r = eid ∧ userId r = uid) (registrations db).

(** [Registration.findOne({ eventId, ticketId })]. *)
Definition Registration_findByTicket (eid t : string) (db : Db)
  : option (nat * Registration) :=
  list_find (λ r, eventId r = eid ∧ ticketId r = t) (registrations db).

(** [registration.save()] on the document found at position [i]. *)
Definition Registration_save (i : nat) (r : Registration) (db : Db) : Db :=
  set_registrations (<[i := r]> (registrations db)) db.

(** The two unique indexes of Registration.js: [ticketId] and
    [(eventId, userId)]. *)
Definition violatesUnique (r : Registration) (db : Db) : Prop :=
  Exists (λ r', (eventId r' = eventId r ∧ userId r' = userId r)
                ∨ ticketId r' = ticketId r) (registrations db).

#[global] Instance violatesUnique_dec r db : Decision (violatesUnique r db).
Proof. unfold violatesUnique. apply _. Defined.

Inductive CreateResult :=
| CreateOk (db : Db)
| DuplicateKey          (* createError.code === 11000 *)
| StorageError.         (* any other rejection of the write *)

(** [Registration.create(r)]. *)
Definition Registration_create (fault : bool) (r : Registration) (db : Db)
  : CreateResult :=
  if fault then StorageError
  else if bool_decide (violatesUnique r db) then DuplicateKey
  else CreateOk (set_registrations (registrations db ++ [r]) db).

(** ** eventHelpers.js *)

Definition computeStatus (event : Event) (now : Z) : EventStatus :=
  if bool_decide (status event = draft) then status event
  else if bool_decide (startDate event ≤ now) && bool_decide (now ≤ endDate event)
  then ongoing
  else if bool_decide (endDate event < now) then completed
  else status event.

Definition checkEligibility (event : Event) (user : User) : option string :=
  if bool_decide (eligibility event = elig_iiit)
     && bool_decide (participantType user ≠ iiit)
  then Some "This event is for IIIT participants only"
  else if bool_decide (eligibility event = elig_non_iiit)
          && bool_decide (participantType user ≠ non_iiit)
  then Some "This event is for Non-IIIT participants only"
  else None.

(** [findOrganizerAndEvent(userId, eventId)]: the event, or the status and
    message of the refusal. *)
Definition findOrganizerAndEvent (uid eid : string) : Handler Event := λ db,
  match events db !! eid with
  | None => (inl (Message 404 "Event not found"), db)
  | Some event =>
      match organizers db !! uid with
      | Some oid =>
          if bool_decide (organizerId event = oid) then (inr event, db)
          else (inl (Message 403 "Not your event"), db)
      | None => (inl (Message 403 "Not your event"), db)
      end
  end.

(** ** Route handlers *)

Definition set_payment (s : PaymentStatus) (qr : string) (r : Registration)
  : Registration :=
  mkRegistration (eventId r) (userId r) (ticketId r) s (paymentProof r) qr
    (formResponses r) (merchandiseSelections r) (amountPaid r) (attended r)
    (attendedAt r).

Definition set_proof (proof : string) (s : PaymentStatus) (r : Registration)
  : Registration :=
  mkRegistration (eventId r) (userId r) (ticketId r) s proof (qrCode r)
    (formResponses r) (merchandiseSelections r) (amountPaid r) (attended r)
    (attendedAt r).

Definition set_attended (a : bool) (at_ : option Z) (r : Registration)
  : Registration :=
  mkRegistration (eventId r) (userId r) (ticketId r) (paymentStatus r)
    (paymentProof r) (qrCode r) (formResponses r) (merchandiseSelections r)
    (amountPaid r) a at_.

(** A double quote, for the messages that quote an item name. *)
Definition dquote : string := String "034"%char EmptyString.

(** [event.registrationDeadline && new Date() > new Date(deadline)]. *)
Definition deadlinePassed (event : Event) (now : Z) : bool :=
  match registrationDeadline event with
  | Some d => bool_decide (d < now)
  | None => false
  end.

(** [value === undefined || value === null || value === ""], or an empty
    array. *)
Definition isMissing (value : option FormValue) : bool :=
  match value with
  | None | Some VNull | Some (VStr "") | Some (VArr []) => true
  | _ => false
  end.

(** The loop of step 7 of normalRegistration.js stops at the first required
    field without a value. *)
Definition missingRequired (form : list FormField)
    (submitted : gmap string FormValue) : option FormField :=
  find (λ field, field_required field && isMissing (submitted !! field_id field))
    form.

(** Step 6 of merchandiseRegistration.js: the first required item whose
    options are all out of stock. *)
Definition soldOutRequired (items : list MerchItem) : option MerchItem :=
  find (λ merchItem,
          required merchItem
          && negb (existsb (λ opt, bool_decide (stock opt > 0)) (options merchItem)))
    items.

(** Truthiness of [selections[itemId]]: [undefined] and the empty string are
    falsy. *)
Definition truthy (v : option string) : bool :=
  match v with
  | Some s => negb (bool_decide (s = ""))
  | None => false
  end.

(** [for (const d of decrementedOptions) await Event.findOneAndUpdate(...)]
    with one of the two forms of the [$inc] path. *)
Definition rollbackStock
    (inc : string → string → Z → list MerchItem → list MerchItem)
    (eid : string) (decremented : list (string * string)) (db : Db) : Db :=
  foldl (λ db d, Event_alterItems eid (inc d.1 d.2 1) db) db decremented.

(** The conditional update: [true] and the updated database when a document
    matched, [false] and no change otherwise. *)
Definition tryUpdate (f : Db → option Db) : Handler bool := λ db,
  match f db with
  | Some db' => (inr true, db')
  | None => (inr false, db)
  end.

(** Step 8 of merchandiseRegistration.js: the loop over the items of the
    event read in step 1, with [processedSelections], [merchTotal] and
    [decrementedOptions] as accumulators. *)
Fixpoint reserveItems (eid : string) (selections : gmap string string)
    (items : list MerchItem) (processedSelections : gmap string Selection)
    (merchTotal : Z) (decrementedOptions : list (string * string))
  : Handler (gmap string Selection * Z * list (string * string)) :=
  match items with
  | [] => mret (processedSelections, merchTotal, decrementedOptions)
  | merchItem :: rest =>
      let itemId := item_id merchItem in
      let selectedOptionId := selections !! itemId in
      if required merchItem && negb (truthy selectedOptionId) then
        modifyDb (rollbackStock incStockPositional eid decrementedOptions);;
        modifyDb (Event_incCount eid (-1));;
        respond (Message 400 ("Required item not selected: " +:+ itemName merchItem))
      else if truthy selectedOptionId then
        match find (has_opt_id (default "" selectedOptionId)) (options merchItem) with
        | None =>
            modifyDb (rollbackStock incStockPositional eid decrementedOptions);;
            modifyDb (Event_incCount eid (-1));;
            respond (Message 400 ("Invalid option for " +:+ itemName merchItem))
        | Some option =>
            stockResult ← tryUpdate (Event_reserveStock eid itemId (opt_id option));
            if negb stockResult then
              modifyDb (rollbackStock incStockFiltered eid decrementedOptions);;
              modifyDb (Event_incCount eid (-1));;
              respond (Message 400 ("Out of stock: " +:+ itemName merchItem
                                    +:+ " — " +:+ opt_label option))
            else
              reserveItems eid selections rest
                (<[itemId := mkSelection (itemName merchItem) (opt_id option)
                                (opt_label option) (price option)]>
                   processedSelections)
                (merchTotal + price option)
                (decrementedOptions ++ [(itemId, opt_id option)])
        end
      else
        reserveItems eid selections rest processedSelections merchTotal
          decrementedOptions
  end.

(** The loop of the reject branch of registrationRoutes.js over the entries
    of [registration.merchandiseSelections], on the event document in
    memory: [if (merchItem && optionId)] skips an empty [optionId]. *)
Definition restoreSelections (sels : gmap string Selection)
    (items : list MerchItem) : list MerchItem :=
  map_fold (λ itemId sel items,
              if bool_decide (optionId sel = "") then items
              else incStockFound itemId (optionId sel) 1 items)
    items sels.

Section Handlers.

(** [QRCode.toDataURL] of the [qrcode] package. *)
Variable toDataURL : string → string.

(** POST /normal/:id/register *)
Definition registerNormal (eid : string) (user : User)
    (submittedResponses : gmap string FormValue) (now : Z) (rnd : string)
    (fault : bool) : Handler Response :=
  db ← getDb;
  match events db !! eid with
  | None => respond (Message 404 "Event not found")
  | Some event =>
      respondIf (negb (registrationOpen event))
        (Message 400 "Registration is not open for this event");;
      respondIf (bool_decide (eventType event ≠ normal))
        (Message 400 "This route is for normal events only");;
      match checkEligibility event user with
      | Some eligibilityError => respond (Message 403 eligibilityError)
      | None =>
          respondIf (deadlinePassed event now)
            (Message 400 "Registration deadline passed");;
          respondIf
            (bool_decide (is_Some (Registration_findByEventUser eid (user_id user) db)))
            (Message 400 "Already registered");;
          updatedEvent ← tryUpdate (Event_reserveSlot eid (registrationLimit event));
          respondIf (negb updatedEvent) (Message 400 "Event is full");;
          match missingRequired (customForm event) submittedResponses with
          | Some field =>
              respond (Message 400 ("Required field missing: " +:+ field_label field))
          | None =>
              let ticketId := "FEL-" +:+ rnd in
              let qrCode :=
                if bool_decide (registrationFee event = 0)
                then toDataURL ticketId else "" in
              let paymentStatus :=
                if bool_decide (registrationFee event > 0)
                then pending else not_required in
              let amountPaid := registrationFee event in
              let registration :=
                mkRegistration eid (user_id user) ticketId paymentStatus ""
                  qrCode submittedResponses ∅ amountPaid false None in
              db1 ← getDb;
              match Registration_create fault registration db1 with
              | CreateOk db2 =>
                  modifyDb (λ _, db2);;
                  mret (Created registration)
              | DuplicateKey =>
                  modifyDb (Event_incCount eid (-1));;
                  respond (Message 400 "Already registered")
              | StorageError =>
                  modifyDb (Event_incCount eid (-1));;
                  respond (Message 500 "Server error")
              end
          end
      end
  end.

(** POST /merch/:id/register *)
Definition registerMerch (eid : string) (user : User)
    (selections : gmap string string) (now : Z) (rnd : string)
    (fault : bool) : Handler Response :=
  db ← getDb;
  match events db !! eid with
  | None => respond (Message 404 "Event not found")
  | Some event =>
      respondIf (negb (registrationOpen event))
        (Message 400 "Registration is not open for this event");;
      respondIf (bool_decide (eventType event ≠ merchandise))
        (Message 400 "This route is for merchandise events only");;
      match checkEligibility event user with
      | Some eligibilityError => respond (Message 403 eligibilityError)
      | None =>
          respondIf (deadlinePassed event now)
            (Message 400 "Registration deadline passed");;
          respondIf
            (bool_decide (is_Some (Registration_findByEventUser eid (user_id user) db)))
            (Message 400 "Already registered");;
          match soldOutRequired (merchandiseItems event) with
          | Some merchItem =>
              respond (Message 400 ("Required item " +:+ dquote +:+ itemName merchItem
                                    +:+ dquote +:+ " is completely sold out"))
          | None =>
              updatedEvent ← tryUpdate (Event_reserveSlot eid (registrationLimit event));
              respondIf (negb updatedEvent) (Message 400 "Event is full");;
              '(processedSelections, merchTotal, decrementedOptions) ←
                reserveItems eid selections (merchandiseItems event) ∅ 0 [];
              let amountPaid := registrationFee event + merchTotal in
              let ticketId := "FEL-" +:+ rnd in
              let paymentStatus :=
                if bool_decide (amountPaid > 0) then pending else not_required in
              let qrCode :=
                if bool_decide (amountPaid > 0) then "" else toDataURL ticketId in
              let registration :=
                mkRegistration eid (user_id user) ticketId paymentStatus ""
                  qrCode ∅ processedSelections amountPaid false None in
              db1 ← getDb;
              match Registration_create fault registration db1 with
              | CreateOk db2 =>
                  modifyDb (λ _, db2);;
                  mret (Created registration)
              | DuplicateKey =>
                  modifyDb (Event_incCount eid (-1));;
                  modifyDb (rollbackStock incStockFiltered eid decrementedOptions);;
                  respond (Message 400 "Already registered")
              | StorageError =>
                  modifyDb (Event_incCount eid (-1));;
                  modifyDb (rollbackStock incStockFiltered eid decrementedOptions);;
                  respond (Message 500 "Server error")
              end
          end
      end
  end.

(** PATCH /:id/payment-proof *)
Definition uploadPaymentProof (eid uid : string) (proof : string)
  : Handler Response :=
  respondIf (bool_decide (proof = "")) (Message 400 "Payment proof image required");;
  db ← getDb;
  match Registration_findByEventUser eid uid db with
  | None => respond (Message 404 "Not registered")
  | Some (i, registration) =>
      respondIf
        (bool_decide (paymentStatus registration ≠ pending)
         && bool_decide (paymentStatus registration ≠ rejected))
        (Message 400 "Payment proof cannot be uploaded for this registration");;
      let registration' :=
        set_proof proof
          (if bool_decide (paymentStatus registration = rejected)
           then pending else paymentStatus registration)
          registration in
      modifyDb (Registration_save i registration');;
      mret (MessageReg "Payment proof uploaded" registration')
  end.

(** PATCH /:eventId/registrations/:regId/payment *)
Definition payment (uid eid : string) (regId : nat) (action : string)
  : Handler Response :=
  _ ← findOrganizerAndEvent uid eid;
  db ← getDb;
  match registrations db !! regId with
  | None => respond (Message 404 "Registration not found")
  | Some registration =>
      let previousStatus := paymentStatus registration in
      (if bool_decide (action = "approve") then
         respondIf (bool_decide (previousStatus = approved))
           (Message 400 "Already approved");;
         let qr :=
           if bool_decide (qrCode registration = "")
           then toDataURL (ticketId registration) else qrCode registration in
         let registration' := set_payment approved qr registration in
         modifyDb (Registration_save regId registration');;
         mret registration'
       else if bool_decide (action = "reject") then
         respondIf (bool_decide (previousStatus = rejected))
           (Message 400 "Already rejected");;
         let registration' := set_payment rejected "" registration in
         modifyDb (Registration_save regId registration');;
         modifyDb (Event_incCount eid (-1));;
         db1 ← getDb;
         match events db1 !! eid with
         | Some event =>
             if bool_decide (eventType event = merchandise) then
               modifyDb (set_events
                 (<[eid := set_merchandiseItems
                             (restoreSelections (merchandiseSelections registration')
                                (merchandiseItems event)) event]> (events db1)))
             else mret ()
         | None => mret ()
         end;;
         mret registration'
       else respond (Message 400 "Invalid action")) ≫= λ registration',
      mret (MessageReg ("Payment " +:+ action +:+ "d") registration')
  end.

(** POST /:id/scan *)
Definition scan (uid eid : string) (ticket : string) (now : Z)
  : Handler Response :=
  event ← findOrganizerAndEvent uid eid;
  respondIf (bool_decide (computeStatus event now ≠ ongoing))
    (Message 400 "Attendance can only be taken while the event is ongoing");;
  respondIf (bool_decide (ticket = "")) (Message 400 "Ticket ID required");;
  db ← getDb;
  match Registration_findByTicket eid ticket db with
  | None => respond (Message 404 "Invalid ticket")
  | Some (i, registration) =>
      respondIf
        (bool_decide (paymentStatus registration = pending)
         || bool_decide (paymentStatus registration = rejected))
        (Message 400 "Payment not approved — cannot check in");;
      respondIf (attended registration) (Message 400 "Already checked in");;
      modifyDb (Registration_save i (set_attended true (Some now) registration));;
      mret (Message 200 "Checked in")
  end.

(** POST /:eventId/registrations/:regId/checkin *)
Definition manualCheckin (uid eid : string) (regId : nat) (now : Z)
  : Handler Response :=
  event ← findOrganizerAndEvent uid eid;
  respondIf (bool_decide (computeStatus event now ≠ ongoing))
    (Message 400 "Attendance can only be taken while the event is ongoing");;
  db ← getDb;
  match registrations db !! regId with
  | None => respond (Message 404 "Registration not found")
  | Some registration =>
      respondIf
        (bool_decide (paymentStatus registration = pending)
         || bool_decide (paymentStatus registration = rejected))
        (Message 400 "Payment not approved — cannot check in");;
      let a := negb (attended registration) in
      modifyDb (Registration_save regId
                  (set_attended a (if a then Some now else None) registration));;
      mret (Message 200 (if a then "Checked in manually" else "Check-in reverted"))
  end.

(** ** Requests and traces *)

Inductive Request :=
| RegisterNormal (eid : string) (user : User)
    (formResponses : gmap string FormValue) (now : Z) (rnd : string) (fault : bool)
| RegisterMerch (eid : string) (user : User)
    (selections : gmap string string) (now : Z) (rnd : string) (fault : bool)
| UploadPaymentProof (eid uid proof : string)
| Payment (uid eid : string) (regId : nat) (action : string)
| Scan (uid eid ticket : string) (now : Z)
| ManualCheckin (uid eid : string) (regId : nat) (now : Z).

Definition handle (db : Db) (req : Request) : Response * Db :=
  match req with
  | RegisterNormal eid user f now rnd fault =>
      runHandler (registerNormal eid user f now rnd fault) db
  | RegisterMerch eid user s now rnd fault =>
      runHandler (registerMerch eid user s now rnd fault) db
  | UploadPaymentProof eid uid proof =>
      runHandler (uploadPaymentProof eid uid proof) db
  | Payment uid eid regId action => runHandler (payment uid eid regId action) db
  | Scan uid eid ticket now => runHandler (scan uid eid ticket now) db
  | ManualCheckin uid eid regId now =>
      runHandler (manualCheckin uid eid regId now) db
  end.

(** The database after a sequence of requests. *)
Definition run (db : Db) (reqs : list Request) : Db :=
  foldl (λ db req, (handle db req).2) db reqs.

End Handlers.

(** ** Observations *)

(** [registrationCount] of event [eid]. *)
Definition countOf (db : Db) (eid : string) : option Z :=
  registrationCount <$> events db !! eid.

(** Stock of option [o] of item [i] in an item list, as
    [items.find(...).options.find(...).stock] reads it. *)
Definition lookupStock (items : list MerchItem) (i o : string) : option Z :=
  it ← find (has_item_id i) items;
  op ← find (has_opt_id o) (options it);
  Some (stock op).

(** Stock of variant [(i, o)] of event [eid]. *)
Definition stockOf (db : Db) (eid i o : string) : option Z :=
  e ← events db !! eid; lookupStock (merchandiseItems e) i o.

(** The registration holds a claim on variant [(i, o)] of event [eid]: it
    belongs to the event, its payment has not been rejected, and its
    selection for item [i] is option [o]. *)
Definition holdsClaim (eid i o : string) (r : Registration) : Prop :=
  eventId r = eid ∧ paymentStatus r ≠ rejected
  ∧ optionId <$> merchandiseSelections r !! i = Some o.

#[global] Instance holdsClaim_dec eid i o r : Decision (holdsClaim eid i o r).
Proof. unfold holdsClaim. apply _. Defined.

(** Number of registrations holding a claim on the variant. *)
Definition claimsOn (db : Db) (eid i o : string) : Z :=
  Z.of_nat (length (filter (holdsClaim eid i o) (registrations db))).

(** ** Specification devices *)

(** Add [δ i o] to the stock of every option [o] of every item [i]: the
    net effect of a batch of [$inc] updates on one event. *)
Definition shiftStock (δ : string → string → Z) (items : list MerchItem)
  : list MerchItem :=
  map (λ it,
         set_options
           (map (λ op, add_stock (δ (item_id it) (opt_id op)) op) (options it)) it)
    items.

(** The shift that adds [d] to variant [(i, o)] only. *)
Definition unitShift (i o : string) (d : Z) : string → string → Z :=
  λ i' o', if bool_decide (i' = i ∧ o' = o) then d else 0.

(** Net effect on event [eid]: [dc] on its counter, [δ] on its stock. *)
Definition adjust (eid : string) (dc : Z) (δ : string → string → Z) (db : Db)
  : Db :=
  set_events
    (alter (λ e, incCount dc (set_merchandiseItems (shiftStock δ (merchandiseItems e)) e))
       eid (events db))
    db.

(** Item identifiers are distinct within an event, option identifiers
    within an item (Mongoose gives every subdocument a fresh [_id]). *)
Definition wf_items (items : list MerchItem) : Prop :=
  NoDup (item_id <$> items) ∧ Forall (λ it, NoDup (opt_id <$> options it)) items.

Definition wf_events (db : Db) : Prop :=
  map_Forall (λ _ e, wf_items (merchandiseItems e)) (events db).

(** The shift that adds [d] once for every entry of [decs]. *)
Definition batchShift (d : Z) (decs : list (string * string))
  : string → string → Z :=
  λ i o, foldr (λ p acc, unitShift p.1 p.2 d i o + acc) 0 decs.

(** One unit for the variant that a selection map records for item [i]. *)
Definition claimShift (m : gmap string Selection) : string → string → Z :=
  λ i o, if bool_decide (optionId <$> m !! i = Some o) then 1 else 0.

(** The units that the reject branch gives back for a selection map. *)
Definition restoreShift (m : gmap string Selection) : string → string → Z :=
  λ i o, if bool_decide (o ≠ "" ∧ optionId <$> m !! i = Some o) then 1 else 0.

(** Sum of the prices recorded in a selection map. *)
Definition selectionTotal (m : gmap string Selection) : Z :=
  map_fold (λ _ sel acc, sel_price sel + acc) 0 m.

(** [sel] is what the selection loop records for item [i] when the
    participant's choice for [i] names an option of that item. *)
Definition recorded (event : Event) (selections : gmap string string)
    (i : string) (sel : Selection) : Prop :=
  ∃ it op, it ∈ merchandiseItems event ∧ op ∈ options it ∧ item_id it = i
           ∧ selections !! i = Some (opt_id op) ∧ opt_id op ≠ ""
           ∧ sel = mkSelection (itemName it) (opt_id op) (opt_label op) (price op).

(** [db'] differs from [db] at most in event [eid], whose counter moved by
    [c] while its limit stayed, and in nothing outside the event
    collection. *)
Definition counterMoved (eid : string) (c : Z) (db db' : Db) : Prop :=
  registrations db' = registrations db
  ∧ organizers db' = organizers db
  ∧ ∃ g, events db' = alter g eid (events db)
         ∧ ∀ e, registrationCount (g e) = registrationCount e + c
                ∧ registrationLimit (g e) = registrationLimit e.

(** Two versions of one registration document. *)
Definition sameIdentity (r r' : Registration) : Prop :=
  eventId r' = eventId r ∧ userId r' = userId r ∧ ticketId r' = ticketId r
  ∧ merchandiseSelections r' = merchandiseSelections r.

(** The event a register request is for. *)
Definition registerTarget (req : Request) : option string :=
  match req with
  | RegisterNormal eid _ _ _ _ _ | RegisterMerch eid _ _ _ _ _ => Some eid
  | _ => None
  end.

(** Event and participant of a register request. *)
Definition registrant (req : Request) : option (string * string) :=
  match req with
  | RegisterNormal eid user _ _ _ _ | RegisterMerch eid user _ _ _ _ =>
      Some (eid, user_id user)
  | _ => None
  end.

(** The request is a payment rejection. *)
Definition isReject (req : Request) : Prop :=
  match req with
  | Payment _ _ _ action => action = "reject"
  | _ => False
  end.

(** What a request may write into the payment status and the ticket
    artifact of the document [i] it saves. *)
Definition Saved (req : Request) (i : nat) (r r' : Registration) : Prop :=
  match req with
  | UploadPaymentProof _ _ _ =>
      paymentStatus r' = pending ∧ qrCode r' = qrCode r
  | Payment _ _ regId action =>
      i = regId
      ∧ ((action = "approve" ∧ paymentStatus r' = approved)
         ∨ (action = "reject" ∧ paymentStatus r' = rejected ∧ qrCode r' = ""))
  | Scan _ _ _ _ | ManualCheckin _ _ _ _ =>
      paymentStatus r' = paymentStatus r ∧ qrCode r' = qrCode r
  | _ => False
  end.

(** How a request may change the ledger: not at all, by saving a new version
    of one document, or by appending a document that respects the unique
    indexes. *)
Inductive LedgerChange (req : Request) (db db' : Db) : Prop :=
| ledger_same :
    registrations db' = registrations db → LedgerChange req db db'
| ledger_update i r r' :
    registrations db !! i = Some r →
    registrations db' = <[i := r']> (registrations db) →
    sameIdentity r r' →
    Saved req i r r' →
    LedgerChange req db db'
| ledger_create reg :
    registrations db' = registrations db ++ [reg] →
    ¬ violatesUnique reg db →
    registrant req = Some (eventId reg, userId reg) →
    paymentStatus reg ≠ rejected →
    map_Forall (λ _ sel, optionId sel ≠ "") (merchandiseSelections reg) →
    LedgerChange req db db'.

(** At most one registration per (event, participant). *)
Definition uniquePairs (db : Db) : Prop :=
  ∀ i j r r', registrations db !! i = Some r → registrations db !! j = Some r' →
              eventId r = eventId r' → userId r = userId r' → i = j.

(** Invariants of every stored registration: a rejected registration has no
    ticket artifact, and every recorded selection names an option. *)
Definition regSound (r : Registration) : Prop :=
  (paymentStatus r = rejected → qrCode r = "")
  ∧ map_Forall (λ _ sel, optionId sel ≠ "") (merchandiseSelections r).

(** What any single request may do to the database. *)
Definition Frame (req : Request) (db db' : Db) : Prop :=
  organizers db' = organizers db
  ∧ LedgerChange req db db'
  ∧ ∃ eid c g,
      events db' = alter g eid (events db)
      ∧ (∀ e, registrationCount (g e) = registrationCount e + c
              ∧ registrationLimit (g e) = registrationLimit e)
      ∧ (c = 0
         ∨ (c = 1 ∧ registerTarget req = Some eid
            ∧ ∃ e, events db !! eid = Some e
                   ∧ registrationCount e < registrationLimit e)
         ∨ (c = -1 ∧ isReject req)).

Section Admissible.
Variable toDataURL : string → string.

(** A request under which a rejection stays final: a rejection names the
    event of the registration it rejects, and neither an approval nor a
    payment-proof upload is applied to a rejected registration. *)
Definition rejectionFinal (db : Db) (req : Request) : Prop :=
  match req with
  | Payment _ eid regId action =>
      ∀ r, registrations db !! regId = Some r →
           (action = "reject" → eventId r = eid)
           ∧ (action = "approve" → paymentStatus r ≠ rejected)
  | UploadPaymentProof eid uid _ =>
      ∀ i r, Registration_findByEventUser eid uid db = Some (i, r) →
             paymentStatus r ≠ rejected
  | _ => True
  end.

(** A sequence of requests all of which keep rejections final. *)
Fixpoint admissible (db : Db) (reqs : list Request) : Prop :=
  match reqs with
  | [] => True
  | req :: reqs' =>
      rejectionFinal db req ∧ admissible (handle toDataURL db req).2 reqs'
  end.
End Admissible.

(** The type of event [eid], if it exists. *)
Definition typeOf (db : Db) (eid : string) : option EventType :=
  eventType <$> events db !! eid.

(** One when the registration holds a claim on the variant, zero otherwise. *)
Definition claimBit (eid i o : string) (r : Registration) : Z :=
  if decide (holdsClaim eid i o r) then 1 else 0.

(** Current stock of a variant plus the claims held on it. *)
Definition committedPlusStock (db : Db) (eid i o : string) : option Z :=
  (λ s, s + claimsOn db eid i o) <$> stockOf db eid i o.

(** What one request must maintain for the conservation law of variant
    [(i, o)] of the merchandise event [eid]. *)
Definition Maintains (eid i o : string) (db db' : Db) : Prop :=
  wf_events db'
  ∧ typeOf db' eid = Some merchandise
  ∧ committedPlusStock db' eid i o = committedPlusStock db eid i o.

(** ** Request shapes used in the statements *)

(** The checks that both register handlers run before they look for an
    existing registration. *)
Definition passesChecks (db : Db) (eid : string) (user : User) (now : Z)
    (ty : EventType) : Prop :=
  ∃ e, events db !! eid = Some e ∧ registrationOpen e = true ∧ eventType e = ty
       ∧ checkEligibility e user = None ∧ deadlinePassed e now = false.

(** The register request gets as far as the look-up of an existing
    registration. *)
Definition reachesDuplicateCheck (db : Db) (req : Request) : Prop :=
  match req with
  | RegisterNormal eid user _ now _ _ => passesChecks db eid user now normal
  | RegisterMerch eid user _ now _ _ => passesChecks db eid user now merchandise
  | _ => False
  end.

(** The refusal of the first check that fails among those that both
    register handlers run before they look for an existing registration, in
    the order in which they run: the event exists, registration is open, the
    route matches the event type, the participant is eligible, the deadline
    has not passed. [None] when every check passes. [route] is the event
    type that the route serves and [wrongRoute] the refusal of that route
    for an event of the other type. *)
Definition firstFailedCheck (db : Db) (eid : string) (user : User) (now : Z)
    (route : EventType) (wrongRoute : string) : option Response :=
  match events db !! eid with
  | None => Some (Message 404 "Event not found")
  | Some e =>
      if negb (registrationOpen e)
      then Some (Message 400 "Registration is not open for this event")
      else if bool_decide (eventType e ≠ route)
      then Some (Message 400 wrongRoute)
      else if bool_decide (eligibility e = elig_iiit ∧ participantType user = non_iiit)
      then Some (Message 403 "This event is for IIIT participants only")
      else if bool_decide (eligibility e = elig_non_iiit ∧ participantType user = iiit)
      then Some (Message 403 "This event is for Non-IIIT participants only")
      else match registrationDeadline e with
           | Some d =>
               if bool_decide (d < now)
               then Some (Message 400 "Registration deadline passed")
               else None
           | None => None
           end
  end.

(** What a register request of a participant who already has a registration
    for the event is answered: the refusal of the first check that fails,
    and "Already registered" when every check passes. *)
Definition repeatAnswer (db : Db) (req : Request) : option Response :=
  match req with
  | RegisterNormal eid user _ now _ _ =>
      Some (default (Message 400 "Already registered")
              (firstFailedCheck db eid user now normal
                 "This route is for normal events only"))
  | RegisterMerch eid user _ now _ _ =>
      Some (default (Message 400 "Already registered")
              (firstFailedCheck db eid user now merchandise
                 "This route is for merchandise events only"))
  | _ => None
  end.

(** The register request gets as far as the guarded increment of the
    counter. *)
Definition reachesCapacityCheck (db : Db) (req : Request) : Prop :=
  match req with
  | RegisterNormal eid user _ now _ _ =>
      passesChecks db eid user now normal
      ∧ Registration_findByEventUser eid (user_id user) db = None
  | RegisterMerch eid user _ now _ _ =>
      passesChecks db eid user now merchandise
      ∧ Registration_findByEventUser eid (user_id user) db = None
      ∧ ∀ e, events db !! eid = Some e → soldOutRequired (merchandiseItems e) = None
  | _ => False
  end.

(** The same register request with other random bytes for the ticket code. *)
Definition withTicket (rnd : string) (req : Request) : Request :=
  match req with
  | RegisterNormal eid user f now _ fault => RegisterNormal eid user f now rnd fault
  | RegisterMerch eid user s now _ fault => RegisterMerch eid user s now rnd fault
  | _ => req
  end.

(** A registration that waits for its payment to be approved: it has no
    ticket artifact, its payment is pending or rejected, and its ticket code
    is [t]. *)
Definition awaitingPayment (t : string) (r : Registration) : Prop :=
  qrCode r = "" ∧ (paymentStatus r = pending ∨ paymentStatus r = rejected)
  ∧ ticketId r = t.

(** The request is not an approval of registration [k]. *)
Definition notApprovalOf (k : nat) (req : Request) : Prop :=
  ∀ uid eid, req ≠ Payment uid eid k "approve".

#[global] Instance wf_items_dec items : Decision (wf_items items).
Proof. unfold wf_items. apply _. Defined.

#[global] Instance wf_events_dec db : Decision (wf_events db).
Proof. unfold wf_events. apply _. Defined.

#[global] Instance regSound_dec r : Decision (regSound r).
Proof. unfold regSound. apply _. Defined.

(** ** Proof automation for handlers *)

Ltac unfold_handler :=
  unfold runHandler, findOrganizerAndEvent, respondIf, respond, getDb, modifyDb,
    tryUpdate, mbind, mret, Handler_bind, Handler_ret in *.

(** Closes a goal [_ = db ∧ (checks → _)] on a path where one of the checks fails. *)
Ltac check_fails :=
  split; [done|];
  let Hchk := fresh in
  intros Hchk; destruct Hchk as [(? & ? & ? & ? & ? & ?) _];
  simplify_eq; congruence.

(** ** Sample data *)

Definition sampleQR (t : string) : string := "data:image/png;base64," +:+ t.

Definition shirt : MerchItem :=
  mkMerchItem "item-shirt" "Shirt" true
    [mkMerchOption "opt-m" "M" 500 1; mkMerchOption "opt-l" "L" 500 2].

Definition sticker : MerchItem :=
  mkMerchItem "item-sticker" "Sticker" false [mkMerchOption "opt-logo" "Logo" 0 5].

(** A merchandise event with two places. *)
Definition fest : Event :=
  mkEvent merchandise elig_all None 100 200 2 0 "org-1" published true 0 []
    [shirt; sticker].

(** A paid normal event with one place, a required form field and a
    registration deadline. *)
Definition talk : Event :=
  mkEvent normal elig_all (Some 50) 100 200 1 500 "org-1" published true 0
    [mkFormField "field-name" "Name" true] [].

(** A free normal event with one place. *)
Definition meetup : Event :=
  mkEvent normal elig_all None 100 200 1 0 "org-1" published true 0 [] [].

Definition sampleDb : Db :=
  mkDb {[ "fest" := fest; "talk" := talk; "meetup" := meetup ]} []
    {[ "u-org" := "org-1" ]}.

Definition alice : User := mkUser "alice" iiit.
Definition bob : User := mkUser "bob" non_iiit.

Definition aliceBuysShirt : Request :=
  RegisterMerch "fest" alice {[ "item-shirt" := "opt-m" ]} 10 "0000a11c" false.

Definition aliceJoinsMeetup : Request :=
  RegisterNormal "meetup" alice ∅ 10 "00c0ffee" false.

Definition aliceJoinsTalk : Request :=
  RegisterNormal "talk" alice {[ "field-name" := VStr "Alice" ]} 10 "7a1c0001" false.

Definition bobBuysShirt : Request :=
  RegisterMerch "fest" bob {[ "item-shirt" := "opt-l" ]} 11 "0000b0b0" false.

(** The sample database after both shirt purchases, its event [fest] and
    Alice's registration. *)
Definition dbTwoShirts : Db := run sampleQR sampleDb [aliceBuysShirt; bobBuysShirt].



(** The sample database after Alice joined the free meetup, and after her
    shirt purchase was rejected. *)
Definition dbMeetup : Db := run sampleQR sampleDb [aliceJoinsMeetup].

Definition dbShirtRejected : Db :=
  run sampleQR sampleDb [aliceBuysShirt; Payment "u-org" "fest" 0 "reject"].

Definition rejectedShirtReg : Registration :=
  default (mkRegistration "" "" "" not_required "" "" ∅ ∅ 0 false None)
    (registrations dbShirtRejected !! 0%nat).

Definition meetupJoined : Event := default meetup (events dbMeetup !! "meetup").

Definition aliceShirtCreated : Registration :=
  default (mkRegistration "" "" "" not_required "" "" ∅ ∅ 0 false None)
    (registrations (run sampleQR sampleDb [aliceBuysShirt]) !! 0%nat).

(** Bob asks for a shirt with the random bytes that Alice's ticket already
    carries. *)
Definition bobCollides : Request :=
  RegisterMerch "fest" bob {[ "item-shirt" := "opt-l" ]} 11 "0000a11c" false.

(** * Reading, reporting and event management

    The routes around the registration engine, and the page that calls it:
    - [backend/src/routes/eventHelpers.js] ([withStatus]),
    - [backend/src/routes/normalRegistration.js] (my registration),
    - [backend/src/routes/registrationRoutes.js] (analytics, CSV export),
    - [backend/src/routes/eventCrud.js] (create, edit, publish, open and close
      registration, single event, organizer statistics, the pages of the
      event list),
    - [frontend/src/pages/EventDetail.jsx] and
      [frontend/src/components/MerchSelector.jsx] (what the participant is
      offered before the register request is sent).

    Conventions, besides those above.
    - A route that only reads is a function from the database to its answer,
      [inl] for a refusal.
    - A request body is a record of optional fields: [None] is an absent key,
      [Some v] a key whose value has the type of the schema path. Bodies with
      other values are not covered.
    - Mongoose validation on [Event.create] and [event.save()] is the list of
      failing paths: a required path without a value, a required string that
      is empty, in the event and in its subdocuments. The text of the error
      message is a parameter, [validationMessage].
    - Amounts are whole Numbers, as [Z], and their sums are the sums of
      integers. That is what the code computes as long as the amounts are
      whole and every sum stays within [Number.MAX_SAFE_INTEGER]; a
      statement that compares sums taken in different orders has that range
      as a hypothesis.
    - The [_id] that Mongo gives a new event is an argument of the handler,
      like the random bytes of a ticket code.
    - The Discord notification of create and publish (utils/mailer.js) is not
      modelled: the answers are those of a notification that is not
      configured or succeeds. The database after the route is the same
      either way. *)

(** ** eventHelpers.js: [withStatus] *)

Definition set_status (s : EventStatus) (e : Event) : Event :=
  mkEvent (eventType e) (eligibility e) (registrationDeadline e) (startDate e)
    (endDate e) (registrationLimit e) (registrationFee e) (organizerId e)
    s (registrationOpen e) (registrationCount e) (customForm e)
    (merchandiseItems e).

(** [for (const event of events) { eventObject.status = computeStatus(event);
    results.push(eventObject); }]. *)
Definition withStatus (events : list Event) (now : Z) : list Event :=
  foldl (λ results event, results ++ [set_status (computeStatus event now) event])
    [] events.

(** ** normalRegistration.js: GET /:id/my-registration *)

Definition myRegistration (eid uid : string) (db : Db) : Response + Registration :=
  match Registration_findByEventUser eid uid db with
  | None => inl (Message 404 "Not registered")
  | Some (_, registration) => inr registration
  end.

(** ** registrationRoutes.js: GET /:id/analytics *)

(** [Registration.find({ eventId })]. *)
Definition Registration_findByEvent (eid : string) (db : Db) : list Registration :=
  filter (λ r, eventId r = eid) (registrations db).

Record Analytics := mkAnalytics {
  totalRegistrations : Z;
  attendedCount : Z;
  iiitCount : Z;
  nonIiitCount : Z;
  revenue : Z
}.

(** One turn of the counting loop. [users] is the User collection that
    [populate("userId", "participantType")] reads; a registration whose user
    is gone counts as non-IIIT. *)
Definition countRegistration (users : gmap string User) (acc : Analytics)
    (registration : Registration) : Analytics :=
  let isIiit :=
    bool_decide (participantType <$> users !! userId registration = Some iiit) in
  mkAnalytics
    (totalRegistrations acc + 1)
    (if attended registration then attendedCount acc + 1 else attendedCount acc)
    (if isIiit then iiitCount acc + 1 else iiitCount acc)
    (if isIiit then nonIiitCount acc else nonIiitCount acc + 1)
    (if bool_decide (paymentStatus registration = approved)
     then revenue acc + amountPaid registration else revenue acc).

Definition analytics (users : gmap string User) (uid eid : string) (db : Db)
  : Response + Analytics :=
  match findOrganizerAndEvent uid eid db with
  | (inl refusal, _) => inl refusal
  | (inr _, _) =>
      inr (foldl (countRegistration users) (mkAnalytics 0 0 0 0 0)
             (Registration_findByEvent eid db))
  end.

(** ** eventCrud.js: GET /organizer-stats *)

Record OrganizerStats := mkOrganizerStats {
  completedEventCount : Z;
  stats_totalRegistrations : Z;
  totalAttended : Z;
  totalRevenue : Z
}.

(** [Event.find({ organizerId, status: "completed" })], each event with its
    [_id]. *)
Definition Event_findCompleted (oid : string) (db : Db) : list (string * Event) :=
  filter (λ p, organizerId p.2 = oid ∧ status p.2 = completed)
    (map_to_list (events db)).

(** The inner loop, over the registrations of one completed event. *)
Definition countCompleted (acc : OrganizerStats) (reg : Registration)
  : OrganizerStats :=
  mkOrganizerStats
    (completedEventCount acc)
    (stats_totalRegistrations acc)
    (if attended reg then totalAttended acc + 1 else totalAttended acc)
    (if bool_decide (paymentStatus reg = approved)
        || bool_decide (paymentStatus reg = not_required)
     then totalRevenue acc + amountPaid reg else totalRevenue acc).

Definition organizerStats (uid : string) (db : Db) : Response + OrganizerStats :=
  match organizers db !! uid with
  | None => inl (Message 404 "Organizer not found")
  | Some oid =>
      let completedEvents := Event_findCompleted oid db in
      inr (foldl
             (λ acc p,
                foldl countCompleted
                  (mkOrganizerStats (completedEventCount acc)
                     (stats_totalRegistrations acc + registrationCount p.2)
                     (totalAttended acc) (totalRevenue acc))
                  (Registration_findByEvent p.1 db))
             (mkOrganizerStats (Z.of_nat (length completedEvents)) 0 0 0)
             completedEvents)
  end.

(** ** registrationRoutes.js: the text of the CSV export *)

Definition dq : ascii := "034"%char.
Definition comma : ascii := ","%char.
Definition newline : ascii := "010"%char.

(** The [replace] of [esc]: every double quote of the text is written
    twice. *)
Fixpoint doubleQuotes (s : string) : string :=
  match s with
  | EmptyString => EmptyString
  | String c s' =>
      if bool_decide (c = dq) then String dq (String dq (doubleQuotes s'))
      else String c (doubleQuotes s')
  end.

(** [esc]: the value as a string ([None] is [null] or [undefined]), its
    quotes doubled, between quotes. *)
Definition esc (val : option string) : string :=
  String dq (doubleQuotes (default "" val) +:+ String dq EmptyString).

(** [cells.map(esc).join(",")]. *)
Definition csvRow (cells : list (option string)) : string :=
  String.concat (String comma EmptyString) (esc <$> cells).

(** [[headerRow, ...rows].join("\n")]. *)
Definition csvText (headers : list string) (rows : list (list (option string)))
  : string :=
  String.concat (String newline EmptyString)
    (csvRow (Some <$> headers) :: (csvRow <$> rows)).

(** The texts of a row of cells: [String(val ?? "")] of each. *)
Definition cellTexts (cells : list (option string)) : list string :=
  default "" <$> cells.

(** A reader of comma-separated text in which every field is quoted
    (RFC 4180): the specification against which the export is checked. *)
Inductive CsvState := FieldStart | InQuoted | AfterQuote.

Fixpoint readCsv (s : string) (st : CsvState) (field : string)
    (row : list string) (rows : list (list string)) : option (list (list string)) :=
  match s with
  | EmptyString =>
      match st with
      | AfterQuote => Some (rows ++ [row ++ [field]])
      | _ => None
      end
  | String c s' =>
      match st with
      | FieldStart =>
          if bool_decide (c = dq) then readCsv s' InQuoted EmptyString row rows
          else None
      | InQuoted =>
          if bool_decide (c = dq) then readCsv s' AfterQuote field row rows
          else readCsv s' InQuoted (field +:+ String c EmptyString) row rows
      | AfterQuote =>
          if bool_decide (c = dq)
          then readCsv s' InQuoted (field +:+ String dq EmptyString) row rows
          else if bool_decide (c = comma)
          then readCsv s' FieldStart EmptyString (row ++ [field]) rows
          else if bool_decide (c = newline)
          then readCsv s' FieldStart EmptyString [] (rows ++ [row ++ [field]])
          else None
      end
  end.

Definition parseCsv (s : string) : option (list (list string)) :=
  readCsv s FieldStart EmptyString [] [].

(** [name.replace(/[^a-z0-9]/gi, "_")]: every character that is not an
    ASCII letter or digit becomes an underscore. *)
Definition isAlphaNum (c : ascii) : bool :=
  let n := nat_of_ascii c in
  ((48 <=? n) && (n <=? 57) || (65 <=? n) && (n <=? 90)
   || (97 <=? n) && (n <=? 122))%nat.

Fixpoint replaceNonAlphaNum (s : string) : string :=
  match s with
  | EmptyString => EmptyString
  | String c s' =>
      String (if isAlphaNum c then c else "_"%char) (replaceNonAlphaNum s')
  end.

(** The [Content-Disposition] header of the export. *)
Definition contentDisposition (name : string) : string :=
  "attachment; filename=" +:+ dquote +:+ replaceNonAlphaNum name
  +:+ "_participants.csv" +:+ dquote.

(** ** eventCrud.js: event management *)

Definition set_registrationOpen (b : bool) (e : Event) : Event :=
  mkEvent (eventType e) (eligibility e) (registrationDeadline e) (startDate e)
    (endDate e) (registrationLimit e) (registrationFee e) (organizerId e)
    (status e) b (registrationCount e) (customForm e) (merchandiseItems e).

Definition set_registrationDeadline (d : option Z) (e : Event) : Event :=
  mkEvent (eventType e) (eligibility e) d (startDate e)
    (endDate e) (registrationLimit e) (registrationFee e) (organizerId e)
    (status e) (registrationOpen e) (registrationCount e) (customForm e)
    (merchandiseItems e).

Definition set_registrationLimit (n : Z) (e : Event) : Event :=
  mkEvent (eventType e) (eligibility e) (registrationDeadline e) (startDate e)
    (endDate e) n (registrationFee e) (organizerId e)
    (status e) (registrationOpen e) (registrationCount e) (customForm e)
    (merchandiseItems e).

(** [event.save()], and [Event.create] under a new [_id]. *)
Definition Event_save (eid : string) (e : Event) (db : Db) : Db :=
  set_events (<[eid := e]> (events db)) db.

(** What the event routes answer when they do not refuse. *)
Inductive EventAnswer :=
| EventJson (code : Z) (event : Event)        (* response.status(code).json(event) *)
| EventMessage (message : string) (event : Event).
                                              (* response.json({ message, event }) *)

(** The body of POST /events. *)
Record NewEvent := mkNewEvent {
  new_name : option string;
  new_description : option string;
  new_eventType : option EventType;
  new_eligibility : option Eligibility;
  new_startDate : option Z;
  new_endDate : option Z;
  new_registrationLimit : option Z;
  new_registrationFee : option Z;
  new_customForm : option (list FormField);
  new_merchandiseItems : option (list MerchItem);
  new_status : option string
}.

(** The body of PATCH /events/:id. *)
Record EventUpdates := mkEventUpdates {
  upd_name : option string;
  upd_description : option string;
  upd_eventType : option EventType;
  upd_eligibility : option Eligibility;
  upd_registrationDeadline : option Z;
  upd_startDate : option Z;
  upd_endDate : option Z;
  upd_registrationLimit : option Z;
  upd_registrationFee : option Z;
  upd_organizerId : option string;
  upd_status : option EventStatus;
  upd_registrationOpen : option bool;
  upd_registrationCount : option Z;
  upd_customForm : option (list FormField);
  upd_merchandiseItems : option (list MerchItem)
}.

(** A required string path fails validation when it is absent or empty. *)
Definition requiredText (path : string) (v : option string) : list string :=
  if truthy v then [] else [path].

Definition requiredPath {A} (path : string) (v : option A) : list string :=
  if v is Some _ then [] else [path].

(** The required strings of the subdocuments: the label of a form field,
    the name of an item, the label of an option. The index of the
    subdocument is left out of the path. *)
Definition invalidForm (form : list FormField) : list string :=
  if forallb (λ field, negb (bool_decide (field_label field = ""))) form
  then [] else ["customForm.label"].

Definition invalidItems (items : list MerchItem) : list string :=
  (if forallb (λ item, negb (bool_decide (itemName item = ""))) items
   then [] else ["merchandiseItems.itemName"])
  ++ (if forallb
           (λ item, forallb (λ opt, negb (bool_decide (opt_label opt = "")))
                      (options item))
           items
      then [] else ["merchandiseItems.options.label"]).

(** The paths of [eventSchema] at which the body of a new event fails
    validation: a required path without a value, a subdocument without its
    required string. *)
Definition missingPaths (body : NewEvent) : list string :=
  requiredText "name" (new_name body)
  ++ requiredText "description" (new_description body)
  ++ requiredPath "eventType" (new_eventType body)
  ++ requiredPath "startDate" (new_startDate body)
  ++ requiredPath "endDate" (new_endDate body)
  ++ requiredPath "registrationLimit" (new_registrationLimit body)
  ++ invalidForm (default [] (new_customForm body))
  ++ invalidItems (default [] (new_merchandiseItems body)).

(** A string path that an edit assigns fails validation when the new value
    is empty. *)
Definition emptiedText (path : string) (v : option string) : list string :=
  if bool_decide (v = Some "") then [path] else [].

(** The paths at which the edit of a draft fails validation. *)
Definition invalidUpdates (updates : EventUpdates) : list string :=
  emptiedText "name" (upd_name updates)
  ++ emptiedText "description" (upd_description updates)
  ++ invalidForm (default [] (upd_customForm updates))
  ++ invalidItems (default [] (upd_merchandiseItems updates)).

(** [const { registrationOpen, ...safeUpdates } = updates;
    Object.assign(event, safeUpdates)]. *)
Definition assignUpdates (updates : EventUpdates) (e : Event) : Event :=
  mkEvent
    (default (eventType e) (upd_eventType updates))
    (default (eligibility e) (upd_eligibility updates))
    (if upd_registrationDeadline updates is Some d then Some d
     else registrationDeadline e)
    (default (startDate e) (upd_startDate updates))
    (default (endDate e) (upd_endDate updates))
    (default (registrationLimit e) (upd_registrationLimit updates))
    (default (registrationFee e) (upd_registrationFee updates))
    (default (organizerId e) (upd_organizerId updates))
    (default (status e) (upd_status updates))
    (registrationOpen e)
    (default (registrationCount e) (upd_registrationCount updates))
    (default (customForm e) (upd_customForm updates))
    (default (merchandiseItems e) (upd_merchandiseItems updates)).

(** The published branch of the edit: the limit is taken over only when it
    does not go down. *)
Definition raiseLimit (updates : EventUpdates) (e : Event) : Event :=
  match upd_registrationLimit updates with
  | Some limit =>
      if bool_decide (registrationLimit e ≤ limit)
      then set_registrationLimit limit e else e
  | None => e
  end.

(** The ongoing branch of the edit. *)
Definition markCompleted (updates : EventUpdates) (e : Event) : Event :=
  if bool_decide (upd_status updates = Some completed)
  then set_registrationOpen false (set_status completed e) else e.

Section Management.

(** The message of a Mongoose [ValidationError] for the failing paths. *)
Variable validationMessage : list string → string.

(** POST /events *)
Definition createEvent (uid : string) (body : NewEvent) (newId : string)
  : Handler EventAnswer :=
  db ← getDb;
  match organizers db !! uid with
  | None => respond (Message 404 "Organizer not found")
  | Some organizer =>
      let eventStatus :=
        if bool_decide (new_status body = Some "published")
        then published else draft in
      match new_eventType body, new_startDate body, new_endDate body,
            new_registrationLimit body, missingPaths body with
      | Some ty, Some start, Some finish, Some limit, [] =>
          let event :=
            mkEvent ty (default elig_all (new_eligibility body)) None start finish
              limit (default 0 (new_registrationFee body)) organizer eventStatus
              false 0 (default [] (new_customForm body))
              (default [] (new_merchandiseItems body)) in
          if bool_decide (is_Some (events db !! newId))
          then respond (Message 500 "Server error")
          else
            modifyDb (Event_save newId event);;
            mret (EventJson 201 event)
      | _, _, _, _, paths => respond (Message 400 (validationMessage paths))
      end
  end.

(** PATCH /events/:id *)
Definition editEvent (uid eid : string) (updates : EventUpdates) (now : Z)
  : Handler EventAnswer :=
  event ← findOrganizerAndEvent uid eid;
  let liveStatus := computeStatus event now in
  respondIf
    (bool_decide (is_Some (upd_customForm updates))
     && bool_decide (registrationCount event > 0))
    (Message 400 "Cannot edit form after registrations");;
  respondIf
    (bool_decide (is_Some (upd_merchandiseItems updates))
     && bool_decide (registrationCount event > 0))
    (Message 400 "Cannot edit merchandise items after registrations");;
  let '(event', invalid) :=
    match liveStatus with
    | draft =>
        (assignUpdates updates event, invalidUpdates updates)
    | published =>
        (raiseLimit updates event,
         emptiedText "description" (upd_description updates))
    | ongoing => (markCompleted updates event, [])
    | completed => (event, [])
    end in
  match invalid with
  | [] =>
      modifyDb (Event_save eid event');;
      mret (EventJson 200 event')
  | paths => respond (Message 400 (validationMessage paths))
  end.

(** PATCH /events/:id/publish *)
Definition publishEvent (uid eid : string) : Handler EventAnswer :=
  event ← findOrganizerAndEvent uid eid;
  respondIf (bool_decide (status event ≠ draft))
    (Message 400 "Only draft events can be published");;
  let event' := set_status published event in
  modifyDb (Event_save eid event');;
  mret (EventMessage "Event published" event').

(** PATCH /events/:id/registration *)
Definition toggleRegistration (uid eid action : string) (deadline : option Z)
    (now : Z) : Handler EventAnswer :=
  event ← findOrganizerAndEvent uid eid;
  let liveStatus := computeStatus event now in
  respondIf
    (bool_decide (liveStatus ≠ published) && bool_decide (liveStatus ≠ ongoing))
    (Message 400 "Can only toggle registration for published or ongoing events");;
  if bool_decide (action = "open") then
    match deadline with
    | None =>
        respond
          (Message 400 "Registration deadline is required when opening registration")
    | Some d =>
        respondIf (bool_decide (d ≤ now))
          (Message 400 "Registration deadline must be in the future");;
        let event' :=
          set_registrationDeadline (Some d) (set_registrationOpen true event) in
        modifyDb (Event_save eid event');;
        mret (EventMessage "Registration opened" event')
    end
  else if bool_decide (action = "close") then
    let event' := set_registrationOpen false event in
    modifyDb (Event_save eid event');;
    mret (EventMessage "Registration closed" event')
  else respond (Message 400 "Invalid action. Use 'open' or 'close'").

(** GET /events/:id *)
Definition getEvent (eid : string) (now : Z) (db : Db) : Response + Event :=
  match events db !! eid with
  | None => inl (Message 404 "Event not found")
  | Some event => inr (set_status (computeStatus event now) event)
  end.

Variable toDataURL : string → string.

(** Everything a client can ask of the back end modelled here. *)
Inductive Action :=
| Engine (req : Request)
| CreateEvent (uid : string) (body : NewEvent) (newId : string)
| EditEvent (uid eid : string) (updates : EventUpdates) (now : Z)
| PublishEvent (uid eid : string)
| ToggleRegistration (uid eid action : string) (deadline : option Z) (now : Z).

(** The answer to an action and the database after it: the answers of the
    engine are on the left, with the refusals of the event routes. *)
Definition act (db : Db) (a : Action) : (Response + EventAnswer) * Db :=
  match a with
  | Engine req => (inl (handle toDataURL db req).1, (handle toDataURL db req).2)
  | CreateEvent uid body newId => createEvent uid body newId db
  | EditEvent uid eid updates now => editEvent uid eid updates now db
  | PublishEvent uid eid => publishEvent uid eid db
  | ToggleRegistration uid eid action deadline now =>
      toggleRegistration uid eid action deadline now db
  end.

Definition perform (db : Db) (a : Action) : Db := (act db a).2.

Definition play (db : Db) (actions : list Action) : Db := foldl perform db actions.

End Management.

(** ** eventCrud.js: the pages of the event list *)

(** [Array.prototype.slice(start, end)]. *)
Definition slice {A} (start finish : Z) (l : list A) : list A :=
  let len := Z.of_nat (length l) in
  let k := if bool_decide (start < 0) then Z.max (len + start) 0
           else Z.min start len in
  let final := if bool_decide (finish < 0) then Z.max (len + finish) 0
               else Z.min finish len in
  take (Z.to_nat (final - k)) (drop (Z.to_nat k) l).

(** [const page = request.query.page || 1; const limit = request.query.limit
    || 20; const skip = (page - 1) * limit;
    events.slice(skip, skip + Number(limit))]: [None] is an absent or empty
    query parameter, [Some n] the number it spells. *)
Definition paginate {A} (page limit : option Z) (events : list A) : list A :=
  let page := default 1 page in
  let limit := default 20 limit in
  let skip := (page - 1) * limit in
  slice skip (skip + limit) events.

(** ** EventDetail.jsx and MerchSelector.jsx *)

(** [Number.MAX_SAFE_INTEGER]. Up to this bound the whole Numbers are the
    integers, and a sum of whole Numbers that are not negative is exact, in
    whatever order it is taken, when it stays within the bound. *)
Definition MAX_SAFE_INTEGER : Z := 2 ^ 53 - 1.

(** One turn of the loop of [computeMerchTotal()]. *)
Definition addSelectedPrice (merchSelections : gmap string string) (total : Z)
    (item : MerchItem) : Z :=
  let selectedOptId := merchSelections !! item_id item in
  if truthy selectedOptId then
    match find (has_opt_id (default "" selectedOptId)) (options item) with
    | Some opt => total + price opt
    | None => total
    end
  else total.

(** [computeMerchTotal()]: the amount shown before the request is sent. *)
Definition computeMerchTotal (event : Event) (merchSelections : gmap string string)
  : Z :=
  foldl (addSelectedPrice merchSelections) (registrationFee event)
    (merchandiseItems event).

(** [allSoldOut] of MerchSelector.jsx: [item.options.every((opt) => opt.stock
    <= 0)]. *)
Definition allSoldOut (item : MerchItem) : bool :=
  forallb (λ opt, bool_decide (stock opt ≤ 0)) (options item).

(** [hasMerchStockIssue()]. *)
Definition hasMerchStockIssue (event : Event) : bool :=
  if bool_decide (eventType event ≠ merchandise) then false
  else existsb (λ item, required item && allSoldOut item) (merchandiseItems event).

(** [registrationIsOpen]: the comparison with an absent deadline is false. *)
Definition registrationIsOpen (event : Event) (now : Z) : bool :=
  registrationOpen event
  && (if registrationDeadline event is Some d then bool_decide (now < d) else false)
  && bool_decide (registrationCount event < registrationLimit event).

(** The selector of an item offers the option: the item is not sold out and
    the option is not disabled. *)
Definition offered (item : MerchItem) (opt : MerchOption) : Prop :=
  opt ∈ options item ∧ allSoldOut item = false ∧ 0 < stock opt.

(** ** Specification devices for the properties of these routes *)

(** The place of a status in the life of an event. *)
Definition phase (s : EventStatus) : Z :=
  match s with
  | draft => 0
  | published => 1
  | ongoing => 2
  | completed => 3
  end.

(** The account [uid] is the organizer of event [eid]. *)
Definition ownsEvent (db : Db) (uid eid : string) : Prop :=
  match events db !! eid with
  | Some event => organizers db !! uid = Some (organizerId event)
  | None => False
  end.

#[global] Instance ownsEvent_dec db uid eid : Decision (ownsEvent db uid eid).
Proof. unfold ownsEvent. destruct (events db !! eid); apply _. Defined.

(** The account and the event of a request to a route that starts with
    [findOrganizerAndEvent]. *)
Definition organizerRoute (a : Action) : option (string * string) :=
  match a with
  | Engine (Payment uid eid _ _) | Engine (Scan uid eid _ _)
  | Engine (ManualCheckin uid eid _ _)
  | EditEvent uid eid _ _ | PublishEvent uid eid
  | ToggleRegistration uid eid _ _ _ => Some (uid, eid)
  | _ => None
  end.

(** The conditions under which POST /normal/:id/register creates a
    registration. *)
Definition normalAccepted (db : Db) (eid : string) (user : User)
    (submitted : gmap string FormValue) (now : Z) (rnd : string) (fault : bool)
  : Prop :=
  ∃ event,
    events db !! eid = Some event
    ∧ registrationOpen event = true
    ∧ eventType event = normal
    ∧ checkEligibility event user = None
    ∧ deadlinePassed event now = false
    ∧ Registration_findByEventUser eid (user_id user) db = None
    ∧ registrationCount event < registrationLimit event
    ∧ missingRequired (customForm event) submitted = None
    ∧ Forall (λ r, ticketId r ≠ "FEL-" +:+ rnd) (registrations db)
    ∧ fault = false.

(** The selections fit an item: a required item has a choice, and a choice
    names an option of the item that is in stock. *)
Definition selectionFits (selections : gmap string string) (it : MerchItem)
  : Prop :=
  (required it = true → truthy (selections !! item_id it) = true)
  ∧ (truthy (selections !! item_id it) = true →
     ∃ opt, opt ∈ options it ∧ selections !! item_id it = Some (opt_id opt)
            ∧ 0 < stock opt).

(** Conditions under which POST /merch/:id/register creates a
    registration. *)
Definition merchAccepted (db : Db) (eid : string) (user : User)
    (selections : gmap string string) (now : Z) (rnd : string) (fault : bool)
  : Prop :=
  ∃ event,
    events db !! eid = Some event
    ∧ registrationOpen event = true
    ∧ eventType event = merchandise
    ∧ checkEligibility event user = None
    ∧ deadlinePassed event now = false
    ∧ Registration_findByEventUser eid (user_id user) db = None
    ∧ registrationCount event < registrationLimit event
    ∧ wf_items (merchandiseItems event)
    ∧ Forall (selectionFits selections) (merchandiseItems event)
    ∧ Forall (λ r, ticketId r ≠ "FEL-" +:+ rnd) (registrations db)
    ∧ fault = false.

(** The registration that POST /normal/:id/register creates. *)
Definition normalRegistration (toDataURL : string → string) (event : Event)
    (eid : string) (user : User) (submitted : gmap string FormValue)
    (rnd : string) : Registration :=
  mkRegistration eid (user_id user) ("FEL-" +:+ rnd)
    (if bool_decide (registrationFee event > 0) then pending else not_required)
    ""
    (if bool_decide (registrationFee event = 0)
     then toDataURL ("FEL-" +:+ rnd) else "")
    submitted ∅ (registrationFee event) false None.

(** Sum of a list of numbers. *)
Definition sumZ (l : list Z) : Z := foldr Z.add 0 l.

(** Number of the registrations that satisfy [p]. *)
Definition countWhere (p : Registration → bool) (regs : list Registration) : Z :=
  sumZ ((λ r, if p r then 1 else 0) <$> regs).

(** Amount paid by the registrations that satisfy [p]. *)
Definition paidWhere (p : Registration → bool) (regs : list Registration) : Z :=
  sumZ ((λ r, if p r then amountPaid r else 0) <$> regs).

(** A registration that needed no payment paid nothing. *)
Definition freeIsFree (db : Db) : Prop :=
  Forall (λ r, paymentStatus r = not_required → amountPaid r = 0)
    (registrations db).

#[global] Instance freeIsFree_dec db : Decision (freeIsFree db).
Proof. unfold freeIsFree. apply _. Defined.

(** Two versions of an event that agree on everything but the limit, the
    status and the open flag. *)
Definition fixedAfterDraft (e e' : Event) : Prop :=
  eventType e' = eventType e
  ∧ eligibility e' = eligibility e
  ∧ registrationDeadline e' = registrationDeadline e
  ∧ startDate e' = startDate e
  ∧ endDate e' = endDate e
  ∧ registrationFee e' = registrationFee e
  ∧ organizerId e' = organizerId e
  ∧ registrationCount e' = registrationCount e
  ∧ customForm e' = customForm e
  ∧ merchandiseItems e' = merchandiseItems e.

(** Two versions of an option, an item and an event that differ at most in
    stock and, for the event, in the counter. *)
Definition sameOption (o o' : MerchOption) : Prop :=
  opt_id o' = opt_id o ∧ opt_label o' = opt_label o ∧ price o' = price o.

Definition sameItem (it it' : MerchItem) : Prop :=
  item_id it' = item_id it ∧ itemName it' = itemName it
  ∧ required it' = required it
  ∧ Forall2 sameOption (options it) (options it').

Definition sameSettings (e e' : Event) : Prop :=
  eventType e' = eventType e
  ∧ eligibility e' = eligibility e
  ∧ registrationDeadline e' = registrationDeadline e
  ∧ startDate e' = startDate e
  ∧ endDate e' = endDate e
  ∧ registrationLimit e' = registrationLimit e
  ∧ registrationFee e' = registrationFee e
  ∧ organizerId e' = organizerId e
  ∧ status e' = status e
  ∧ registrationOpen e' = registrationOpen e
  ∧ customForm e' = customForm e
  ∧ Forall2 sameItem (merchandiseItems e) (merchandiseItems e').

(** [db'] has the events of [db], each with the same settings, and the same
    organizers. *)
Definition settingsKept (db db' : Db) : Prop :=
  organizers db' = organizers db
  ∧ ∀ eid, option_Forall2 sameSettings (events db !! eid) (events db' !! eid).

#[global] Instance sameOption_refl : Reflexive sameOption.
Proof. by intros o. Qed.

#[global] Instance sameOption_trans : Transitive sameOption.
Proof.
  intros o1 o2 o3 (H1 & H2 & H3) (H4 & H5 & H6).
  split_and!; congruence.
Qed.

#[global] Instance sameItem_refl : Reflexive sameItem.
Proof. intros it. by split_and!. Qed.

#[global] Instance sameItem_trans : Transitive sameItem.
Proof.
  intros i1 i2 i3 (H1 & H2 & H3 & H4) (H5 & H6 & H7 & H8).
  split_and!; [congruence..|]. by etrans.
Qed.

#[global] Instance sameSettings_refl : Reflexive sameSettings.
Proof. intros e. by split_and!. Qed.

#[global] Instance sameSettings_trans : Transitive sameSettings.
Proof.
  intros e1 e2 e3 (A1 & A2 & A3 & A4 & A5 & A6 & A7 & A8 & A9 & A10 & A11 & A12)
    (B1 & B2 & B3 & B4 & B5 & B6 & B7 & B8 & B9 & B10 & B11 & B12).
  split_and!; [congruence..|]. by etrans.
Qed.

#[global] Instance settingsKept_refl : Reflexive settingsKept.
Proof. intros db. split; [done|]. intros eid. done. Qed.

#[global] Instance settingsKept_trans : Transitive settingsKept.
Proof.
  intros db1 db2 db3 [Ho1 He1] [Ho2 He2]. split; [congruence|].
  intros eid. etrans; [apply He1|apply He2].
Qed.

(** Registration is closed on every draft. *)
Definition draftsClosed (db : Db) : Prop :=
  map_Forall (λ _ e, status e = draft → registrationOpen e = false) (events db).

#[global] Instance draftsClosed_dec db : Decision (draftsClosed db).
Proof. unfold draftsClosed. apply _. Defined.

(** No fee and no price of an event is negative. *)
Definition pricedFairly (db : Db) : Prop :=
  map_Forall
    (λ _ e, 0 ≤ registrationFee e
            ∧ Forall (λ it, Forall (λ o, 0 ≤ price o) (options it))
                (merchandiseItems e))
    (events db).

#[global] Instance pricedFairly_dec db : Decision (pricedFairly db).
Proof. unfold pricedFairly. apply _. Defined.

(** Number of occurrences of a character in a text. *)
Fixpoint countChar (c : ascii) (s : string) : nat :=
  match s with
  | EmptyString => 0
  | String c' s' => (if bool_decide (c' = c) then 1 else 0) + countChar c s'
  end.

(** The answers with which a register request is turned away because
    registration is closed, late or full. *)
Definition closedAnswers : list Response :=
  [Message 400 "Registration is not open for this event";
   Message 400 "Registration deadline passed";
   Message 400 "Event is full"].

(** Closes a goal [(resp, db).2 = db ∧ ∃ c m, (resp, db).1 = Message c m ∧
    400 ≤ c] on a path that answers with a refusal. *)
Ltac refused := split; [done|]; do 2 eexists; split; [done|lia].

(** ** More sample data *)

Definition sampleValidation (paths : list string) : string :=
  "Event validation failed: " +:+ String.concat ", " paths.

(** A merchandise event whose only item is required and sold out. *)
Definition capSale : Event :=
  mkEvent merchandise elig_all (Some 90) 100 200 5 0 "org-1" published true 0 []
    [mkMerchItem "item-cap" "Cap" true [mkMerchOption "opt-one" "One size" 300 0]].

Definition dbCapSale : Db :=
  mkDb {[ "caps" := capSale ]} [] {[ "u-org" := "org-1" ]}.

Definition carol : User := mkUser "carol" iiit.

Definition sampleUsers : gmap string User :=
  {[ "alice" := alice; "bob" := bob; "carol" := carol ]}.

(** A paid event that is stored as completed, with an approved registration
    that attended and a pending one. *)
Definition gala : Event :=
  mkEvent normal elig_all (Some 90) 100 200 10 500 "org-1" completed false 2 [] [].

Definition dbGala : Db :=
  mkDb {[ "gala" := gala; "meetup" := meetup ]}
    [mkRegistration "gala" "alice" "FEL-000000a1" approved "proof-a"
       (sampleQR "FEL-000000a1") ∅ ∅ 500 true (Some 150);
     mkRegistration "gala" "bob" "FEL-000000b2" pending "proof-b" "" ∅ ∅ 500
       false None]
    {[ "u-org" := "org-1" ]}.

(** An event for IIIT participants only. *)
Definition campusTalk : Event :=
  mkEvent normal elig_iiit (Some 90) 100 200 30 0 "org-1" published true 0 [] [].

Definition dbCampus : Db :=
  mkDb {[ "campus" := campusTalk ]} [] {[ "u-org" := "org-1" ]}.

(** The body of a request that creates a published event, and the event
    that results for the organizer of the sample database. *)
Definition hackNightBody : NewEvent :=
  mkNewEvent (Some "Hack night") (Some "An evening of hacking") (Some normal) None
    (Some 300) (Some 400) (Some 50) None None None (Some "published").

Definition hackNight : Event :=
  mkEvent normal elig_all None 300 400 50 0 "org-1" published false 0 [] [].

(** Edits: one that asks for a larger limit, one that marks the event as
    completed, one that carries a custom form. *)
Definition raiseTo (limit : Z) : EventUpdates :=
  mkEventUpdates None None None None None None None (Some limit) None None None
    None None None None.

Definition askCompleted : EventUpdates :=
  mkEventUpdates None None None None None None None None None None (Some completed)
    None None None None.

Definition newForm : EventUpdates :=
  mkEventUpdates None None None None None None None None None None None None None
    (Some []) None.

(** The life of an event from an empty event collection: created as a
    draft, published, and opened for registration. *)
Definition draftBody : NewEvent :=
  mkNewEvent (Some "Hack night") (Some "An evening of hacking") (Some normal) None
    (Some 300) (Some 400) (Some 50) None None None None.

Definition emptyDb : Db := mkDb ∅ [] {[ "u-org" := "org-1" ]}.

Definition hackNightStory : list Action :=
  [CreateEvent "u-org" draftBody "hack"; PublishEvent "u-org" "hack";
   ToggleRegistration "u-org" "hack" "open" (Some 250) 10].

Definition aliceJoinsHackNight : Request :=
  RegisterNormal "hack" alice ∅ 20 "0000aaaa" false.
(** ** Check-in *)

Section CheckIn.

Variables (uid eid ticket : string) (now : Z) (db : Db) (event : Event).
Hypothesis Hevent : events db !! eid = Some event.
Hypothesis Howner : organizers db !! uid = Some (organizerId event).

Lemma scan_not_ongoing :
  computeStatus event now ≠ ongoing →
  runHandler (scan uid eid ticket now) db =
    (Message 400 "Attendance can only be taken while the event is ongoing", db).
Proof.
  intros Hst. unfold scan. unfold_handler. rewrite Hevent, Howner.
  rewrite bool_decide_eq_true_2 by done.
  by rewrite (bool_decide_eq_true_2 _ Hst).
Qed.

Lemma scan_empty_ticket :
  computeStatus event now = ongoing → ticket = "" →
  runHandler (scan uid eid ticket now) db = (Message 400 "Ticket ID required", db).
Proof.
  intros Hst ->. unfold scan. unfold_handler. rewrite Hevent, Howner.
  rewrite bool_decide_eq_true_2 by done.
  rewrite bool_decide_eq_false_2 by (by intros ?).
  done.
Qed.

Lemma scan_ongoing :
  computeStatus event now = ongoing → ticket ≠ "" →
  runHandler (scan uid eid ticket now) db =
    match Registration_findByTicket eid ticket db with
    | None => (Message 404 "Invalid ticket", db)
    | Some (i, registration) =>
        if bool_decide (paymentStatus registration = pending)
           || bool_decide (paymentStatus registration = rejected)
        then (Message 400 "Payment not approved — cannot check in", db)
        else if attended registration
        then (Message 400 "Already checked in", db)
        else (Message 200 "Checked in",
              Registration_save i (set_attended true (Some now) registration) db)
    end.
Proof.
  intros Hst Ht. unfold scan. unfold_handler. rewrite Hevent, Howner.
  rewrite bool_decide_eq_true_2 by done.
  rewrite bool_decide_eq_false_2 by (by intros ?).
  rewrite (bool_decide_eq_false_2 _ Ht).
  destruct (Registration_findByTicket eid ticket db) as [[i r]|]; [|done].
  destruct (bool_decide (paymentStatus r = pending)
            || bool_decide (paymentStatus r = rejected)); [done|].
  by destruct (attended r).
Qed.

End CheckIn.

(** ** Algebra of stock updates *)

Lemma add_stock_0 op : add_stock 0 op = op.
Proof. destruct op; unfold add_stock; simpl; f_equal; lia. Qed.

Lemma add_stock_add d1 d2 op :
  add_stock d1 (add_stock d2 op) = add_stock (d1 + d2) op.
Proof. unfold add_stock; simpl; f_equal; lia. Qed.

Lemma set_options_same it : set_options (options it) it = it.
Proof. by destruct it. Qed.

Lemma set_merchandiseItems_same e : set_merchandiseItems (merchandiseItems e) e = e.
Proof. by destruct e. Qed.

Lemma incCount_0 e : incCount 0 e = e.
Proof. destruct e; unfold incCount, set_registrationCount; simpl; f_equal; lia. Qed.

Lemma shiftStock_ext δ1 δ2 items :
  (∀ i o, δ1 i o = δ2 i o) → shiftStock δ1 items = shiftStock δ2 items.
Proof.
  intros H. unfold shiftStock. apply map_ext; intros it. f_equal.
  apply map_ext; intros op. by rewrite H.
Qed.

Lemma map_add_stock_zero (g : MerchOption → Z) (l : list MerchOption) :
  (∀ op, g op = 0) → map (λ op, add_stock (g op) op) l = l.
Proof.
  intros H. induction l as [|op l IH]; [done|]. simpl.
  by rewrite H, add_stock_0, IH.
Qed.

Lemma shiftStock_zero δ items : (∀ i o, δ i o = 0) → shiftStock δ items = items.
Proof.
  intros H. unfold shiftStock. induction items as [|it items IH]; [done|].
  simpl. rewrite IH. f_equal.
  rewrite (map_add_stock_zero (λ op, δ (item_id it) (opt_id op))) by (intros; apply H).
  apply set_options_same.
Qed.

Lemma shiftStock_compose δ1 δ2 items :
  shiftStock δ1 (shiftStock δ2 items) = shiftStock (λ i o, δ1 i o + δ2 i o) items.
Proof.
  unfold shiftStock. rewrite map_map. apply map_ext; intros it. simpl.
  unfold set_options; simpl. f_equal. rewrite map_map.
  apply map_ext; intros op. simpl. apply add_stock_add.
Qed.

Lemma incStockFiltered_shift i o d items :
  incStockFiltered i o d items = shiftStock (unitShift i o d) items.
Proof.
  unfold incStockFiltered, shiftStock, alter_all. apply map_ext; intros it.
  unfold has_item_id. case_bool_decide as Hi.
  - f_equal. apply map_ext; intros op. unfold has_opt_id, unitShift.
    case_bool_decide as Ho.
    + by rewrite bool_decide_eq_true_2.
    + rewrite bool_decide_eq_false_2 by (by intros [_ ?]). by rewrite add_stock_0.
  - rewrite (map_add_stock_zero (λ op, unitShift i o d (item_id it) (opt_id op))).
    + by rewrite set_options_same.
    + intros op. unfold unitShift. by rewrite bool_decide_eq_false_2 by (by intros [? _]).
Qed.

Lemma alter_all_none {A} (p : A → bool) f (l : list A) :
  Forall (λ x, p x = false) l → alter_all p f l = l.
Proof.
  induction 1 as [|x l Hx _ IH]; [done|].
  unfold alter_all in *. simpl. by rewrite Hx, IH.
Qed.

(** With distinct keys, updating the first match and updating every match
    are the same update. *)
Lemma alter_first_all {A} (key : A → string) k f (l : list A) :
  NoDup (key <$> l) →
  alter_first (λ x, bool_decide (key x = k)) f l
  = alter_all (λ x, bool_decide (key x = k)) f l.
Proof.
  induction l as [|x l IH]; [done|].
  rewrite fmap_cons, NoDup_cons. intros [Hx Hl]. simpl.
  case_bool_decide as Hk.
  - f_equal. symmetry. fold (alter_all (λ x, bool_decide (key x = k)) f l).
    apply alter_all_none. apply Forall_forall. intros y Hy.
    apply bool_decide_eq_false_2. intros Hyk. apply Hx.
    rewrite Hk, <- Hyk. apply list_elem_of_fmap_2; exact Hy.
  - f_equal. by apply IH.
Qed.

Lemma incStockPositional_shift i o d items :
  wf_items items →
  incStockPositional i o d items = shiftStock (unitShift i o d) items.
Proof.
  intros [Hi _]. rewrite <- incStockFiltered_shift.
  unfold incStockPositional, incStockFiltered, has_item_id.
  by apply (alter_first_all item_id).
Qed.

Lemma incStockFound_shift i o d items :
  wf_items items →
  incStockFound i o d items = shiftStock (unitShift i o d) items.
Proof.
  intros [Hi Ho]. rewrite <- incStockFiltered_shift.
  unfold incStockFound, incStockFiltered, has_item_id.
  rewrite (alter_first_all item_id) by done.
  unfold alter_all. apply map_ext_Forall. eapply Forall_impl; [exact Ho|].
  intros it Hit. simpl. case_bool_decide; [|done]. f_equal.
  by apply (alter_first_all opt_id).
Qed.

Lemma wf_items_shift δ items : wf_items items → wf_items (shiftStock δ items).
Proof.
  intros [Hi Ho]. split.
  - unfold shiftStock. rewrite <- list_fmap_compose.
    erewrite list_fmap_ext; [exact Hi|]. by intros ? [].
  - unfold shiftStock. apply Forall_fmap. eapply Forall_impl; [exact Ho|].
    intros it Hit. simpl. rewrite <- list_fmap_compose.
    erewrite list_fmap_ext; [exact Hit|]. by intros ? [].
Qed.

Lemma find_map_stable {A} (p : A → bool) (f : A → A) (l : list A) :
  (∀ x, p (f x) = p x) → find p (map f l) = f <$> find p l.
Proof.
  intros H. induction l as [|x l IH]; [done|]. simpl. rewrite H.
  by destruct (p x).
Qed.

Lemma lookupStock_shift δ items i o :
  lookupStock (shiftStock δ items) i o = (λ s, s + δ i o) <$> lookupStock items i o.
Proof.
  unfold lookupStock, shiftStock. rewrite find_map_stable by done.
  destruct (find (has_item_id i) items) as [it|] eqn:Hit; [|done]. simpl.
  apply find_some in Hit as [_ Hid]. unfold has_item_id in Hid.
  apply bool_decide_eq_true in Hid. rewrite find_map_stable by done.
  destruct (find (has_opt_id o) (options it)) as [op|] eqn:Hop; [|done]. simpl.
  apply find_some in Hop as [_ Hoid]. unfold has_opt_id in Hoid.
  apply bool_decide_eq_true in Hoid. by rewrite Hid, Hoid.
Qed.

(** ** Net effect of updates on the database *)

Lemma set_events_same db : set_events (events db) db = db.
Proof. by destruct db. Qed.

Lemma adjust_zero eid δ db : (∀ i o, δ i o = 0) → adjust eid 0 δ db = db.
Proof.
  intros H. unfold adjust. rewrite alter_id; [apply set_events_same|].
  intros e _. by rewrite shiftStock_zero, set_merchandiseItems_same, incCount_0.
Qed.

Lemma adjust_ext eid c1 c2 δ1 δ2 db :
  c1 = c2 → (∀ i o, δ1 i o = δ2 i o) → adjust eid c1 δ1 db = adjust eid c2 δ2 db.
Proof.
  intros -> H. unfold adjust. f_equal. apply alter_ext. intros e _.
  by rewrite (shiftStock_ext δ1 δ2).
Qed.

Lemma adjust_adjust eid c1 c2 δ1 δ2 db :
  adjust eid c1 δ1 (adjust eid c2 δ2 db)
  = adjust eid (c1 + c2) (λ i o, δ1 i o + δ2 i o) db.
Proof.
  unfold adjust, set_events. simpl. f_equal. rewrite alter_alter_eq.
  apply alter_ext. intros e _. simpl.
  unfold incCount, set_registrationCount, set_merchandiseItems. simpl.
  rewrite shiftStock_compose. f_equal. lia.
Qed.

Lemma Event_incCount_adjust eid d db :
  Event_incCount eid d db = adjust eid d (λ _ _, 0) db.
Proof.
  unfold Event_incCount, adjust. f_equal. apply alter_ext. intros e _.
  by rewrite shiftStock_zero, set_merchandiseItems_same.
Qed.

Lemma Event_alterItems_shift eid f δ db :
  (∀ e, events db !! eid = Some e →
        f (merchandiseItems e) = shiftStock δ (merchandiseItems e)) →
  Event_alterItems eid f db = adjust eid 0 δ db.
Proof.
  intros H. unfold Event_alterItems, adjust. f_equal. apply alter_ext.
  intros e He. by rewrite incCount_0, (H e He).
Qed.

Lemma events_adjust eid c δ db eid' :
  events (adjust eid c δ db) !! eid'
  = if decide (eid = eid')
    then (λ e, incCount c (set_merchandiseItems (shiftStock δ (merchandiseItems e)) e))
           <$> events db !! eid'
    else events db !! eid'.
Proof. unfold adjust. simpl. rewrite lookup_alter. by case_decide; subst. Qed.

Lemma registrations_adjust eid c δ db :
  registrations (adjust eid c δ db) = registrations db.
Proof. done. Qed.

Lemma wf_events_adjust eid c δ db : wf_events db → wf_events (adjust eid c δ db).
Proof.
  intros Hwf eid' e. rewrite events_adjust. case_decide; [|apply Hwf].
  destruct (events db !! eid') as [e0|] eqn:He0; [|done]. simpl.
  intros [= <-]. simpl. apply wf_items_shift. by apply (Hwf eid').
Qed.

Lemma countOf_adjust eid c δ db eid' :
  countOf (adjust eid c δ db) eid'
  = if decide (eid = eid') then (λ n, n + c) <$> countOf db eid'
    else countOf db eid'.
Proof.
  unfold countOf. rewrite events_adjust. case_decide; [|done].
  by destruct (events db !! eid').
Qed.

Lemma stockOf_adjust eid c δ db eid' i o :
  stockOf (adjust eid c δ db) eid' i o
  = if decide (eid = eid') then (λ s, s + δ i o) <$> stockOf db eid' i o
    else stockOf db eid' i o.
Proof.
  unfold stockOf. rewrite events_adjust. case_decide; [|done].
  destruct (events db !! eid') as [e|]; [|done]. simpl.
  apply lookupStock_shift.
Qed.

Lemma batchShift_app d l1 l2 i o :
  batchShift d (l1 ++ l2) i o = batchShift d l1 i o + batchShift d l2 i o.
Proof.
  unfold batchShift. induction l1 as [|p l1 IH]; simpl; [done|]. rewrite IH. lia.
Qed.

Lemma batchShift_single d i' o' i o :
  batchShift d [(i', o')] i o = unitShift i' o' d i o.
Proof. unfold batchShift. simpl. lia. Qed.

Lemma unitShift_opp i' o' i o : unitShift i' o' 1 i o + unitShift i' o' (-1) i o = 0.
Proof. unfold unitShift. by case_bool_decide. Qed.

(** The rollback loop gives one unit back per recorded decrement, whichever
    form of the update path it uses. *)
Lemma rollbackStock_adjust inc eid decs db :
  inc = incStockPositional ∨ inc = incStockFiltered →
  wf_events db →
  rollbackStock inc eid decs db = adjust eid 0 (batchShift 1 decs) db.
Proof.
  intros Hinc. revert db. induction decs as [|[i o] decs IH]; intros db Hwf.
  - unfold rollbackStock. simpl. by rewrite adjust_zero.
  - unfold rollbackStock in *. simpl.
    assert (Event_alterItems eid (inc i o 1) db = adjust eid 0 (unitShift i o 1) db)
      as ->.
    { apply Event_alterItems_shift. intros e He.
      destruct Hinc as [-> | ->].
      - apply incStockPositional_shift. by apply (Hwf eid).
      - apply incStockFiltered_shift. }
    rewrite IH by by apply wf_events_adjust.
    rewrite adjust_adjust. apply adjust_ext; [done|].
    intros i' o'. unfold batchShift. simpl. lia.
Qed.

Lemma claimShift_insert m i sel i' o' :
  m !! i = None →
  claimShift (<[i := sel]> m) i' o'
  = claimShift m i' o' + unitShift i (optionId sel) 1 i' o'.
Proof.
  intros Hnone. unfold claimShift, unitShift.
  destruct (decide (i' = i)) as [->|Hne].
  - rewrite lookup_insert_eq, Hnone. simpl.
    case_bool_decide as H1; case_bool_decide as H2; try done.
    + destruct H2. split; [done|]. by injection H1.
    + destruct H1. destruct H2 as [_ ->]. done.
  - rewrite lookup_insert_ne by done.
    rewrite (bool_decide_eq_false_2 (i' = i ∧ _)) by (by intros [? _]). lia.
Qed.

Lemma selectionTotal_insert m i sel :
  m !! i = None →
  selectionTotal (<[i := sel]> m) = sel_price sel + selectionTotal m.
Proof.
  intros Hnone. unfold selectionTotal.
  rewrite map_fold_insert_L; [done| |done]. intros. lia.
Qed.

(** Net effect of the selection loop. When it answers early, the slot and
    every unit recorded in [decrementedOptions] have been given back; when it
    completes, the stock went down by exactly the selections it recorded. *)
Lemma reserveItems_effect eid sels items :
  ∀ processed total decs db,
    wf_events db →
    NoDup (item_id <$> items) →
    (∀ it, it ∈ items → processed !! item_id it = None) →
    match reserveItems eid sels items processed total decs db with
    | (inl _, db') => db' = adjust eid (-1) (batchShift 1 decs) db
    | (inr (processed', total', decs'), db') =>
        db' = adjust eid 0
                (λ i o, claimShift processed i o - claimShift processed' i o) db
        ∧ (∀ i o, batchShift 1 decs' i o
                  = batchShift 1 decs i o + claimShift processed' i o
                    - claimShift processed i o)
        ∧ total' + selectionTotal processed = total + selectionTotal processed'
    end.
Proof.
  induction items as [|merchItem rest IH]; intros processed total decs db Hwf Hnd Hfresh.
  - simpl. unfold_handler. split_and!; [|intros; lia|lia].
    symmetry. apply adjust_zero. intros; lia.
  - rewrite fmap_cons, NoDup_cons in Hnd. destruct Hnd as [Hhead Hnd].
    assert (Hfail : ∀ inc, inc = incStockPositional ∨ inc = incStockFiltered →
              Event_incCount eid (-1) (rollbackStock inc eid decs db)
              = adjust eid (-1) (batchShift 1 decs) db).
    { intros inc Hinc. rewrite rollbackStock_adjust, Event_incCount_adjust by done.
      rewrite adjust_adjust. apply adjust_ext; [done|]. intros; lia. }
    assert (Hrest : ∀ it, it ∈ rest → processed !! item_id it = None).
    { intros it Hit. apply Hfresh. by right. }
    simpl.
    destruct (required merchItem && negb (truthy (sels !! item_id merchItem))).
    { unfold_handler. apply Hfail. by left. }
    destruct (truthy (sels !! item_id merchItem)); [|by apply IH].
    destruct (find _ (options merchItem)) as [option|].
    2:{ unfold_handler. apply Hfail. by left. }
    unfold mbind, Handler_bind, tryUpdate.
    destruct (Event_reserveStock eid (item_id merchItem) (opt_id option) db)
      as [db1|] eqn:Hres.
    2:{ simpl. unfold_handler. apply Hfail. by right. }
    simpl.
    assert (db1 = adjust eid 0 (unitShift (item_id merchItem) (opt_id option) (-1)) db)
      as ->.
    { unfold Event_reserveStock in Hres.
      destruct (events db !! eid) as [e|]; [|done].
      destruct (stockFilter _ _ e); [|done]. injection Hres as <-.
      apply Event_alterItems_shift. intros. apply incStockFiltered_shift. }
    set (sel := mkSelection _ _ _ _).
    assert (Hnone : processed !! item_id merchItem = None).
    { apply Hfresh. by left. }
    specialize (IH (<[item_id merchItem := sel]> processed) (total + price option)
                  (decs ++ [(item_id merchItem, opt_id option)])
                  (adjust eid 0 (unitShift (item_id merchItem) (opt_id option) (-1)) db)).
    destruct (reserveItems _ _ rest _ _ _ _) as [[r|[[processed' total'] decs']] db'].
    + rewrite IH; [| by apply wf_events_adjust | done |].
      * rewrite adjust_adjust. apply adjust_ext; [done|]. intros i o.
        rewrite batchShift_app, batchShift_single.
        pose proof (unitShift_opp (item_id merchItem) (opt_id option) i o). lia.
      * intros it Hit. rewrite lookup_insert_ne; [by apply Hrest|].
        intros Heq. apply Hhead. rewrite Heq. by apply list_elem_of_fmap_2.
    + destruct IH as (-> & Hb & Ht); [by apply wf_events_adjust | done | |].
      { intros it Hit. rewrite lookup_insert_ne; [by apply Hrest|].
        intros Heq. apply Hhead. rewrite Heq. by apply list_elem_of_fmap_2. }
      split_and!.
      * rewrite adjust_adjust. apply adjust_ext; [done|]. intros i o.
        rewrite (claimShift_insert _ _ sel) by done. simpl.
        pose proof (unitShift_opp (item_id merchItem) (opt_id option) i o). lia.
      * intros i o. rewrite Hb, batchShift_app, batchShift_single.
        rewrite (claimShift_insert _ _ sel) by done. simpl. lia.
      * rewrite selectionTotal_insert in Ht by done. simpl in Ht. lia.
Qed.

(** Every selection the loop records comes from an option of the item it is
    recorded for: the option the participant named, with a non-empty id. *)
Lemma reserveItems_selections (P : string → Selection → Prop) eid sels items :
  (∀ it op, it ∈ items → op ∈ options it →
            sels !! item_id it = Some (opt_id op) → opt_id op ≠ "" →
            P (item_id it)
              (mkSelection (itemName it) (opt_id op) (opt_label op) (price op))) →
  ∀ processed total decs db,
    map_Forall P processed →
    match reserveItems eid sels items processed total decs db with
    | (inl r, _) => ∃ c m, r = Message c m
    | (inr (processed', _, _), _) => map_Forall P processed'
    end.
Proof.
  induction items as [|merchItem rest IH]; intros HP processed total decs db Hall.
  - done.
  - simpl.
    destruct (required merchItem && negb (truthy (sels !! item_id merchItem))).
    { unfold_handler. eauto. }
    destruct (truthy (sels !! item_id merchItem)) eqn:Htruthy.
    2:{ apply IH; [|done]. intros it op Hit. apply HP. by right. }
    destruct (find _ (options merchItem)) as [option|] eqn:Hfind.
    2:{ unfold_handler. eauto. }
    unfold mbind, Handler_bind, tryUpdate.
    destruct (Event_reserveStock eid (item_id merchItem) (opt_id option) db)
      as [db1|]; simpl.
    2:{ unfold_handler. eauto. }
    apply IH.
    + intros it op Hit. apply HP. by right.
    + apply map_Forall_insert_2; [|done].
      apply find_some in Hfind as [Hin Hid].
      unfold has_opt_id in Hid. apply bool_decide_eq_true in Hid.
      unfold truthy in Htruthy.
      destruct (sels !! item_id merchItem) as [s|] eqn:Hs; [|done].
      simpl in Hid. subst s.
      apply HP; [by left| by apply list_elem_of_In | done |].
      intros Hempty. rewrite Hempty in Htruthy.
      by rewrite bool_decide_eq_true_2 in Htruthy.
Qed.

(** ** Effect of the register handlers *)

Section Register.

Variable toDataURL : string → string.

(** The three ways a normal registration ends: nothing changed; the slot
    was taken and the handler answered that a required field is missing;
    or the registration was written. *)
Lemma registerNormal_effect eid user submitted now rnd fault db resp db' :
  runHandler (registerNormal toDataURL eid user submitted now rnd fault) db
    = (resp, db') →
  (db' = db ∧ ∃ c m, resp = Message c m)
  ∨ (∃ event field,
       events db !! eid = Some event
       ∧ registrationCount event < registrationLimit event
       ∧ missingRequired (customForm event) submitted = Some field
       ∧ resp = Message 400 ("Required field missing: " +:+ field_label field)
       ∧ db' = Event_incCount eid 1 db)
  ∨ (∃ event reg,
       events db !! eid = Some event
       ∧ registrationCount event < registrationLimit event
       ∧ Registration_findByEventUser eid (user_id user) db = None
       ∧ resp = Created reg
       ∧ reg = mkRegistration eid (user_id user) ("FEL-" +:+ rnd)
                 (if bool_decide (registrationFee event > 0)
                  then pending else not_required)
                 ""
                 (if bool_decide (registrationFee event = 0)
                  then toDataURL ("FEL-" +:+ rnd) else "")
                 submitted ∅ (registrationFee event) false None
       ∧ ¬ violatesUnique reg db
       ∧ db' = set_registrations (registrations db ++ [reg])
                 (Event_incCount eid 1 db)).
Proof.
  unfold registerNormal. unfold_handler.
  destruct (events db !! eid) as [event|] eqn:Hev; [|intros [= <- <-]; left; eauto].
  destruct (registrationOpen event); simpl; [|intros [= <- <-]; left; eauto].
  case_bool_decide; simpl; [intros [= <- <-]; left; eauto|].
  destruct (checkEligibility event user); [intros [= <- <-]; left; eauto|].
  destruct (deadlinePassed event now); simpl; [intros [= <- <-]; left; eauto|].
  case_bool_decide as Hdup; simpl; [intros [= <- <-]; left; eauto|].
  unfold Event_reserveSlot. rewrite Hev.
  case_bool_decide as Hcap; simpl; [|intros [= <- <-]; left; eauto].
  destruct (missingRequired (customForm event) submitted) as [field|] eqn:Hmiss.
  { intros [= <- <-]. right; left. exists event, field. done. }
  unfold Registration_create.
  destruct fault.
  { intros [= <- <-]. left. split; [|eauto].
    rewrite !Event_incCount_adjust, adjust_adjust. by apply adjust_zero. }
  case_bool_decide as Hviol.
  { intros [= <- <-]. left. split; [|eauto].
    rewrite !Event_incCount_adjust, adjust_adjust. by apply adjust_zero. }
  intros [= <- <-]. right; right. eexists event, _. split_and!; try done.
  destruct (Registration_findByEventUser eid (user_id user) db) eqn:Hf; [|done].
  destruct Hdup. by eexists.
Qed.

(** A merchandise registration either changes nothing or writes the
    registration, takes one slot, and takes one unit of exactly the
    variants the registration records. *)
Lemma registerMerch_effect eid user selections now rnd fault db resp db' :
  wf_events db →
  runHandler (registerMerch toDataURL eid user selections now rnd fault) db
    = (resp, db') →
  (db' = db ∧ ∃ c m, resp = Message c m)
  ∨ (∃ event reg,
       events db !! eid = Some event
       ∧ eventType event = merchandise
       ∧ registrationCount event < registrationLimit event
       ∧ Registration_findByEventUser eid (user_id user) db = None
       ∧ resp = Created reg
       ∧ reg = mkRegistration eid (user_id user) ("FEL-" +:+ rnd)
                 (if bool_decide (amountPaid reg > 0) then pending else not_required)
                 ""
                 (if bool_decide (amountPaid reg > 0)
                  then "" else toDataURL ("FEL-" +:+ rnd))
                 ∅ (merchandiseSelections reg)
                 (registrationFee event + selectionTotal (merchandiseSelections reg))
                 false None
       ∧ map_Forall (recorded event selections) (merchandiseSelections reg)
       ∧ ¬ violatesUnique reg db
       ∧ db' = set_registrations (registrations db ++ [reg])
                 (adjust eid 1
                    (λ i o, - claimShift (merchandiseSelections reg) i o) db)).
Proof.
  intros Hwf. unfold registerMerch. unfold_handler.
  destruct (events db !! eid) as [event|] eqn:Hev; [|intros [= <- <-]; left; eauto].
  destruct (registrationOpen event); simpl; [|intros [= <- <-]; left; eauto].
  case_bool_decide as Hty; simpl; [intros [= <- <-]; left; eauto|].
  destruct (checkEligibility event user); [intros [= <- <-]; left; eauto|].
  destruct (deadlinePassed event now); simpl; [intros [= <- <-]; left; eauto|].
  case_bool_decide as Hdup; simpl; [intros [= <- <-]; left; eauto|].
  destruct (soldOutRequired (merchandiseItems event)); [intros [= <- <-]; left; eauto|].
  unfold Event_reserveSlot. rewrite Hev.
  case_bool_decide as Hcap; simpl; [|intros [= <- <-]; left; eauto].
  pose proof (reserveItems_effect eid selections (merchandiseItems event)
                ∅ 0 [] (Event_incCount eid 1 db)) as Hloop.
  rewrite Event_incCount_adjust in *.
  assert (Hmsg := reserveItems_selections (recorded event selections) eid
                    selections (merchandiseItems event)).
  assert (Hrec : ∀ it op, it ∈ merchandiseItems event → op ∈ options it →
            selections !! item_id it = Some (opt_id op) → opt_id op ≠ "" →
            recorded event selections (item_id it)
              (mkSelection (itemName it) (opt_id op) (opt_label op) (price op))).
  { intros it op Hit Hop Hs Hne. by exists it, op. }
  specialize (Hmsg Hrec ∅ 0 [] (adjust eid 1 (λ _ _ : string, 0) db)
                (map_Forall_empty _)).
  clear Hrec.
  destruct (reserveItems _ _ _ _ _ _ _) as [[r|[[processed total] decs]] db1].
  { intros [= <- <-]. left. split; [|done].
    rewrite Hloop; [| by apply wf_events_adjust | by apply (Hwf eid event) | done].
    rewrite adjust_adjust. by apply adjust_zero. }
  destruct Hloop as (-> & Hb & Ht);
    [by apply wf_events_adjust | by apply (Hwf eid event) | done |].
  unfold selectionTotal in Ht at 1. rewrite map_fold_empty in Ht.
  assert (Hback :
    rollbackStock incStockFiltered eid decs
      (Event_incCount eid (-1)
         (adjust eid 0 (λ i o, claimShift ∅ i o - claimShift processed i o)
            (adjust eid 1 (λ _ _ : string, 0) db))) = db).
  { rewrite rollbackStock_adjust, Event_incCount_adjust;
      [|by right|by rewrite Event_incCount_adjust; repeat apply wf_events_adjust].
    rewrite !adjust_adjust. apply adjust_zero. intros i o. rewrite Hb.
    unfold batchShift. simpl. lia. }
  unfold Registration_create.
  destruct fault.
  { intros [= <- <-]. left. split; [exact Hback|eauto]. }
  case_bool_decide as Hviol.
  { intros [= <- <-]. left. split; [exact Hback|eauto]. }
  intros [= <- <-]. right. eexists event, _. simpl.
  assert (total = selectionTotal processed) as -> by lia.
  split_and!; try done.
  - destruct (Registration_findByEventUser eid (user_id user) db) eqn:Hf; [|done].
    destruct Hdup. by eexists.
  - rewrite adjust_adjust. f_equal. apply adjust_ext; [done|]. intros i o.
    unfold claimShift at 1. rewrite lookup_empty. simpl. lia.
Qed.

End Register.

(** ** Effect of the payment handlers *)

Lemma restoreShift_insert m i sel i' o' :
  m !! i = None →
  restoreShift (<[i := sel]> m) i' o'
  = restoreShift m i' o'
    + (if bool_decide (optionId sel = "") then 0
       else unitShift i (optionId sel) 1 i' o').
Proof.
  intros Hnone. unfold restoreShift, unitShift.
  destruct (decide (i' = i)) as [->|Hne].
  - rewrite lookup_insert_eq, Hnone. simpl.
    rewrite (bool_decide_eq_false_2 (o' ≠ "" ∧ None = Some o')) by (by intros [_ ?]).
    destruct (decide (optionId sel = o')) as [<-|Hne].
    + rewrite (bool_decide_eq_true_2 (i = i ∧ _)) by done.
      destruct (decide (optionId sel = "")) as [He|He].
      * rewrite (bool_decide_eq_true_2 _ He).
        by rewrite bool_decide_eq_false_2 by (by intros [? _]).
      * rewrite (bool_decide_eq_false_2 _ He). by rewrite bool_decide_eq_true_2.
    + rewrite (bool_decide_eq_false_2 (i = i ∧ _)) by (by intros [_ ?]).
      rewrite bool_decide_eq_false_2 by (intros [_ [=]]; done).
      by case_bool_decide.
  - rewrite lookup_insert_ne by done.
    rewrite (bool_decide_eq_false_2 (i' = i ∧ _)) by (by intros [? _]).
    repeat case_bool_decide; lia.
Qed.

(** The reject loop gives one unit back to exactly the variants that the
    selection map records. *)
Lemma restoreSelections_shift sels items :
  wf_items items →
  restoreSelections sels items = shiftStock (restoreShift sels) items.
Proof.
  intros Hwf. unfold restoreSelections.
  apply (map_fold_weak_ind (λ r m, r = shiftStock (restoreShift m) items)).
  - symmetry. apply shiftStock_zero. intros i o. unfold restoreShift.
    rewrite lookup_empty. simpl. by rewrite bool_decide_eq_false_2 by (by intros [_ ?]).
  - intros i sel m r Hnone ->. case_bool_decide as Hempty.
    + apply shiftStock_ext. intros i' o'. rewrite restoreShift_insert by done.
      rewrite bool_decide_eq_true_2 by done. lia.
    + rewrite incStockFound_shift by by apply wf_items_shift.
      rewrite shiftStock_compose. apply shiftStock_ext. intros i' o'.
      rewrite restoreShift_insert by done.
      rewrite bool_decide_eq_false_2 by done. lia.
Qed.

Section Payment.

Variable toDataURL : string → string.
Variables (uid eid : string) (regId : nat) (db : Db) (event : Event)
          (registration : Registration).
Hypothesis Hevent : events db !! eid = Some event.
Hypothesis Howner : organizers db !! uid = Some (organizerId event).
Hypothesis Hreg : registrations db !! regId = Some registration.

Lemma approve_effect :
  runHandler (payment toDataURL uid eid regId "approve") db =
    if bool_decide (paymentStatus registration = approved)
    then (Message 400 "Already approved", db)
    else
      let registration' :=
        set_payment approved
          (if bool_decide (qrCode registration = "")
           then toDataURL (ticketId registration) else qrCode registration)
          registration in
      (MessageReg "Payment approved" registration',
       Registration_save regId registration' db).
Proof.
  unfold payment. unfold_handler. rewrite Hevent, Howner.
  rewrite bool_decide_eq_true_2 by done. rewrite Hreg.
  rewrite (bool_decide_eq_true_2 ("approve" = "approve")) by done.
  by case_bool_decide.
Qed.

Lemma reject_effect :
  wf_events db →
  runHandler (payment toDataURL uid eid regId "reject") db =
    if bool_decide (paymentStatus registration = rejected)
    then (Message 400 "Already rejected", db)
    else
      let registration' := set_payment rejected "" registration in
      (MessageReg "Payment rejectd" registration',
       Registration_save regId registration'
         (adjust eid (-1)
            (if bool_decide (eventType event = merchandise)
             then restoreShift (merchandiseSelections registration)
             else λ _ _, 0)
            db)).
Proof.
  intros Hwf. unfold payment. unfold_handler. rewrite Hevent, Howner.
  rewrite bool_decide_eq_true_2 by done. rewrite Hreg.
  rewrite (bool_decide_eq_false_2 ("reject" = "approve")) by done.
  rewrite (bool_decide_eq_true_2 ("reject" = "reject")) by done.
  case_bool_decide as Hst; [done|]. simpl.
  rewrite lookup_alter_eq, Hevent. simpl.
  case_bool_decide as Hty; simpl.
  - f_equal. unfold Registration_save, set_registrations, adjust, set_events.
    simpl. f_equal. apply map_eq. intros k.
    rewrite lookup_insert, !lookup_alter. case_decide as Hk; [|done].
    subst k. rewrite Hevent. simpl. f_equal.
    rewrite restoreSelections_shift by by apply (Hwf eid event).
    unfold incCount, set_registrationCount, set_merchandiseItems. simpl.
    done.
  - f_equal. unfold Registration_save, set_registrations, adjust, set_events,
      Event_incCount, set_events. simpl. f_equal. apply alter_ext. intros e _.
    by rewrite shiftStock_zero, set_merchandiseItems_same.
Qed.

End Payment.

(** ** Counter bookkeeping without assumptions on identifiers *)

Lemma counterMoved_refl eid db : counterMoved eid 0 db db.
Proof.
  split_and!; [done..|]. exists id. split; [|intros; simpl; split; [lia|done]].
  symmetry. by apply alter_id.
Qed.

Lemma counterMoved_trans eid c1 c2 db1 db2 db3 :
  counterMoved eid c1 db1 db2 → counterMoved eid c2 db2 db3 →
  counterMoved eid (c1 + c2) db1 db3.
Proof.
  intros (Hr1 & Ho1 & g1 & He1 & Hg1) (Hr2 & Ho2 & g2 & He2 & Hg2).
  split_and!; [congruence..|]. exists (g2 ∘ g1). split.
  - by rewrite He2, He1, alter_alter_eq.
  - intros e. simpl. destruct (Hg1 e) as [Hc1 Hl1]. destruct (Hg2 (g1 e)) as [Hc2 Hl2].
    split; [lia|congruence].
Qed.

Lemma counterMoved_incCount eid d db : counterMoved eid d db (Event_incCount eid d db).
Proof. split_and!; [done..|]. by exists (incCount d). Qed.

Lemma counterMoved_alterItems eid f db :
  counterMoved eid 0 db (Event_alterItems eid f db).
Proof.
  split_and!; [done..|]. eexists. split; [done|]. intros e. simpl. split; [lia|done].
Qed.

Lemma counterMoved_rollbackStock inc eid decs db :
  counterMoved eid 0 db (rollbackStock inc eid decs db).
Proof.
  revert db. induction decs as [|d decs IH]; intros db.
  - apply counterMoved_refl.
  - unfold rollbackStock in *. simpl.
    apply (counterMoved_trans eid 0 0 _ _ _
             (counterMoved_alterItems eid (inc d.1 d.2 1) db)).
    apply IH.
Qed.

Lemma counterMoved_reserveStock eid i o db db1 :
  Event_reserveStock eid i o db = Some db1 → counterMoved eid 0 db db1.
Proof.
  unfold Event_reserveStock. destruct (events db !! eid); [|done].
  destruct (stockFilter i o e); [|done]. intros [= <-].
  apply counterMoved_alterItems.
Qed.

(** The selection loop never touches the ledger; it leaves the counter as
    it found it when it completes, and one lower when it answers early. *)
Lemma reserveItems_frame eid sels items :
  ∀ processed total decs db,
    match reserveItems eid sels items processed total decs db with
    | (inl _, db') => counterMoved eid (-1) db db'
    | (inr _, db') => counterMoved eid 0 db db'
    end.
Proof.
  induction items as [|merchItem rest IH]; intros processed total decs db.
  - apply counterMoved_refl.
  - assert (Hfail : ∀ inc,
              counterMoved eid (-1) db
                (Event_incCount eid (-1) (rollbackStock inc eid decs db))).
    { intros inc.
      apply (counterMoved_trans eid 0 (-1) _ _ _
               (counterMoved_rollbackStock inc eid decs db)).
      apply counterMoved_incCount. }
    simpl.
    destruct (required merchItem && negb (truthy (sels !! item_id merchItem))).
    { unfold_handler. apply Hfail. }
    destruct (truthy (sels !! item_id merchItem)); [|by apply IH].
    destruct (find _ (options merchItem)) as [option|].
    2:{ unfold_handler. apply Hfail. }
    unfold mbind, Handler_bind, tryUpdate.
    destruct (Event_reserveStock eid (item_id merchItem) (opt_id option) db)
      as [db1|] eqn:Hres; simpl.
    2:{ unfold_handler. apply Hfail. }
    apply counterMoved_reserveStock in Hres.
    match goal with
    | |- context [reserveItems eid sels rest ?p ?t ?d db1] =>
        specialize (IH p t d db1);
        destruct (reserveItems eid sels rest p t d db1) as [[r|res] db']
    end.
    + apply (counterMoved_trans eid 0 (-1) _ _ _ Hres IH).
    + apply (counterMoved_trans eid 0 0 _ _ _ Hres IH).
Qed.

(** ** What a single request may change *)

Lemma LedgerChange_ext req db db1 db2 :
  registrations db2 = registrations db1 →
  LedgerChange req db db1 → LedgerChange req db db2.
Proof.
  intros Heq [Hs | i r r' Hi Hu Hid Hq | reg Ha Hv Hw Hp Hs].
  - apply ledger_same. by rewrite Heq.
  - eapply ledger_update; [exact Hi|by rewrite Heq|done|done].
  - eapply ledger_create; [by rewrite Heq|done..].
Qed.

Lemma Frame_ledger_only req db db' :
  events db' = events db → organizers db' = organizers db →
  LedgerChange req db db' → Frame req db db'.
Proof.
  intros He Ho Hl. split_and!; [done..|].
  exists "", 0, id. split_and!; [|intros; simpl; split; [lia|done]|by left].
  rewrite He. symmetry. by apply alter_id.
Qed.

Lemma Frame_refl req db : Frame req db db.
Proof. apply Frame_ledger_only; [done..|]. by apply ledger_same. Qed.

Lemma Frame_counter req eid c db db' :
  counterMoved eid c db db' →
  (c = 0
   ∨ (c = 1 ∧ registerTarget req = Some eid
      ∧ ∃ e, events db !! eid = Some e ∧ registrationCount e < registrationLimit e)
   ∨ (c = -1 ∧ isReject req)) →
  Frame req db db'.
Proof.
  intros (Hr & Ho & g & He & Hg) Hc. split_and!; [done|by apply ledger_same|].
  by exists eid, c, g.
Qed.

Lemma list_find_lookup {A} (P : A → Prop) `{∀ x, Decision (P x)} (l : list A) i x :
  list_find P l = Some (i, x) → l !! i = Some x ∧ P x.
Proof. intros Hf. apply list_find_Some in Hf as (Hl & HP & _). done. Qed.

Section Frames.

Variable toDataURL : string → string.

Lemma registerNormal_frame eid user submitted now rnd fault db :
  Frame (RegisterNormal eid user submitted now rnd fault) db
    (runHandler (registerNormal toDataURL eid user submitted now rnd fault) db).2.
Proof.
  destruct (runHandler _ db) as [resp db'] eqn:Hrun. simpl.
  apply registerNormal_effect in Hrun
    as [[-> _] | [(event & field & Hev & Hcap & _ & _ & ->)
                 | (event & reg & Hev & Hcap & _ & _ & Hreg & Huniq & ->)]].
  - apply Frame_refl.
  - apply (Frame_counter _ eid 1); [apply counterMoved_incCount|].
    right; left. split_and!; [done..|]. by exists event.
  - split_and!; [done| |].
    + apply (ledger_create _ _ _ reg); [done|done| | |].
      * by rewrite Hreg.
      * rewrite Hreg. simpl. by case_bool_decide.
      * rewrite Hreg. simpl. apply map_Forall_empty.
    + exists eid, 1, (incCount 1). split_and!; [done|done|].
      right; left. split_and!; [done..|]. by exists event.
Qed.

Lemma registerMerch_frame eid user selections now rnd fault db :
  Frame (RegisterMerch eid user selections now rnd fault) db
    (runHandler (registerMerch toDataURL eid user selections now rnd fault) db).2.
Proof.
  unfold registerMerch. unfold_handler.
  destruct (events db !! eid) as [event|] eqn:Hev; [|apply Frame_refl].
  destruct (registrationOpen event); simpl; [|apply Frame_refl].
  case_bool_decide as Hty; simpl; [apply Frame_refl|].
  destruct (checkEligibility event user); [apply Frame_refl|].
  destruct (deadlinePassed event now); simpl; [apply Frame_refl|].
  case_bool_decide as Hdup; simpl; [apply Frame_refl|].
  destruct (soldOutRequired (merchandiseItems event)); [apply Frame_refl|].
  unfold Event_reserveSlot. rewrite Hev.
  case_bool_decide as Hcap; simpl; [|apply Frame_refl].
  pose proof (counterMoved_incCount eid 1 db) as Hslot.
  pose proof (reserveItems_frame eid selections (merchandiseItems event)
                ∅ 0 [] (Event_incCount eid 1 db)) as Hloop.
  pose proof (reserveItems_selections (λ _ sel, optionId sel ≠ "") eid selections
                (merchandiseItems event) (λ _ _ _ _ _ Hne, Hne) ∅ 0 []
                (Event_incCount eid 1 db) (map_Forall_empty _)) as Hsel.
  destruct (reserveItems _ _ _ _ _ _ _) as [[r|[[processed total] decs]] db1].
  { simpl. apply (Frame_counter _ eid (1 + -1)); [|by left].
    by apply (counterMoved_trans _ _ _ _ _ _ Hslot). }
  pose proof (counterMoved_trans _ _ _ _ _ _ Hslot Hloop) as Hres.
  assert (Hback : counterMoved eid (1 + 0 + (-1 + 0)) db
            (rollbackStock incStockFiltered eid decs (Event_incCount eid (-1) db1))).
  { apply (counterMoved_trans _ _ _ _ _ _ Hres).
    apply (counterMoved_trans _ _ _ _ _ _ (counterMoved_incCount eid (-1) db1)).
    apply counterMoved_rollbackStock. }
  unfold Registration_create.
  destruct fault; simpl.
  { apply (Frame_counter _ eid _ _ _ Hback). by left. }
  case_bool_decide as Hviol; simpl.
  { apply (Frame_counter _ eid _ _ _ Hback). by left. }
  destruct Hres as (Hr & Ho & g & Hg & Hgc).
  split_and!; [done| |].
  - eapply ledger_create; simpl; [by rewrite Hr| |done| |exact Hsel].
    + unfold violatesUnique in *. by rewrite <- Hr.
    + simpl. by case_bool_decide.
  - exists eid, (1 + 0), g. split_and!; [done|done|].
    right; left. split_and!; [done..|]. by exists event.
Qed.

Lemma uploadPaymentProof_frame eid uid proof db :
  Frame (UploadPaymentProof eid uid proof) db
    (runHandler (uploadPaymentProof eid uid proof) db).2.
Proof.
  unfold uploadPaymentProof. unfold_handler.
  case_bool_decide; simpl; [apply Frame_refl|].
  destruct (Registration_findByEventUser eid uid db) as [[i r]|] eqn:Hf;
    [|apply Frame_refl].
  apply list_find_lookup in Hf as [Hi _].
  destruct (bool_decide (paymentStatus r ≠ pending)
            && bool_decide (paymentStatus r ≠ rejected)) eqn:Hst; simpl;
    [apply Frame_refl|].
  apply Frame_ledger_only; [done..|].
  eapply ledger_update; [exact Hi|done|done|]. simpl. split; [|done].
  apply andb_false_iff in Hst as [Hst|Hst]; apply bool_decide_eq_false in Hst.
  - destruct (decide (paymentStatus r = pending)) as [Hp|Hp]; [|by destruct Hst].
    rewrite Hp. done.
  - destruct (decide (paymentStatus r = rejected)) as [Hp|Hp]; [|by destruct Hst].
    by rewrite (bool_decide_eq_true_2 _ Hp).
Qed.

Lemma payment_frame uid eid regId action db :
  Frame (Payment uid eid regId action) db
    (runHandler (payment toDataURL uid eid regId action) db).2.
Proof.
  unfold payment. unfold_handler.
  destruct (events db !! eid) as [event|] eqn:Hev; [|apply Frame_refl].
  destruct (organizers db !! uid) as [oid|]; [|apply Frame_refl].
  case_bool_decide; [|apply Frame_refl].
  destruct (registrations db !! regId) as [r|] eqn:Hr; [|apply Frame_refl].
  case_bool_decide as Happrove.
  { case_bool_decide; simpl; [apply Frame_refl|].
    apply Frame_ledger_only; [done..|].
    eapply ledger_update; [exact Hr|done|done|]. simpl. split; [done|]. by left. }
  case_bool_decide as Hreject; [|apply Frame_refl].
  case_bool_decide as Hst; simpl; [apply Frame_refl|].
  rewrite lookup_alter_eq, Hev. simpl.
  assert (Hl : LedgerChange (Payment uid eid regId action) db
            (Registration_save regId (set_payment rejected "" r) db)).
  { eapply ledger_update; [exact Hr|done|done|]. simpl. split; [done|]. by right. }
  case_bool_decide; simpl.
  - split_and!; [done|by eapply LedgerChange_ext; [|exact Hl]|].
    exists eid, (-1),
      (λ e, set_merchandiseItems
              (restoreSelections (merchandiseSelections r)
                 (merchandiseItems (incCount (-1) e))) (incCount (-1) e)).
    split_and!; [|done|by right; right].
    simpl. apply map_eq. intros k. rewrite lookup_insert, !lookup_alter.
    case_decide; [|done]. subst k. by rewrite Hev.
  - split_and!; [done|by eapply LedgerChange_ext; [|exact Hl]|].
    exists eid, (-1), (incCount (-1)). split_and!; [done|done|by right; right].
Qed.

Lemma scan_frame uid eid ticket now db :
  Frame (Scan uid eid ticket now) db (runHandler (scan uid eid ticket now) db).2.
Proof.
  unfold scan. unfold_handler.
  destruct (events db !! eid) as [event|] eqn:Hev; [|apply Frame_refl].
  destruct (organizers db !! uid) as [oid|]; [|apply Frame_refl].
  case_bool_decide; [|apply Frame_refl].
  case_bool_decide; simpl; [apply Frame_refl|].
  case_bool_decide; simpl; [apply Frame_refl|].
  destruct (Registration_findByTicket eid ticket db) as [[i r]|] eqn:Hf;
    [|apply Frame_refl].
  apply list_find_lookup in Hf as [Hi _].
  destruct (bool_decide (paymentStatus r = pending)
            || bool_decide (paymentStatus r = rejected)); simpl;
    [apply Frame_refl|].
  destruct (attended r); simpl; [apply Frame_refl|].
  apply Frame_ledger_only; [done..|].
  eapply ledger_update; [exact Hi|done|done|]. done.
Qed.

Lemma manualCheckin_frame uid eid regId now db :
  Frame (ManualCheckin uid eid regId now) db
    (runHandler (manualCheckin uid eid regId now) db).2.
Proof.
  unfold manualCheckin. unfold_handler.
  destruct (events db !! eid) as [event|] eqn:Hev; [|apply Frame_refl].
  destruct (organizers db !! uid) as [oid|]; [|apply Frame_refl].
  case_bool_decide; [|apply Frame_refl].
  case_bool_decide; simpl; [apply Frame_refl|].
  destruct (registrations db !! regId) as [r|] eqn:Hr; [|apply Frame_refl].
  destruct (bool_decide (paymentStatus r = pending)
            || bool_decide (paymentStatus r = rejected)); simpl;
    [apply Frame_refl|].
  apply Frame_ledger_only; [done..|].
  eapply ledger_update; [exact Hr|done|done|]. done.
Qed.

Lemma handle_frame db req : Frame req db (handle toDataURL db req).2.
Proof.
  destruct req; simpl.
  - apply registerNormal_frame.
  - apply registerMerch_frame.
  - apply uploadPaymentProof_frame.
  - apply payment_frame.
  - apply scan_frame.
  - apply manualCheckin_frame.
Qed.

End Frames.

(** ** Claims held by registrations *)

Lemma claimsOn_append db eid i o reg :
  claimsOn (set_registrations (registrations db ++ [reg]) db) eid i o
  = claimsOn db eid i o + claimBit eid i o reg.
Proof.
  unfold claimsOn, claimBit. simpl. rewrite filter_app, length_app.
  rewrite filter_cons, filter_nil. case_decide; simpl; lia.
Qed.

Lemma claimsOn_save db eid i o k r r' :
  registrations db !! k = Some r →
  claimsOn (Registration_save k r' db) eid i o
  = claimsOn db eid i o - claimBit eid i o r + claimBit eid i o r'.
Proof.
  intros Hk. unfold claimsOn, claimBit. simpl.
  pose proof (lookup_lt_Some _ _ _ Hk) as Hlt.
  rewrite insert_take_drop by done.
  rewrite <- (take_drop_middle _ _ _ Hk) at 3.
  rewrite !filter_app, !length_app, !filter_cons.
  repeat case_decide; simpl; rewrite ?length_app; simpl; lia.
Qed.

Lemma claimBit_same eid i o r r' :
  sameIdentity r r' →
  (paymentStatus r = rejected ↔ paymentStatus r' = rejected) →
  claimBit eid i o r' = claimBit eid i o r.
Proof.
  intros (He & _ & _ & Hs) Hst. unfold claimBit.
  destruct (decide (holdsClaim eid i o r')) as [H|H],
           (decide (holdsClaim eid i o r)) as [H'|H']; try done;
    exfalso; unfold holdsClaim in *; rewrite He, Hs in *; tauto.
Qed.

(** ** Exact effect of the remaining handlers *)

Lemma uploadPaymentProof_effect eid uid proof db :
  runHandler (uploadPaymentProof eid uid proof) db =
    if bool_decide (proof = "")
    then (Message 400 "Payment proof image required", db)
    else match Registration_findByEventUser eid uid db with
         | None => (Message 404 "Not registered", db)
         | Some (i, registration) =>
             if bool_decide (paymentStatus registration ≠ pending)
                && bool_decide (paymentStatus registration ≠ rejected)
             then (Message 400 "Payment proof cannot be uploaded for this registration",
                   db)
             else
               let registration' :=
                 set_proof proof
                   (if bool_decide (paymentStatus registration = rejected)
                    then pending else paymentStatus registration)
                   registration in
               (MessageReg "Payment proof uploaded" registration',
                Registration_save i registration' db)
         end.
Proof.
  unfold uploadPaymentProof. unfold_handler.
  case_bool_decide; simpl; [done|].
  destruct (Registration_findByEventUser eid uid db) as [[i r]|]; [|done].
  by destruct (bool_decide (paymentStatus r ≠ pending)
               && bool_decide (paymentStatus r ≠ rejected)).
Qed.

(** Scanning a ticket and the manual override change at most the attendance
    fields of one registration. *)
Lemma scan_effect uid eid ticket now db :
  let db' := (runHandler (scan uid eid ticket now) db).2 in
  db' = db
  ∨ ∃ k r, registrations db !! k = Some r
           ∧ db' = Registration_save k (set_attended true (Some now) r) db.
Proof.
  unfold scan. unfold_handler.
  destruct (events db !! eid) as [event|]; [|by left].
  destruct (organizers db !! uid) as [oid|]; [|by left].
  case_bool_decide; [|by left].
  case_bool_decide; simpl; [by left|].
  case_bool_decide; simpl; [by left|].
  destruct (Registration_findByTicket eid ticket db) as [[k r]|] eqn:Hf; [|by left].
  apply list_find_lookup in Hf as [Hk _].
  destruct (bool_decide (paymentStatus r = pending)
            || bool_decide (paymentStatus r = rejected)); simpl; [by left|].
  destruct (attended r); simpl; [by left|]. right. by exists k, r.
Qed.

Lemma manualCheckin_effect uid eid regId now db :
  let db' := (runHandler (manualCheckin uid eid regId now) db).2 in
  db' = db
  ∨ ∃ r, registrations db !! regId = Some r
         ∧ db' = Registration_save regId
                   (set_attended (negb (attended r))
                      (if negb (attended r) then Some now else None) r) db.
Proof.
  unfold manualCheckin. unfold_handler.
  destruct (events db !! eid) as [event|]; [|by left].
  destruct (organizers db !! uid) as [oid|]; [|by left].
  case_bool_decide; [|by left].
  case_bool_decide; simpl; [by left|].
  destruct (registrations db !! regId) as [r|] eqn:Hr; [|by left].
  destruct (bool_decide (paymentStatus r = pending)
            || bool_decide (paymentStatus r = rejected)); simpl; [by left|].
  right. by exists r.
Qed.

(** A payment request that is refused before the action is examined, or
    whose action is neither "approve" nor "reject", changes nothing. *)
Lemma payment_refused toDataURL uid eid regId action db :
  (∀ event, events db !! eid = Some event →
            organizers db !! uid = Some (organizerId event) →
            is_Some (registrations db !! regId) →
            action ≠ "approve" ∧ action ≠ "reject") →
  (runHandler (payment toDataURL uid eid regId action) db).2 = db.
Proof.
  intros H. unfold payment. unfold_handler.
  destruct (events db !! eid) as [event|]; [|done].
  destruct (organizers db !! uid) as [oid|]; [|done].
  case_bool_decide as Ho; [|done]. subst oid.
  destruct (registrations db !! regId) as [r|]; [|done].
  destruct (H event) as [Ha Hr]; [done..|].
  by rewrite !bool_decide_eq_false_2 by done.
Qed.

(** ** Conservation of stock and claims *)

Lemma typeOf_adjust eid0 c δ db eid :
  typeOf (adjust eid0 c δ db) eid = typeOf db eid.
Proof.
  unfold typeOf. rewrite events_adjust. case_decide; [|done].
  by destruct (events db !! eid).
Qed.

Lemma committedPlusStock_ext db1 db2 eid i o :
  events db1 = events db2 → registrations db1 = registrations db2 →
  committedPlusStock db1 eid i o = committedPlusStock db2 eid i o.
Proof.
  intros He Hr. unfold committedPlusStock, stockOf, claimsOn. by rewrite He, Hr.
Qed.

Lemma committedPlusStock_adjust eid0 c δ db eid i o :
  committedPlusStock (adjust eid0 c δ db) eid i o
  = (λ s, s + (if decide (eid0 = eid) then δ i o else 0))
      <$> committedPlusStock db eid i o.
Proof.
  unfold committedPlusStock. rewrite stockOf_adjust.
  assert (claimsOn (adjust eid0 c δ db) eid i o = claimsOn db eid i o) as -> by done.
  case_decide; destruct (stockOf db eid i o); simpl; f_equal; lia.
Qed.

Lemma committedPlusStock_append db reg eid i o :
  committedPlusStock (set_registrations (registrations db ++ [reg]) db) eid i o
  = (λ s, s + claimBit eid i o reg) <$> committedPlusStock db eid i o.
Proof.
  unfold committedPlusStock. rewrite claimsOn_append.
  assert (stockOf (set_registrations (registrations db ++ [reg]) db) eid i o
          = stockOf db eid i o) as -> by done.
  destruct (stockOf db eid i o); simpl; f_equal; lia.
Qed.

Lemma committedPlusStock_save db k r r' eid i o :
  registrations db !! k = Some r →
  committedPlusStock (Registration_save k r' db) eid i o
  = (λ s, s - claimBit eid i o r + claimBit eid i o r')
      <$> committedPlusStock db eid i o.
Proof.
  intros Hk. unfold committedPlusStock. rewrite (claimsOn_save _ _ _ _ _ r) by done.
  assert (stockOf (Registration_save k r' db) eid i o = stockOf db eid i o) as ->
    by done.
  destruct (stockOf db eid i o); simpl; f_equal; lia.
Qed.

Lemma fmap_add_zero (x : option Z) (f : Z → Z) : (∀ s, f s = s) → f <$> x = x.
Proof. intros H. destruct x; simpl; [by rewrite H|done]. Qed.

Section Conservation.

Variable toDataURL : string → string.
Variables eid i o : string.

Lemma Maintains_refl db :
  wf_events db → typeOf db eid = Some merchandise → Maintains eid i o db db.
Proof. by intros; split_and!. Qed.

Lemma Maintains_save db k r r' :
  wf_events db → typeOf db eid = Some merchandise →
  registrations db !! k = Some r →
  claimBit eid i o r' = claimBit eid i o r →
  Maintains eid i o db (Registration_save k r' db).
Proof.
  intros Hwf Hty Hk Hbit. split_and!; [done..|].
  rewrite (committedPlusStock_save _ _ r) by done.
  apply fmap_add_zero. intros; lia.
Qed.

Lemma registerNormal_conserves eid0 user submitted now rnd fault db :
  wf_events db → typeOf db eid = Some merchandise →
  Maintains eid i o db
    (runHandler (registerNormal toDataURL eid0 user submitted now rnd fault) db).2.
Proof.
  intros Hwf Hty.
  destruct (runHandler _ db) as [resp db'] eqn:Hrun. simpl.
  apply registerNormal_effect in Hrun
    as [[-> _] | [(event & field & _ & _ & _ & _ & ->)
                 | (event & reg & _ & _ & _ & _ & Hreg & _ & ->)]].
  - by apply Maintains_refl.
  - rewrite Event_incCount_adjust. split_and!.
    + by apply wf_events_adjust.
    + by rewrite typeOf_adjust.
    + rewrite committedPlusStock_adjust. apply fmap_add_zero.
      intros. destruct (decide (eid0 = eid)); lia.
  - rewrite Event_incCount_adjust. split_and!.
    + exact (wf_events_adjust eid0 1 (λ _ _, 0) db Hwf).
    + rewrite <- (typeOf_adjust eid0 1 (λ _ _, 0) db eid) in Hty. exact Hty.
    + rewrite (committedPlusStock_append (adjust eid0 1 (λ _ _, 0) db) reg).
      rewrite committedPlusStock_adjust, <- option_fmap_compose.
      apply fmap_add_zero. intros s. simpl.
      assert (claimBit eid i o reg = 0) as ->.
      { unfold claimBit.
        destruct (decide (holdsClaim eid i o reg)) as [Hc|Hc]; [|done].
        destruct Hc as (_ & _ & Hc). rewrite Hreg in Hc. simpl in Hc.
        by rewrite lookup_empty in Hc. }
      destruct (decide (eid0 = eid)); lia.
Qed.

Lemma registerMerch_conserves eid0 user selections now rnd fault db :
  wf_events db → typeOf db eid = Some merchandise →
  Maintains eid i o db
    (runHandler (registerMerch toDataURL eid0 user selections now rnd fault) db).2.
Proof.
  intros Hwf Hty.
  destruct (runHandler _ db) as [resp db'] eqn:Hrun. simpl.
  destruct (registerMerch_effect _ _ _ _ _ _ _ _ _ _ Hwf Hrun)
    as [[-> _] | (event & reg & _ & _ & _ & _ & _ & Hreg & _ & _ & ->)].
  - by apply Maintains_refl.
  - set (δ := λ i o, - claimShift (merchandiseSelections reg) i o).
    split_and!.
    + exact (wf_events_adjust eid0 1 δ db Hwf).
    + rewrite <- (typeOf_adjust eid0 1 δ db eid) in Hty. exact Hty.
    + rewrite (committedPlusStock_append (adjust eid0 1 δ db) reg).
      rewrite committedPlusStock_adjust, <- option_fmap_compose.
      apply fmap_add_zero. intros s. simpl. unfold δ, claimBit, claimShift.
      assert (eventId reg = eid0) as Hid by (by rewrite Hreg).
      assert (paymentStatus reg ≠ rejected) as Hst.
      { rewrite Hreg. simpl. by case_bool_decide. }
      clear Hreg.
      destruct (decide (holdsClaim eid i o reg)) as [Hc|Hc];
        unfold holdsClaim in Hc; rewrite Hid in Hc;
        destruct (decide (eid0 = eid)); try case_bool_decide; try lia; exfalso; tauto.
Qed.

Lemma uploadPaymentProof_conserves eid0 uid proof db :
  wf_events db → typeOf db eid = Some merchandise →
  rejectionFinal db (UploadPaymentProof eid0 uid proof) →
  Maintains eid i o db (runHandler (uploadPaymentProof eid0 uid proof) db).2.
Proof.
  intros Hwf Hty Hfinal. rewrite uploadPaymentProof_effect.
  case_bool_decide; [by apply Maintains_refl|].
  destruct (Registration_findByEventUser eid0 uid db) as [[k r]|] eqn:Hf;
    [|by apply Maintains_refl].
  specialize (Hfinal k r Hf). apply list_find_lookup in Hf as [Hk _].
  destruct (bool_decide (paymentStatus r ≠ pending)
            && bool_decide (paymentStatus r ≠ rejected));
    [by apply Maintains_refl|].
  simpl. apply (Maintains_save _ _ r); [done..|].
  rewrite (bool_decide_eq_false_2 _ Hfinal). by apply claimBit_same.
Qed.

Lemma scan_conserves uid eid0 ticket now db :
  wf_events db → typeOf db eid = Some merchandise →
  Maintains eid i o db (runHandler (scan uid eid0 ticket now) db).2.
Proof.
  intros Hwf Hty.
  destruct (scan_effect uid eid0 ticket now db) as [-> | (k & r & Hk & ->)];
    [by apply Maintains_refl|].
  apply (Maintains_save _ _ r); [done..|]. by apply claimBit_same.
Qed.

Lemma manualCheckin_conserves uid eid0 regId now db :
  wf_events db → typeOf db eid = Some merchandise →
  Maintains eid i o db (runHandler (manualCheckin uid eid0 regId now) db).2.
Proof.
  intros Hwf Hty.
  destruct (manualCheckin_effect uid eid0 regId now db) as [-> | (r & Hk & ->)];
    [by apply Maintains_refl|].
  apply (Maintains_save _ _ r); [done..|]. by apply claimBit_same.
Qed.

Lemma payment_conserves uid eid0 regId action db :
  wf_events db → Forall regSound (registrations db) →
  typeOf db eid = Some merchandise →
  rejectionFinal db (Payment uid eid0 regId action) →
  Maintains eid i o db (runHandler (payment toDataURL uid eid0 regId action) db).2.
Proof.
  intros Hwf Hsound Hty Hfinal.
  destruct (events db !! eid0) as [event|] eqn:Hev.
  2:{ rewrite payment_refused; [by apply Maintains_refl|].
      intros ? ?. by simplify_eq. }
  destruct (decide (organizers db !! uid = Some (organizerId event))) as [Ho|Ho].
  2:{ rewrite payment_refused; [by apply Maintains_refl|].
      intros ? ? ?. by simplify_eq. }
  destruct (registrations db !! regId) as [r|] eqn:Hr.
  2:{ rewrite payment_refused; [by apply Maintains_refl|].
      intros ? _ _ [? ?]. by simplify_eq. }
  destruct (Hfinal r Hr) as [Hrej Happ].
  destruct (decide (action = "approve")) as [->|Hna].
  { rewrite (approve_effect toDataURL uid eid0 regId db event r) by done.
    case_bool_decide; [by apply Maintains_refl|]. simpl.
    apply (Maintains_save _ _ r); [done..|]. apply claimBit_same; [done|].
    simpl. split; [intros; by destruct Happ|done]. }
  destruct (decide (action = "reject")) as [->|Hnr].
  2:{ rewrite payment_refused; [by apply Maintains_refl|]. done. }
  rewrite (reject_effect toDataURL uid eid0 regId db event r) by done.
  case_bool_decide as Hst; [by apply Maintains_refl|]. simpl.
  set (δ := if bool_decide (eventType event = merchandise)
            then restoreShift (merchandiseSelections r) else λ _ _, 0).
  split_and!.
  - exact (wf_events_adjust eid0 (-1) δ db Hwf).
  - rewrite <- (typeOf_adjust eid0 (-1) δ db eid) in Hty. exact Hty.
  - rewrite (committedPlusStock_save (adjust eid0 (-1) δ db) _ r) by done.
    rewrite committedPlusStock_adjust, <- option_fmap_compose.
    apply fmap_add_zero. intros s. simpl.
    assert (claimBit eid i o (set_payment rejected "" r) = 0) as ->.
    { unfold claimBit.
      destruct (decide (holdsClaim eid i o (set_payment rejected "" r)))
        as [(_ & Hc & _)|]; [by destruct Hc|done]. }
    specialize (Hrej eq_refl).
    apply Forall_lookup_1 with (i := regId) (x := r) in Hsound as [_ Hsel]; [|done].
    unfold claimBit.
    destruct (decide (holdsClaim eid i o r)) as [(He & _ & Hc)|Hc].
    + rewrite decide_True by congruence.
      assert (eventType event = merchandise) as Hmerch.
      { unfold typeOf in Hty. rewrite <- He, Hrej, Hev in Hty. by injection Hty. }
      unfold δ. rewrite (bool_decide_eq_true_2 _ Hmerch). unfold restoreShift.
      rewrite bool_decide_eq_true_2; [lia|]. split; [|done].
      destruct (merchandiseSelections r !! i) as [sel|] eqn:Hsel'; [|done].
      injection Hc as <-. by apply (Hsel i sel).
    + destruct (decide (eid0 = eid)) as [<-|]; [|lia].
      unfold δ. case_bool_decide; [|lia]. unfold restoreShift.
      rewrite bool_decide_eq_false_2; [lia|]. intros [_ Hsome].
      apply Hc. by split_and!.
Qed.

(** Every admissible request maintains the conservation law. *)
Lemma handle_conserves db req :
  wf_events db → Forall regSound (registrations db) →
  typeOf db eid = Some merchandise →
  rejectionFinal db req →
  Maintains eid i o db (handle toDataURL db req).2.
Proof.
  intros Hwf Hsound Hty Hfinal. destruct req; simpl.
  - by apply registerNormal_conserves.
  - by apply registerMerch_conserves.
  - by apply uploadPaymentProof_conserves.
  - by apply payment_conserves.
  - by apply scan_conserves.
  - by apply manualCheckin_conserves.
Qed.

End Conservation.

(** ** Invariants of the ledger *)

Lemma regSound_step req db db' :
  LedgerChange req db db' →
  Forall regSound (registrations db) → Forall regSound (registrations db').
Proof.
  intros [-> | k r r' Hk -> (_ & _ & _ & Hs) Hq | reg -> _ _ Hp Hs] Hall; [done| |].
  - apply Forall_insert; [done|].
    apply Forall_lookup_1 with (i := k) (x := r) in Hall as [Hqr Hsel]; [|done].
    split; [|by rewrite Hs].
    destruct req; simpl in Hq; try done.
    + destruct Hq as [-> _]. done.
    + destruct Hq as [_ [[_ ->] | (_ & _ & ->)]]; done.
    + destruct Hq as [-> ->]. done.
    + destruct Hq as [-> ->]. done.
  - apply Forall_app. split; [done|]. apply Forall_singleton. by split.
Qed.

Lemma uniquePairs_step req db db' :
  LedgerChange req db db' → uniquePairs db → uniquePairs db'.
Proof.
  intros [Hs | k r r' Hk Hu (He & Hu' & _ & _) _ | reg Ha Hv _ _ _] Huniq;
    unfold uniquePairs in *.
  - by rewrite Hs.
  - rewrite Hu. intros a b x y Ha Hb.
    assert (∀ n z, <[k:=r']> (registrations db) !! n = Some z →
              ∃ z', registrations db !! n = Some z'
                    ∧ eventId z' = eventId z ∧ userId z' = userId z) as Hold.
    { intros n z Hn. destruct (decide (n = k)) as [->|Hne].
      - rewrite list_lookup_insert_eq in Hn by by eapply lookup_lt_Some.
        injection Hn as <-. by exists r.
      - rewrite list_lookup_insert_ne in Hn by done. by exists z. }
    destruct (Hold _ _ Ha) as (x' & Hx & Hxe & Hxu).
    destruct (Hold _ _ Hb) as (y' & Hy & Hye & Hyu).
    intros Hee Huu. apply (Huniq a b x' y'); congruence.
  - rewrite Ha. intros a b x y Hx Hy Hee Huu.
    apply lookup_app_Some in Hx as [Hx | [Hxl Hx]];
      apply lookup_app_Some in Hy as [Hy | [Hyl Hy]].
    + by apply (Huniq a b x y).
    + exfalso. apply Hv. apply Exists_exists. exists x.
      apply list_lookup_singleton_Some in Hy as [_ <-].
      split; [by eapply list_elem_of_lookup_2|]. by left.
    + exfalso. apply Hv. apply Exists_exists. exists y.
      apply list_lookup_singleton_Some in Hx as [_ <-].
      split; [by eapply list_elem_of_lookup_2|]. by left.
    + apply list_lookup_singleton_Some in Hx as [Hx _].
      apply list_lookup_singleton_Some in Hy as [Hy _]. lia.
Qed.

(** A registration that waits for its payment keeps waiting, without ticket
    artifact, under every request other than the approval of its payment. *)
Lemma awaitingPayment_step req db db' k t r :
  LedgerChange req db db' →
  registrations db !! k = Some r → awaitingPayment t r →
  notApprovalOf k req →
  ∃ r', registrations db' !! k = Some r' ∧ awaitingPayment t r'.
Proof.
  intros [Hs | i r0 r0' Hi Hu (_ & _ & Ht & _) Hq | reg Ha _ _ _ _] Hk
    (Hqr & Hst & Htk) Hreq.
  - exists r. by rewrite Hs.
  - rewrite Hu. destruct (decide (i = k)) as [->|Hne].
    2:{ exists r. by rewrite list_lookup_insert_ne. }
    rewrite Hk in Hi. injection Hi as <-.
    exists r0'. split; [apply list_lookup_insert_eq; by eapply lookup_lt_Some|].
    unfold awaitingPayment. rewrite Ht.
    destruct req; simpl in Hq; try done.
    + destruct Hq as [-> ->]. split_and!; [done|by left|done].
    + destruct Hq as [-> [[-> _] | (_ & -> & ->)]]; [by destruct (Hreq uid eid)|].
      split_and!; [done|by right|done].
    + destruct Hq as [-> ->]. done.
    + destruct Hq as [-> ->]. done.
  - exists r. rewrite Ha. split; [by apply lookup_app_l_Some|done].
Qed.

Section Traces.

Variable toDataURL : string → string.

Lemma run_cons db req reqs :
  run toDataURL db (req :: reqs)
  = run toDataURL (handle toDataURL db req).2 reqs.
Proof. done. Qed.

(** Every database reached from an empty ledger has sound registrations
    and at most one registration per (event, participant). *)
Lemma run_ledger_invariants reqs :
  ∀ db, Forall regSound (registrations db) → uniquePairs db →
        Forall regSound (registrations (run toDataURL db reqs))
        ∧ uniquePairs (run toDataURL db reqs).
Proof.
  induction reqs as [|req reqs IH]; intros db Hs Hu; [done|].
  rewrite run_cons. destruct (handle_frame toDataURL db req) as (_ & Hl & _).
  apply IH; [by eapply regSound_step | by eapply uniquePairs_step].
Qed.

Lemma empty_ledger_invariants db :
  registrations db = [] → Forall regSound (registrations db) ∧ uniquePairs db.
Proof.
  intros Hnil. split; [by rewrite Hnil|]. unfold uniquePairs. rewrite Hnil.
  intros ? ? ? ? Hx. by rewrite lookup_nil in Hx.
Qed.

Lemma awaitingPayment_run k t reqs :
  ∀ db r, registrations db !! k = Some r → awaitingPayment t r →
          Forall (notApprovalOf k) reqs →
          ∃ r', registrations (run toDataURL db reqs) !! k = Some r'
                ∧ awaitingPayment t r'.
Proof.
  induction reqs as [|req reqs IH]; intros db r Hk Haw Hreqs; [by exists r|].
  apply Forall_cons in Hreqs as [Hreq Hreqs]. rewrite run_cons.
  destruct (handle_frame toDataURL db req) as (_ & Hl & _).
  destruct (awaitingPayment_step _ _ _ _ _ _ Hl Hk Haw Hreq) as (r1 & Hk1 & Haw1).
  by apply (IH _ r1).
Qed.

Lemma run_conserves eid i o reqs :
  ∀ db, wf_events db → Forall regSound (registrations db) →
        typeOf db eid = Some merchandise →
        admissible toDataURL db reqs →
        committedPlusStock (run toDataURL db reqs) eid i o
        = committedPlusStock db eid i o.
Proof.
  induction reqs as [|req reqs IH]; intros db Hwf Hs Hty Hadm; [done|].
  destruct Hadm as [Hfinal Hadm]. rewrite run_cons.
  destruct (handle_conserves toDataURL eid i o db req) as (Hwf' & Hty' & <-);
    [done..|].
  apply IH; [done| |done|done].
  destruct (handle_frame toDataURL db req) as (_ & Hl & _).
  by eapply regSound_step.
Qed.

End Traces.

(** ** A remark on the stock filter

    The filter of the stock decrement ranges over all options of all items:
    with "M" sold out and "L" in stock, a request for "M" still matches and
    takes the stock of "M" below zero. None of the statements below depends
    on which option pays for the match. *)
Example stock_filter_matches_any_option :
  let db := run sampleQR sampleDb
              [aliceBuysShirt;
               RegisterMerch "fest" bob {[ "item-shirt" := "opt-m" ]} 11
                 "0000b0b0" false] in
  stockOf db "fest" "item-shirt" "opt-m" = Some (-1)
  ∧ length (registrations db) = 2%nat.
Proof. split; vm_compute; reflexivity. Qed.

(** * The claims *)

(** ** C1: rollback on every failure *)

(** Supporting fact for C1: a merchandise registration that does not write
    the registration leaves the whole database as it found it, whatever the
    reason of the failure. *)
Lemma registerMerch_failure_restores toDataURL eid user selections now rnd fault
    db resp db' :
  wf_events db →
  runHandler (registerMerch toDataURL eid user selections now rnd fault) db
    = (resp, db') →
  (∀ reg, resp ≠ Created reg) → db' = db.
Proof.
  intros Hwf Hrun Hfail.
  destruct (registerMerch_effect _ _ _ _ _ _ _ _ _ _ Hwf Hrun)
    as [[-> _] | (event & reg & _ & _ & _ & _ & -> & _)]; [done|].
  by destruct (Hfail reg).
Qed.

(** Supporting fact for C1: a normal registration that does not write the
    registration leaves the database as it found it, except when the answer
    is that a required field is missing: then the reserved slot stays
    taken. *)
Lemma registerNormal_failure toDataURL eid user submitted now rnd fault db resp db' :
  runHandler (registerNormal toDataURL eid user submitted now rnd fault) db
    = (resp, db') →
  (∀ reg, resp ≠ Created reg) →
  db' = db
  ∨ ∃ field, resp = Message 400 ("Required field missing: " +:+ field_label field)
             ∧ db' = Event_incCount eid 1 db.
Proof.
  intros Hrun Hfail.
  apply registerNormal_effect in Hrun
    as [[-> _] | [(event & field & _ & _ & _ & -> & ->)
                 | (event & reg & _ & _ & _ & -> & _)]].
  - by left.
  - right. by exists field.
  - by destruct (Hfail reg).
Qed.

(** C1 (code defect). The claim asks that every failure after the capacity
    slot was reserved restores [registrationCount]. In the normal route the
    check of the required form fields runs after the reservation and answers
    without the compensating decrement: on the sample event [talk], a
    registration without the required field "Name" is refused, writes no
    registration, and leaves the counter at 1 instead of 0. *)
Theorem missing_field_keeps_reserved_slot :
  handle sampleQR sampleDb (RegisterNormal "talk" alice ∅ 10 "00c0ffee" false)
  = (Message 400 "Required field missing: Name", Event_incCount "talk" 1 sampleDb)
  ∧ registrations (Event_incCount "talk" 1 sampleDb) = []
  ∧ countOf sampleDb "talk" = Some 0
  ∧ countOf (Event_incCount "talk" 1 sampleDb) "talk" = Some 1.
Proof. split_and!; vm_compute; reflexivity. Qed.

(** ** C2: conservation of variant stock *)

(** C2 (counterexample). Alice buys the last shirt "M" (initial stock 1), the
    organizer rejects her payment, and she uploads a new proof. The
    rejection gave the unit back and the upload returns the registration to
    [pending] without taking it again: one registration holds a claim on the
    variant while its stock is back at 1, so claims plus stock is 2. Inside
    her register call, between the stock decrement of step 8 and the ledger
    write of step 12, the stock is already 0 while no registration exists:
    there claims plus stock is 0. *)
Lemma resubmission_breaks_conservation :
  let db := run sampleQR sampleDb
              [aliceBuysShirt; Payment "u-org" "fest" 0 "reject";
               UploadPaymentProof "fest" "alice" "proof.png"] in
  let midCall :=
    (reserveItems "fest" {[ "item-shirt" := "opt-m" ]} (merchandiseItems fest)
       ∅ 0 [] (Event_incCount "fest" 1 sampleDb)).2 in
  stockOf sampleDb "fest" "item-shirt" "opt-m" = Some 1
  ∧ (paymentStatus <$> registrations db) = [pending]
  ∧ claimsOn db "fest" "item-shirt" "opt-m" = 1
  ∧ stockOf db "fest" "item-shirt" "opt-m" = Some 1
  ∧ claimsOn midCall "fest" "item-shirt" "opt-m" = 0
  ∧ stockOf midCall "fest" "item-shirt" "opt-m" = Some 0.
Proof. split_and!; vm_compute; reflexivity. Qed.

(** C2 (as amended). Start from a ledger without registrations and events
    whose item and option identifiers are distinct, and run any sequence of
    register, payment, payment-proof and check-in requests in which a
    rejection is final: every rejection names the event of the registration
    it rejects, and no rejected registration is approved or handed a new
    payment proof. Then, between requests, for every variant of a
    merchandise event with initial stock [S], the number of non-rejected
    registrations of the event that selected the variant plus the variant's
    current stock is [S]. *)
Theorem stock_conserved_while_rejection_is_final toDataURL db0 reqs eid i o S :
  wf_events db0 →
  registrations db0 = [] →
  typeOf db0 eid = Some merchandise →
  stockOf db0 eid i o = Some S →
  admissible toDataURL db0 reqs →
  ∃ s, stockOf (run toDataURL db0 reqs) eid i o = Some s
       ∧ claimsOn (run toDataURL db0 reqs) eid i o + s = S.
Proof.
  intros Hwf Hnil Hty HS Hadm.
  destruct (empty_ledger_invariants db0 Hnil) as [Hsound _].
  pose proof (run_conserves toDataURL eid i o reqs db0 Hwf Hsound Hty Hadm) as Hc.
  unfold committedPlusStock in Hc. rewrite HS in Hc. simpl in Hc.
  assert (claimsOn db0 eid i o = 0) as H0.
  { unfold claimsOn. by rewrite Hnil. }
  rewrite H0 in Hc.
  destruct (stockOf (run toDataURL db0 reqs) eid i o) as [s|]; [|done].
  exists s. split; [done|]. simpl in Hc. injection Hc. lia.
Qed.

(** The amended C2 at work: Alice and Bob each buy a shirt, Alice's payment
    is rejected; the claims on "M" and its stock still add up to 1. *)
Lemma stock_conserved_witness :
  ∃ s, stockOf (run sampleQR sampleDb
                  [aliceBuysShirt; bobBuysShirt; Payment "u-org" "fest" 0 "reject"])
         "fest" "item-shirt" "opt-m" = Some s
       ∧ claimsOn (run sampleQR sampleDb
                     [aliceBuysShirt; bobBuysShirt; Payment "u-org" "fest" 0 "reject"])
           "fest" "item-shirt" "opt-m" + s = 1.
Proof.
  apply (stock_conserved_while_rejection_is_final sampleQR sampleDb
           [aliceBuysShirt; bobBuysShirt; Payment "u-org" "fest" 0 "reject"]
           "fest" "item-shirt" "opt-m" 1).
  - apply (bool_decide_unpack _). vm_compute. exact I.
  - reflexivity.
  - vm_compute. reflexivity.
  - vm_compute. reflexivity.
  - simpl. split_and!; try exact I.
    intros r Hr. vm_compute in Hr. injection Hr as <-.
    split; [reflexivity|discriminate].
Defined.

(** ** C3: the capacity counter stays within its bounds *)

(** C3 (counterexample). Alice registers (counter 1), her payment is
    rejected (counter 0), she uploads a new proof (back to [pending], counter
    still 0) and the payment is rejected again: the unguarded decrement
    takes the counter of a two-place event to -1. *)
Lemma second_rejection_underflows_counter :
  let db := run sampleQR sampleDb
              [aliceBuysShirt; Payment "u-org" "fest" 0 "reject";
               UploadPaymentProof "fest" "alice" "proof.png"] in
  countOf db "fest" = Some 0
  ∧ registrationLimit <$> events db !! "fest" = Some 2
  ∧ countOf (handle sampleQR db (Payment "u-org" "fest" 0 "reject")).2 "fest"
    = Some (-1).
Proof. split_and!; vm_compute; reflexivity. Qed.

Lemma register_full toDataURL db req eid e :
  registerTarget req = Some eid → events db !! eid = Some e →
  registrationLimit e ≤ registrationCount e →
  (handle toDataURL db req).2 = db
  ∧ (reachesCapacityCheck db req →
     (handle toDataURL db req).1 = Message 400 "Event is full").
Proof.
  intros Htarget He Hfull.
  destruct req as [eid0 user f now rnd fault | eid0 user s now rnd fault | | | |];
    try done; injection Htarget as ->; simpl.
  - unfold registerNormal. unfold_handler. rewrite He. unfold passesChecks.
    destruct (registrationOpen e) eqn:Hopen; simpl; [|check_fails].
    case_bool_decide as Hty; simpl; [check_fails|].
    destruct (checkEligibility e user) eqn:Hel; [check_fails|].
    destruct (deadlinePassed e now) eqn:Hd; simpl; [check_fails|].
    case_bool_decide as Hdup; simpl.
    { split; [done|]. intros [_ Hnone]. rewrite Hnone in Hdup.
      by destruct Hdup as [? ?]. }
    unfold Event_reserveSlot. rewrite He.
    rewrite bool_decide_eq_false_2 by lia. done.
  - unfold registerMerch. unfold_handler. rewrite He. unfold passesChecks.
    destruct (registrationOpen e) eqn:Hopen; simpl; [|check_fails].
    case_bool_decide as Hty; simpl; [check_fails|].
    destruct (checkEligibility e user) eqn:Hel; [check_fails|].
    destruct (deadlinePassed e now) eqn:Hd; simpl; [check_fails|].
    case_bool_decide as Hdup; simpl.
    { split; [done|]. intros (_ & Hnone & _). rewrite Hnone in Hdup.
      by destruct Hdup as [? ?]. }
    destruct (soldOutRequired (merchandiseItems e)) eqn:Hsold.
    { split; [done|]. intros (_ & _ & Hs). specialize (Hs e eq_refl). congruence. }
    unfold Event_reserveSlot. rewrite He.
    rewrite bool_decide_eq_false_2 by lia. done.
Qed.

(** C3 (as amended). Every request keeps [registrationCount] at or below
    [registrationLimit] for every event, and every request other than a
    payment rejection keeps it at or above 0 (the rejection decrements
    without a guard). A counter that went up was moved by a register request
    for that event, by exactly one, and was below the limit before; a
    register request for an event whose counter is not below the limit
    changes nothing, and answers "Event is full" when it gets as far as the
    guarded increment. *)
Theorem counter_bounds_per_request toDataURL db req :
  let db' := (handle toDataURL db req).2 in
  (map_Forall (λ _ e, registrationCount e ≤ registrationLimit e) (events db) →
   map_Forall (λ _ e, registrationCount e ≤ registrationLimit e) (events db'))
  ∧ (¬ isReject req →
     map_Forall (λ _ e, 0 ≤ registrationCount e) (events db) →
     map_Forall (λ _ e, 0 ≤ registrationCount e) (events db'))
  ∧ (∀ eid e e',
       events db !! eid = Some e → events db' !! eid = Some e' →
       registrationCount e < registrationCount e' →
       registerTarget req = Some eid
       ∧ registrationCount e' = registrationCount e + 1
       ∧ registrationCount e < registrationLimit e)
  ∧ (∀ eid e,
       registerTarget req = Some eid → events db !! eid = Some e →
       registrationLimit e ≤ registrationCount e →
       db' = db
       ∧ (reachesCapacityCheck db req →
          (handle toDataURL db req).1 = Message 400 "Event is full")).
Proof.
  destruct (handle_frame toDataURL db req) as (_ & _ & eid0 & c & g & Hev & Hg & Hc).
  simpl. split_and!.
  - intros Hle k e'. rewrite Hev, lookup_alter. case_decide as Hk; [|apply Hle].
    subst k. destruct (events db !! eid0) as [e|] eqn:He; [|done]. simpl.
    intros [= <-]. destruct (Hg e) as [-> ->]. pose proof (Hle eid0 e He) as Hb.
    simpl in Hb.
    destruct Hc as [-> | [(-> & _ & e1 & He1 & Hlt) | [-> _]]]; [lia| |lia].
    injection He1 as <-. lia.
  - intros Hnr Hge k e'. rewrite Hev, lookup_alter. case_decide as Hk; [|apply Hge].
    subst k. destruct (events db !! eid0) as [e|] eqn:He; [|done]. simpl.
    intros [= <-]. destruct (Hg e) as [-> _]. pose proof (Hge eid0 e He) as Hb.
    simpl in Hb.
    destruct Hc as [-> | [(-> & _) | [_ Hr]]]; [lia|lia|by destruct Hnr].
  - intros k e e' He. rewrite Hev, lookup_alter. case_decide as Hk.
    + subst k. rewrite He. simpl. intros [= <-]. destruct (Hg e) as [-> _].
      intros Hlt.
      destruct Hc as [-> | [(-> & Ht & e1 & He1 & Hcap) | [-> _]]]; [lia| |lia].
      rewrite He in He1. injection He1 as <-. done.
    + rewrite He. intros [= <-]. lia.
  - intros k e. apply register_full.
Qed.

(** ** C4: one registration per event and participant *)

(** C4 (counterexample). Alice is registered for [talk]; she registers
    again after the deadline. The handler checks the deadline before it
    looks for an existing registration, so the answer is "Registration
    deadline passed", not "Already registered". *)
Lemma repeat_after_deadline_not_reported_as_duplicate :
  let db := run sampleQR sampleDb [aliceJoinsTalk] in
  (eventId <$> registrations db, userId <$> registrations db)
  = (["talk"], ["alice"])
  ∧ handle sampleQR db
      (RegisterNormal "talk" alice {[ "field-name" := VStr "Alice" ]} 60
         "7a1c0002" false)
    = (Message 400 "Registration deadline passed", db).
Proof. split_and!; vm_compute; reflexivity. Qed.

Lemma register_duplicate toDataURL db req eid uid :
  registrant req = Some (eid, uid) →
  is_Some (Registration_findByEventUser eid uid db) →
  (handle toDataURL db req).2 = db
  ∧ (∃ c m, (handle toDataURL db req).1 = Message c m ∧ 400 ≤ c)
  ∧ (reachesDuplicateCheck db req →
     (handle toDataURL db req).1 = Message 400 "Already registered").
Proof.
  intros Hreg Hdup.
  destruct req as [eid0 user f now rnd fault | eid0 user s now rnd fault | | | |];
    try done; injection Hreg as -> <-; simpl; unfold passesChecks.
  - unfold registerNormal. unfold_handler.
    destruct (events db !! eid) as [e|] eqn:He.
    2:{ split_and!; [done|by eexists _, _|]. by intros (? & ? & _). }
    destruct (registrationOpen e) eqn:Hopen; simpl.
    2:{ split_and!; [done|by eexists _, _|]. intros (? & ? & ? & _). congruence. }
    case_bool_decide as Hty; simpl.
    { split_and!; [done|by eexists _, _|]. intros (? & ? & _ & ? & _). congruence. }
    destruct (checkEligibility e user) eqn:Hel.
    { split_and!; [done|by eexists _, _|].
      intros (? & ? & _ & _ & ? & _). congruence. }
    destruct (deadlinePassed e now) eqn:Hd; simpl.
    { split_and!; [done|by eexists _, _|].
      intros (? & ? & _ & _ & _ & ?). congruence. }
    rewrite bool_decide_eq_true_2 by done. simpl.
    split_and!; first [done | by eexists _, _].
  - unfold registerMerch. unfold_handler.
    destruct (events db !! eid) as [e|] eqn:He.
    2:{ split_and!; [done|by eexists _, _|]. by intros (? & ? & _). }
    destruct (registrationOpen e) eqn:Hopen; simpl.
    2:{ split_and!; [done|by eexists _, _|]. intros (? & ? & ? & _). congruence. }
    case_bool_decide as Hty; simpl.
    { split_and!; [done|by eexists _, _|]. intros (? & ? & _ & ? & _). congruence. }
    destruct (checkEligibility e user) eqn:Hel.
    { split_and!; [done|by eexists _, _|].
      intros (? & ? & _ & _ & ? & _). congruence. }
    destruct (deadlinePassed e now) eqn:Hd; simpl.
    { split_and!; [done|by eexists _, _|].
      intros (? & ? & _ & _ & _ & ?). congruence. }
    rewrite bool_decide_eq_true_2 by done. simpl.
    split_and!; first [done | by eexists _, _].
Qed.

Lemma register_repeat_answer toDataURL db req eid uid :
  registrant req = Some (eid, uid) →
  is_Some (Registration_findByEventUser eid uid db) →
  repeatAnswer db req = Some (handle toDataURL db req).1.
Proof.
  intros Hreg Hdup.
  destruct req as [eid0 user f now rnd fault | eid0 user s now rnd fault | | | |];
    try done; injection Hreg as -> <-; simpl; f_equal;
    unfold firstFailedCheck, registerNormal, registerMerch; unfold_handler;
    (destruct (events db !! eid) as [e|] eqn:He; [|done]);
    (destruct (registrationOpen e) eqn:Hopen; simpl; [|done]);
    (case_bool_decide as Hty; simpl; [done|]);
    unfold checkEligibility, deadlinePassed;
    destruct (eligibility e) eqn:Hel, (participantType user) eqn:Hpt;
    repeat match goal with
      | |- context [bool_decide ?P] =>
          first [ rewrite (bool_decide_eq_true_2 P) by (clear; intuition congruence)
                | rewrite (bool_decide_eq_false_2 P) by (clear; intuition congruence) ]
      end;
    cbn; try done;
    (destruct (registrationDeadline e) as [d|]; cbn;
     [destruct (bool_decide (d < now)); cbn; [done|]|]);
    by rewrite (bool_decide_eq_true_2 _ Hdup).
Qed.

(** C4 (as amended). In every database reached from an empty ledger there
    is at most one registration per (event, participant). When a
    registration for the pair exists, a further register request for the
    pair is refused and changes nothing, neither a counter nor a stock; the
    refusal is "Already registered" when the request passes the checks the
    handler runs first (the event exists, registration is open, the route
    matches the event type, the participant is eligible, the deadline has
    not passed), and the refusal of the first of those checks that fails
    otherwise ([repeatAnswer]): "Event not found", "Registration is not open
    for this event", the refusal of the route for an event of the other
    type, the refusal of the participant type, "Registration deadline
    passed". *)
Theorem repeated_registration_refused toDataURL db0 reqs req eid uid :
  registrations db0 = [] →
  let db := run toDataURL db0 reqs in
  uniquePairs db
  ∧ (registrant req = Some (eid, uid) →
     is_Some (Registration_findByEventUser eid uid db) →
     (handle toDataURL db req).2 = db
     ∧ (∃ c m, (handle toDataURL db req).1 = Message c m ∧ 400 ≤ c)
     ∧ (reachesDuplicateCheck db req →
        (handle toDataURL db req).1 = Message 400 "Already registered")
     ∧ repeatAnswer db req = Some (handle toDataURL db req).1).
Proof.
  intros Hnil db. split.
  - destruct (empty_ledger_invariants db0 Hnil) as [Hs Hu].
    by apply run_ledger_invariants.
  - intros Hreg Hdup.
    destruct (register_duplicate toDataURL db req eid uid Hreg Hdup)
      as (Hdb & Hcode & Hpass).
    split_and!; [done..|]. by eapply register_repeat_answer.
Qed.

(** The amended C4 at work: Alice's second request for the free meetup is
    answered "Already registered" and changes nothing. *)
Lemma repeated_registration_refused_witness :
  let db := run sampleQR sampleDb [aliceJoinsMeetup] in
  uniquePairs db
  ∧ (handle sampleQR db aliceJoinsMeetup).2 = db
  ∧ (handle sampleQR db aliceJoinsMeetup).1 = Message 400 "Already registered"
  ∧ repeatAnswer db aliceJoinsMeetup = Some (Message 400 "Already registered").
Proof.
  destruct (repeated_registration_refused sampleQR sampleDb [aliceJoinsMeetup]
              aliceJoinsMeetup "meetup" "alice" eq_refl) as [Hu Hdup].
  split; [exact Hu|].
  destruct Hdup as (Hdb & _ & Hresp & Hanswer).
  - reflexivity.
  - vm_compute. eexists. reflexivity.
  - split_and!; [exact Hdb| |reflexivity].
    apply Hresp. vm_compute. eexists. split_and!; reflexivity.
Defined.

(** ** C5: rejecting a payment *)




(** ** C7: payment proof after a rejection *)

(** C7. When the participant's registration for the event is [rejected],
    uploading a non-empty payment proof saves the same registration
    document (same position in the ledger, same event, participant, ticket
    code and selections) with the new proof and status [pending], and
    leaves the event collection, hence every [registrationCount] and every
    stock, untouched. *)
Theorem resubmission_returns_to_pending toDataURL eid uid proof db k r :
  proof ≠ "" →
  Registration_findByEventUser eid uid db = Some (k, r) →
  paymentStatus r = rejected →
  ∃ r', handle toDataURL db (UploadPaymentProof eid uid proof)
        = (MessageReg "Payment proof uploaded" r', Registration_save k r' db)
        ∧ registrations (Registration_save k r' db) !! k = Some r'
        ∧ paymentStatus r' = pending
        ∧ paymentProof r' = proof
        ∧ sameIdentity r r'
        ∧ events (Registration_save k r' db) = events db.
Proof.
  intros Hproof Hf Hst. simpl. rewrite uploadPaymentProof_effect.
  rewrite (bool_decide_eq_false_2 _ Hproof), Hf, Hst. simpl.
  eexists. split; [reflexivity|]. split_and!; try done.
  simpl. apply list_find_lookup in Hf as [Hk _].
  apply list_lookup_insert_eq. by eapply lookup_lt_Some.
Qed.

(** C7 at work: Alice uploads a proof after her shirt was rejected. *)
Lemma resubmission_returns_to_pending_witness :
  ∃ r', handle sampleQR dbShirtRejected (UploadPaymentProof "fest" "alice" "proof.png")
        = (MessageReg "Payment proof uploaded" r',
           Registration_save 0 r' dbShirtRejected)
        ∧ registrations (Registration_save 0 r' dbShirtRejected) !! 0%nat = Some r'
        ∧ paymentStatus r' = pending
        ∧ paymentProof r' = "proof.png"
        ∧ sameIdentity rejectedShirtReg r'
        ∧ events (Registration_save 0 r' dbShirtRejected) = events dbShirtRejected.
Proof.
  apply (resubmission_returns_to_pending sampleQR "fest" "alice" "proof.png"
           dbShirtRejected 0 rejectedShirtReg).
  - discriminate.
  - vm_compute. reflexivity.
  - vm_compute. reflexivity.
Defined.

(** ** C8: check-in by ticket code *)

(** C8 (counterexample). Alice holds a valid ticket for the free meetup
    ([not_required], not yet attended), which runs from 100 to 200. A scan at
    time 50 is refused because the event is not ongoing, and she is not
    marked as attended. *)
Lemma scan_refused_before_event_starts :
  (paymentStatus <$> registrations dbMeetup, ticketId <$> registrations dbMeetup,
   attended <$> registrations dbMeetup)
  = ([not_required], ["FEL-00c0ffee"], [false])
  ∧ handle sampleQR dbMeetup (Scan "u-org" "meetup" "FEL-00c0ffee" 50)
    = (Message 400 "Attendance can only be taken while the event is ongoing",
       dbMeetup).
Proof. split; vm_compute; reflexivity. Qed.

(** C8 (as amended). For the organizer of the event: when the event is not
    ongoing the scan is refused and changes nothing, and so is a scan
    without ticket code. When the event is ongoing and a ticket code is
    given, the scan answers "Invalid ticket" if no registration of the event
    has that code, "Payment not approved" if the registration is [pending]
    or [rejected], "Already checked in" if it is attended, and otherwise
    marks it attended at the current time. *)
Theorem scan_outcomes toDataURL uid eid ticket now db event :
  events db !! eid = Some event →
  organizers db !! uid = Some (organizerId event) →
  let result := handle toDataURL db (Scan uid eid ticket now) in
  (computeStatus event now ≠ ongoing →
   result = (Message 400 "Attendance can only be taken while the event is ongoing",
             db))
  ∧ (computeStatus event now = ongoing → ticket = "" →
     result = (Message 400 "Ticket ID required", db))
  ∧ (computeStatus event now = ongoing → ticket ≠ "" →
     (Registration_findByTicket eid ticket db = None →
      result = (Message 404 "Invalid ticket", db))
     ∧ (∀ k r, Registration_findByTicket eid ticket db = Some (k, r) →
          (paymentStatus r = pending ∨ paymentStatus r = rejected →
           result = (Message 400 "Payment not approved — cannot check in", db))
          ∧ (paymentStatus r ≠ pending → paymentStatus r ≠ rejected →
             attended r = true →
             result = (Message 400 "Already checked in", db))
          ∧ (paymentStatus r ≠ pending → paymentStatus r ≠ rejected →
             attended r = false →
             result = (Message 200 "Checked in",
                       Registration_save k (set_attended true (Some now) r) db)))).
Proof.
  intros Hev Hown. simpl. split_and!.
  - by apply scan_not_ongoing.
  - by apply scan_empty_ticket.
  - intros Hst Ht. rewrite (scan_ongoing uid eid ticket now db event) by done.
    split.
    + by intros ->.
    + intros k r ->. split_and!.
      * intros [-> | ->]; done.
      * intros Hp Hr ->.
        by rewrite (bool_decide_eq_false_2 _ Hp), (bool_decide_eq_false_2 _ Hr).
      * intros Hp Hr ->.
        by rewrite (bool_decide_eq_false_2 _ Hp), (bool_decide_eq_false_2 _ Hr).
Qed.

(** The amended C8 at work: Alice's valid ticket is scanned while the
    meetup is ongoing. *)
Lemma scan_outcomes_witness :
  handle sampleQR dbMeetup (Scan "u-org" "meetup" "FEL-00c0ffee" 150)
  = (Message 200 "Checked in",
     Registration_save 0
       (set_attended true (Some 150)
          (mkRegistration "meetup" "alice" "FEL-00c0ffee" not_required ""
             (sampleQR "FEL-00c0ffee") ∅ ∅ 0 false None))
       dbMeetup).
Proof.
  destruct (scan_outcomes sampleQR "u-org" "meetup" "FEL-00c0ffee" 150 dbMeetup
              meetupJoined) as (_ & _ & H).
  - vm_compute. reflexivity.
  - vm_compute. reflexivity.
  - destruct H as [_ H]; [vm_compute; reflexivity | discriminate |].
    destruct (H 0%nat (mkRegistration "meetup" "alice" "FEL-00c0ffee" not_required ""
                         (sampleQR "FEL-00c0ffee") ∅ ∅ 0 false None))
      as (_ & _ & Hok).
    + vm_compute. reflexivity.
    + apply Hok; [discriminate | discriminate | reflexivity].
Defined.

(** ** C10: approving a rejected payment *)

(** C10. In every database reached from an empty ledger, approving a
    registration whose payment is [rejected] succeeds for the organizer of
    the event: the registration is saved as [approved] with a ticket
    artifact generated afresh from its ticket code, and the event collection
    (every [registrationCount], every stock) is left as it was: what the
    rejection released is not reserved again. *)
Theorem approval_after_rejection_keeps_inventory toDataURL db0 reqs uid eid regId
    event r :
  registrations db0 = [] →
  let db := run toDataURL db0 reqs in
  events db !! eid = Some event →
  organizers db !! uid = Some (organizerId event) →
  registrations db !! regId = Some r →
  paymentStatus r = rejected →
  ∃ r', handle toDataURL db (Payment uid eid regId "approve")
        = (MessageReg "Payment approved" r', Registration_save regId r' db)
        ∧ paymentStatus r' = approved
        ∧ qrCode r' = toDataURL (ticketId r)
        ∧ sameIdentity r r'
        ∧ events (Registration_save regId r' db) = events db.
Proof.
  intros Hnil db Hev Hown Hreg Hst.
  destruct (empty_ledger_invariants db0 Hnil) as [Hs Hu].
  destruct (run_ledger_invariants toDataURL reqs db0 Hs Hu) as [Hsound _].
  apply Forall_lookup_1 with (i := regId) (x := r) in Hsound as [Hqr _]; [|done].
  simpl. rewrite (approve_effect toDataURL uid eid regId db event r) by done.
  rewrite Hst. rewrite bool_decide_eq_false_2 by done.
  rewrite (bool_decide_eq_true_2 _ (Hqr Hst)).
  eexists. split; [reflexivity|]. by split_and!.
Qed.

(** C10 at work: Alice's rejected shirt is approved. *)
Lemma approval_after_rejection_witness :
  ∃ r', handle sampleQR dbShirtRejected (Payment "u-org" "fest" 0 "approve")
        = (MessageReg "Payment approved" r', Registration_save 0 r' dbShirtRejected)
        ∧ paymentStatus r' = approved
        ∧ qrCode r' = sampleQR (ticketId rejectedShirtReg)
        ∧ sameIdentity rejectedShirtReg r'
        ∧ events (Registration_save 0 r' dbShirtRejected) = events dbShirtRejected.
Proof.
  apply (approval_after_rejection_keeps_inventory sampleQR sampleDb
           [aliceBuysShirt; Payment "u-org" "fest" 0 "reject"] "u-org" "fest" 0
           (default fest (events dbShirtRejected !! "fest")) rejectedShirtReg).
  - reflexivity.
  - vm_compute. reflexivity.
  - vm_compute. reflexivity.
  - vm_compute. reflexivity.
  - vm_compute. reflexivity.
Defined.

(** ** C6: payment state and ticket artifact at registration *)

Lemma selectionTotal_nonneg m :
  map_Forall (λ _ sel, 0 ≤ sel_price sel) m → 0 ≤ selectionTotal m.
Proof.
  unfold selectionTotal.
  apply (map_fold_weak_ind
           (λ r m, map_Forall (λ _ sel, 0 ≤ sel_price sel) m → 0 ≤ r)); [done|].
  intros i sel m' r Hnone IH Hall.
  apply map_Forall_insert in Hall as [Hsel Hrest]; [|done].
  specialize (IH Hrest). simpl in Hsel. lia.
Qed.

(** C6. With a QR encoder that never returns the empty string, a
    non-negative fee and non-negative prices (as the event form enforces),
    every register request that writes a registration appends it to the
    ledger with [amountPaid] equal to the event's fee plus the prices of
    the selections it records; when that amount is 0 the payment status is
    [not_required] and the ticket artifact is generated from the ticket
    code, and otherwise the status is [pending] and there is no artifact. *)
Theorem payment_state_and_ticket_at_registration toDataURL db req eid event reg db' :
  (∀ t, toDataURL t ≠ "") →
  wf_events db →
  registerTarget req = Some eid →
  events db !! eid = Some event →
  0 ≤ registrationFee event →
  Forall (λ it, Forall (λ op, 0 ≤ price op) (options it)) (merchandiseItems event) →
  handle toDataURL db req = (Created reg, db') →
  registrations db' = registrations db ++ [reg]
  ∧ amountPaid reg
    = registrationFee event + selectionTotal (merchandiseSelections reg)
  ∧ (amountPaid reg = 0 →
     paymentStatus reg = not_required
     ∧ qrCode reg = toDataURL (ticketId reg) ∧ qrCode reg ≠ "")
  ∧ (amountPaid reg ≠ 0 → paymentStatus reg = pending ∧ qrCode reg = "")
  ∧ (amountPaid reg ≠ 0 →
     ∀ reqs, Forall (notApprovalOf (length (registrations db))) reqs →
       let k := length (registrations db) in
       let dbk := run toDataURL db' reqs in
       (∃ r', registrations dbk !! k = Some r' ∧ qrCode r' = "")
       ∧ (∀ uid eid0 event0,
            events dbk !! eid0 = Some event0 →
            organizers dbk !! uid = Some (organizerId event0) →
            ∃ r'', registrations
                     (handle toDataURL dbk (Payment uid eid0 k "approve")).2 !! k
                   = Some r''
                   ∧ paymentStatus r'' = approved
                   ∧ qrCode r'' = toDataURL (ticketId reg))).
Proof.
  intros Hqr Hwf Htarget Hev Hfee Hprices Hrun.
  cut (registrations db' = registrations db ++ [reg]
       ∧ amountPaid reg
         = registrationFee event + selectionTotal (merchandiseSelections reg)
       ∧ (amountPaid reg = 0 →
          paymentStatus reg = not_required
          ∧ qrCode reg = toDataURL (ticketId reg) ∧ qrCode reg ≠ "")
       ∧ (amountPaid reg ≠ 0 → paymentStatus reg = pending ∧ qrCode reg = "")).
  { intros (Happ & Ham & H0 & Hpos). split_and!; [done..|].
    intros Hne reqs Hreqs k dbk. destruct (Hpos Hne) as [Hpend Hnoqr].
    assert (registrations db' !! k = Some reg) as Hk.
    { rewrite Happ. unfold k. by apply list_lookup_middle. }
    destruct (awaitingPayment_run toDataURL k (ticketId reg) reqs db' reg Hk)
      as (r' & Hk' & Hq' & Hst' & Ht'); [by split_and!; [|left|] | done |].
    split; [by exists r'|].
    intros uid eid0 event0 Hev0 Hown. simpl.
    rewrite (approve_effect toDataURL uid eid0 k dbk event0 r') by done.
    rewrite bool_decide_eq_false_2 by (by destruct Hst' as [-> | ->]).
    simpl. eexists. split; [apply list_lookup_insert_eq; by eapply lookup_lt_Some|].
    split; [done|]. simpl. by rewrite (bool_decide_eq_true_2 _ Hq'), Ht'. }
  destruct req as [eid0 user f now rnd fault | eid0 user s now rnd fault | | | |];
    try done; injection Htarget as ->; simpl in Hrun.
  - apply registerNormal_effect in Hrun
      as [[_ (? & ? & [=])] | [(? & ? & _ & _ & _ & [=] & _)
                              | (event0 & reg0 & Hev0 & _ & _ & [= <-] & Hreg & _ & ->)]].
    rewrite Hev in Hev0. injection Hev0 as <-.
    rewrite Hreg. simpl. unfold selectionTotal. rewrite map_fold_empty.
    split_and!; [done|lia| |].
    + intros H0. rewrite (bool_decide_eq_false_2 (registrationFee event > 0)) by lia.
      rewrite (bool_decide_eq_true_2 _ H0). split_and!; [done|done|apply Hqr].
    + intros Hne. rewrite (bool_decide_eq_true_2 (registrationFee event > 0)) by lia.
      by rewrite (bool_decide_eq_false_2 _ Hne).
  - destruct (registerMerch_effect _ _ _ _ _ _ _ _ _ _ Hwf Hrun)
      as [[_ (? & ? & [=])]
         | (event0 & reg0 & Hev0 & _ & _ & _ & [= <-] & Hreg & Hrec & _ & ->)].
    rewrite Hev in Hev0. injection Hev0 as <-.
    assert (0 ≤ selectionTotal (merchandiseSelections reg)) as Htot.
    { apply selectionTotal_nonneg. intros i sel Hi.
      destruct (Hrec i sel Hi) as (it & op & Hit & Hop & _ & _ & _ & ->). simpl.
      rewrite Forall_forall in Hprices. specialize (Hprices it Hit).
      rewrite Forall_forall in Hprices. by apply Hprices. }
    assert (amountPaid reg
            = registrationFee event + selectionTotal (merchandiseSelections reg))
      as Hamount by (by rewrite Hreg at 1).
    split_and!; [done|done| |].
    + intros H0. rewrite Hreg. simpl.
      rewrite (bool_decide_eq_false_2 (amountPaid reg > 0)) by lia.
      split_and!; [done|done|apply Hqr].
    + intros Hne. rewrite Hreg. simpl.
      by rewrite (bool_decide_eq_true_2 (amountPaid reg > 0)) by lia.
Qed.

(** C6 at work: Alice's shirt costs 500, so her registration is pending
    and has no ticket artifact. *)
Lemma payment_state_and_ticket_witness :
  registrations (run sampleQR sampleDb [aliceBuysShirt])
  = registrations sampleDb ++ [aliceShirtCreated]
  ∧ amountPaid aliceShirtCreated
    = registrationFee fest + selectionTotal (merchandiseSelections aliceShirtCreated)
  ∧ (amountPaid aliceShirtCreated = 0 →
     paymentStatus aliceShirtCreated = not_required
     ∧ qrCode aliceShirtCreated = sampleQR (ticketId aliceShirtCreated)
     ∧ qrCode aliceShirtCreated ≠ "")
  ∧ (amountPaid aliceShirtCreated ≠ 0 →
     paymentStatus aliceShirtCreated = pending ∧ qrCode aliceShirtCreated = "").
Proof.
  destruct (payment_state_and_ticket_at_registration sampleQR sampleDb
              aliceBuysShirt "fest" fest aliceShirtCreated
              (run sampleQR sampleDb [aliceBuysShirt]))
    as (H1 & H2 & H3 & H4 & _).
  - intros t. discriminate.
  - apply (bool_decide_unpack _). vm_compute. exact I.
  - reflexivity.
  - vm_compute. reflexivity.
  - vm_compute. discriminate.
  - apply (bool_decide_unpack _). vm_compute. exact I.
  - vm_compute. reflexivity.
  - exact (conj H1 (conj H2 (conj H3 H4))).
Defined.

(** ** C9: a ticket-code collision *)

Lemma ticket_collision_violates r db :
  Exists (λ r', ticketId r' = ticketId r) (registrations db) → violatesUnique r db.
Proof.
  unfold violatesUnique. intros H. eapply Exists_impl; [exact H|].
  intros r' Hr'. by right.
Qed.

Lemma registerNormal_collision toDataURL eid user f now rnd rnd' fault db reg db1 :
  runHandler (registerNormal toDataURL eid user f now rnd' fault) db
    = (Created reg, db1) →
  Exists (λ r, ticketId r = "FEL-" +:+ rnd) (registrations db) →
  Registration_findByEventUser eid (user_id user) db = None
  ∧ runHandler (registerNormal toDataURL eid user f now rnd fault) db
    = (Message 400 "Already registered", db).
Proof.
  intros Hok Hcoll. unfold registerNormal in *. unfold_handler.
  destruct (events db !! eid) as [event|] eqn:Hev; [|done].
  destruct (registrationOpen event); simpl in *; [|done].
  case_bool_decide; simpl in *; [done|].
  destruct (checkEligibility event user); [done|].
  destruct (deadlinePassed event now); simpl in *; [done|].
  case_bool_decide as Hdup; simpl in *; [done|].
  unfold Event_reserveSlot in *. rewrite Hev in *.
  case_bool_decide; simpl in *; [|done].
  destruct (missingRequired (customForm event) f); [done|].
  unfold Registration_create in *. destruct fault; [done|].
  split.
  { destruct (Registration_findByEventUser eid (user_id user) db) eqn:Hf; [|done].
    destruct Hdup. by eexists. }
  rewrite bool_decide_eq_true_2 by by apply ticket_collision_violates.
  f_equal. rewrite !Event_incCount_adjust, adjust_adjust. by apply adjust_zero.
Qed.

Lemma registerMerch_collision toDataURL eid user s now rnd rnd' fault db reg db1 :
  wf_events db →
  runHandler (registerMerch toDataURL eid user s now rnd' fault) db
    = (Created reg, db1) →
  Exists (λ r, ticketId r = "FEL-" +:+ rnd) (registrations db) →
  Registration_findByEventUser eid (user_id user) db = None
  ∧ runHandler (registerMerch toDataURL eid user s now rnd fault) db
    = (Message 400 "Already registered", db).
Proof.
  intros Hwf Hok Hcoll.
  destruct (runHandler (registerMerch toDataURL eid user s now rnd fault) db)
    as [resp db2] eqn:Hrun.
  assert (db2 = db) as ->.
  { destruct (registerMerch_effect _ _ _ _ _ _ _ _ _ _ Hwf Hrun)
      as [[-> _] | (event & reg0 & _ & _ & _ & _ & _ & Hreg & _ & Hnv & _)]; [done|].
    destruct Hnv. apply ticket_collision_violates. by rewrite Hreg. }
  revert Hrun Hok. unfold registerMerch. unfold_handler.
  destruct (events db !! eid) as [event|] eqn:Hev; [|by intros _ [=]].
  destruct (registrationOpen event); simpl; [|by intros _ [=]].
  case_bool_decide; simpl; [by intros _ [=]|].
  destruct (checkEligibility event user); [by intros _ [=]|].
  destruct (deadlinePassed event now); simpl; [by intros _ [=]|].
  case_bool_decide as Hdup; simpl; [by intros _ [=]|].
  destruct (soldOutRequired (merchandiseItems event)); [by intros _ [=]|].
  unfold Event_reserveSlot. rewrite Hev.
  case_bool_decide; simpl; [|by intros _ [=]].
  pose proof (reserveItems_frame eid s (merchandiseItems event) ∅ 0 []
                (Event_incCount eid 1 db)) as Hframe.
  pose proof (reserveItems_selections (λ _ _, True) eid s (merchandiseItems event)
                (λ _ _ _ _ _ _, I) ∅ 0 [] (Event_incCount eid 1 db)
                (map_Forall_empty _)) as Hmsg.
  destruct (reserveItems _ _ _ _ _ _ _) as [[r|[[processed total] decs]] db3].
  { destruct Hmsg as (c & m & ->). by intros _ [=]. }
  destruct Hframe as (Hregs & _).
  unfold Registration_create. destruct fault; [by intros _ [=]|].
  rewrite (bool_decide_eq_true_2 (violatesUnique _ db3)).
  2:{ apply ticket_collision_violates. simpl. by rewrite Hregs. }
  intros [= <- _] _. split; [|done].
  destruct (Registration_findByEventUser eid (user_id user) db) eqn:Hf; [|done].
  destruct Hdup. by eexists.
Qed.

(** C9. Take a register request that would succeed with some random bytes
    for its ticket code, so that the participant has no registration for the
    event. If the random bytes drawn instead give a ticket code that a stored
    registration already carries, the ledger write is refused by the unique
    index on [ticketId], the handler gives the reserved slot and stock back
    (the database is as before the call) and answers "Already registered";
    it does not draw another ticket code. *)
Theorem ticket_collision_reported_as_duplicate toDataURL db req eid uid rnd rnd'
    reg db1 :
  wf_events db →
  registrant req = Some (eid, uid) →
  handle toDataURL db (withTicket rnd' req) = (Created reg, db1) →
  Exists (λ r, ticketId r = "FEL-" +:+ rnd) (registrations db) →
  Registration_findByEventUser eid uid db = None
  ∧ handle toDataURL db (withTicket rnd req)
    = (Message 400 "Already registered", db).
Proof.
  intros Hwf Hreg Hok Hcoll.
  destruct req as [eid0 user f now rnd0 fault | eid0 user s now rnd0 fault | | | |];
    try done; injection Hreg as -> <-; simpl in *.
  - by eapply registerNormal_collision.
  - by eapply registerMerch_collision.
Qed.

(** C9 at work: Bob draws the random bytes of Alice's ticket. *)
Lemma ticket_collision_witness :
  Registration_findByEventUser "fest" "bob" (run sampleQR sampleDb [aliceBuysShirt])
  = None
  ∧ handle sampleQR (run sampleQR sampleDb [aliceBuysShirt]) bobCollides
    = (Message 400 "Already registered", run sampleQR sampleDb [aliceBuysShirt]).
Proof.
  apply (ticket_collision_reported_as_duplicate sampleQR
           (run sampleQR sampleDb [aliceBuysShirt]) bobCollides "fest" "bob"
           "0000a11c" "0000b0b0"
           (default aliceShirtCreated (registrations dbTwoShirts !! 1%nat))
           dbTwoShirts).
  - apply (bool_decide_unpack _). vm_compute. exact I.
  - reflexivity.
  - vm_compute. reflexivity.
  - apply (bool_decide_unpack _). vm_compute. exact I.
Defined.

(** * Further properties of the back end and of the page that calls it *)

(** ** Live status *)

Lemma computeStatus_phase e t t' :
  status e ≠ completed → t ≤ t' →
  phase (computeStatus e t) ≤ phase (computeStatus e t').
Proof.
  intros Hs Ht. unfold computeStatus.
  destruct (status e); try done;
    repeat (case_bool_decide; simpl); try done; simpl; lia.
Qed.

Lemma withStatus_fmap events now :
  withStatus events now = (λ e, set_status (computeStatus e now) e) <$> events.
Proof.
  unfold withStatus.
  cut (∀ acc, foldl (λ results event,
                       results ++ [set_status (computeStatus event now) event])
                acc events
              = acc ++ ((λ e, set_status (computeStatus e now) e) <$> events)).
  { intros H. by rewrite H. }
  induction events as [|e l IH]; intros acc; simpl.
  - by rewrite app_nil_r.
  - rewrite IH. by rewrite <- app_assoc.
Qed.

(** X1. The status that [withStatus] reports for an event never goes back in
    time (draft, published, ongoing, completed in this order), unless the
    event is stored as completed. *)
Theorem reported_status_never_goes_back events t t' :
  Forall (λ e, status e ≠ completed) events → t ≤ t' →
  Forall2 (λ a b, phase (status a) ≤ phase (status b))
    (withStatus events t) (withStatus events t').
Proof.
  intros Hevents Ht. rewrite !withStatus_fmap.
  induction Hevents as [|e l He _ IH]; simpl; constructor; [|exact IH].
  simpl. by apply computeStatus_phase.
Qed.

Lemma reported_status_never_goes_back_witness :
  Forall2 (λ a b, phase (status a) ≤ phase (status b))
    (withStatus [fest; talk] 50) (withStatus [fest; talk] 150).
Proof.
  apply reported_status_never_goes_back.
  - repeat constructor; discriminate.
  - lia.
Defined.

(** ** Routes of the organizer *)

Lemma findOrganizerAndEvent_stranger uid eid db :
  ¬ ownsEvent db uid eid →
  findOrganizerAndEvent uid eid db = (inl (Message 404 "Event not found"), db)
  ∨ findOrganizerAndEvent uid eid db = (inl (Message 403 "Not your event"), db).
Proof.
  unfold ownsEvent, findOrganizerAndEvent. intros Hown.
  destruct (events db !! eid) as [event|]; [|by left]. right.
  destruct (organizers db !! uid) as [oid|]; [|done].
  case_bool_decide as Hoid; [|done]. destruct Hown. by rewrite Hoid.
Qed.

Lemma findOrganizerAndEvent_owner uid eid db event :
  events db !! eid = Some event →
  organizers db !! uid = Some (organizerId event) →
  findOrganizerAndEvent uid eid db = (inr event, db).
Proof.
  intros He Ho. unfold findOrganizerAndEvent. rewrite He, Ho.
  by rewrite bool_decide_eq_true_2.
Qed.

(** X2. A route that starts with [findOrganizerAndEvent] answers an account
    that is not the organizer of the event with 404 (no such event) or 403,
    and changes nothing: payment decisions, both check-ins, edit, publish
    and the opening and closing of registration. *)
Theorem organizer_routes_refuse_other_accounts validationMessage toDataURL
    db a uid eid :
  organizerRoute a = Some (uid, eid) →
  ¬ ownsEvent db uid eid →
  act validationMessage toDataURL db a
    = (inl (Message 404 "Event not found"), db)
  ∨ act validationMessage toDataURL db a
    = (inl (Message 403 "Not your event"), db).
Proof.
  intros Hroute Hown.
  apply (findOrganizerAndEvent_stranger uid eid db) in Hown.
  destruct a as [[| | | | |]| | | |]; simpl in Hroute; simplify_eq; simpl;
    unfold payment, scan, manualCheckin, editEvent, publishEvent,
      toggleRegistration; unfold_handler;
    destruct Hown as [-> | ->]; auto.
Qed.

Lemma organizer_routes_refuse_other_accounts_witness :
  act sampleValidation sampleQR sampleDb
    (Engine (Payment "u-other" "fest" 0 "reject"))
    = (inl (Message 404 "Event not found"), sampleDb)
  ∨ act sampleValidation sampleQR sampleDb
      (Engine (Payment "u-other" "fest" 0 "reject"))
    = (inl (Message 403 "Not your event"), sampleDb).
Proof.
  apply (organizer_routes_refuse_other_accounts _ _ sampleDb _ "u-other" "fest").
  - reflexivity.
  - vm_compute. discriminate.
Defined.

(** ** When a registration is created *)

Lemma findByEventUser_None eid uid db :
  Registration_findByEventUser eid uid db = None ↔
  Forall (λ r, ¬ (eventId r = eid ∧ userId r = uid)) (registrations db).
Proof. unfold Registration_findByEventUser. apply list_find_None. Qed.

Lemma violatesUnique_fresh r db :
  Registration_findByEventUser (eventId r) (userId r) db = None →
  Forall (λ r', ticketId r' ≠ ticketId r) (registrations db) →
  ¬ violatesUnique r db.
Proof.
  intros Hpair%findByEventUser_None Hticket. unfold violatesUnique.
  rewrite Exists_exists. intros (r' & Hin & [Hp | Ht]).
  - rewrite Forall_forall in Hpair. by apply (Hpair r' Hin).
  - rewrite Forall_forall in Hticket. by apply (Hticket r' Hin).
Qed.

Lemma violatesUnique_ticket r db :
  ¬ violatesUnique r db →
  Forall (λ r', ticketId r' ≠ ticketId r) (registrations db).
Proof.
  unfold violatesUnique. rewrite <- Forall_Exists_neg.
  intros H. eapply Forall_impl; [exact H|].
  intros r' Hn Ht. apply Hn. by right.
Qed.

Section Accepted.

Variable toDataURL : string → string.

Lemma registerNormal_accepted eid user submitted now rnd fault db event :
  events db !! eid = Some event →
  normalAccepted db eid user submitted now rnd fault →
  runHandler (registerNormal toDataURL eid user submitted now rnd fault) db
  = (Created (normalRegistration toDataURL event eid user submitted rnd),
     set_registrations
       (registrations db
          ++ [normalRegistration toDataURL event eid user submitted rnd])
       (Event_incCount eid 1 db)).
Proof.
  intros Hev (event' & Hev' & Hopen & Hty & Hel & Hd & Hdup & Hcap & Hform
              & Hticket & ->).
  simplify_eq.
  unfold registerNormal. unfold_handler. rewrite Hev, Hopen. simpl.
  rewrite bool_decide_eq_false_2 by (by intros ?). simpl.
  rewrite Hel, Hd. simpl. rewrite Hdup.
  rewrite bool_decide_eq_false_2 by (by intros [? ?]). simpl.
  unfold Event_reserveSlot. rewrite Hev.
  rewrite (bool_decide_eq_true_2 _ Hcap). simpl. rewrite Hform.
  unfold Registration_create.
  rewrite bool_decide_eq_false_2; [done|].
  apply violatesUnique_fresh; simpl; done.
Qed.

Lemma registerNormal_created eid user submitted now rnd fault db reg db' :
  runHandler (registerNormal toDataURL eid user submitted now rnd fault) db
  = (Created reg, db') →
  normalAccepted db eid user submitted now rnd fault.
Proof.
  unfold registerNormal. unfold_handler.
  destruct (events db !! eid) as [event|] eqn:Hev; [|done].
  destruct (registrationOpen event) eqn:Hopen; simpl; [|done].
  case_bool_decide as Hty; simpl; [done|].
  destruct (checkEligibility event user) eqn:Hel; [done|].
  destruct (deadlinePassed event now) eqn:Hd; simpl; [done|].
  case_bool_decide as Hdup; simpl; [done|].
  unfold Event_reserveSlot. rewrite Hev.
  case_bool_decide as Hcap; simpl; [|done].
  destruct (missingRequired (customForm event) submitted) eqn:Hform; [done|].
  unfold Registration_create.
  destruct fault; simpl; [done|].
  case_bool_decide as Hviol; simpl; [done|].
  intros _. exists event. split_and!; try done.
  - destruct (Registration_findByEventUser eid (user_id user) db); [|done].
    by destruct Hdup.
  - apply violatesUnique_ticket in Hviol. exact Hviol.
Qed.

End Accepted.

(** X3. POST /normal/:id/register creates a registration exactly when the
    event exists, is open, is a normal event, the participant is eligible,
    the deadline has not passed, the participant has no registration for the
    event, a place is left, no required field is missing, the ticket code is
    new and the store accepts the write; it then stores the registration and
    takes one place. *)
Theorem normal_registration_accepted_exactly toDataURL db eid user submitted
    now rnd fault :
  let result :=
    handle toDataURL db (RegisterNormal eid user submitted now rnd fault) in
  ((∃ reg, result.1 = Created reg)
   ↔ normalAccepted db eid user submitted now rnd fault)
  ∧ ∀ event,
      events db !! eid = Some event →
      normalAccepted db eid user submitted now rnd fault →
      result
      = (Created (normalRegistration toDataURL event eid user submitted rnd),
         set_registrations
           (registrations db
              ++ [normalRegistration toDataURL event eid user submitted rnd])
           (Event_incCount eid 1 db)).
Proof.
  simpl. split; [split|].
  - intros [reg Hreg].
    destruct (runHandler _ db) as [resp db'] eqn:Hrun. simpl in Hreg. subst resp.
    by eapply registerNormal_created.
  - intros Hacc. pose proof Hacc as (event & Hev & _).
    rewrite (registerNormal_accepted _ _ _ _ _ _ _ _ event Hev Hacc).
    by eexists.
  - intros event Hev Hacc. by apply registerNormal_accepted.
Qed.

Section Created.

Variable toDataURL : string → string.

Lemma registerMerch_created eid user selections now rnd fault db reg db' :
  runHandler (registerMerch toDataURL eid user selections now rnd fault) db
  = (Created reg, db') →
  ∃ event processed total decs db1,
    events db !! eid = Some event
    ∧ registrationOpen event = true
    ∧ eventType event = merchandise
    ∧ checkEligibility event user = None
    ∧ deadlinePassed event now = false
    ∧ Registration_findByEventUser eid (user_id user) db = None
    ∧ soldOutRequired (merchandiseItems event) = None
    ∧ registrationCount event < registrationLimit event
    ∧ reserveItems eid selections (merchandiseItems event) ∅ 0 []
        (Event_incCount eid 1 db)
      = (inr (processed, total, decs), db1)
    ∧ reg = mkRegistration eid (user_id user) ("FEL-" +:+ rnd)
              (if bool_decide (registrationFee event + total > 0)
               then pending else not_required)
              ""
              (if bool_decide (registrationFee event + total > 0)
               then "" else toDataURL ("FEL-" +:+ rnd))
              ∅ processed (registrationFee event + total) false None
    ∧ ¬ violatesUnique reg db1
    ∧ db' = set_registrations (registrations db1 ++ [reg]) db1
    ∧ fault = false.
Proof.
  unfold registerMerch. unfold_handler.
  destruct (events db !! eid) as [event|] eqn:Hev; [|done].
  destruct (registrationOpen event) eqn:Hopen; simpl; [|done].
  case_bool_decide as Hty; simpl; [done|].
  destruct (checkEligibility event user) eqn:Hel; [done|].
  destruct (deadlinePassed event now) eqn:Hd; simpl; [done|].
  case_bool_decide as Hdup; simpl; [done|].
  destruct (soldOutRequired (merchandiseItems event)) eqn:Hsold; [done|].
  unfold Event_reserveSlot. rewrite Hev.
  case_bool_decide as Hcap; simpl; [|done].
  pose proof (reserveItems_selections (λ _ _, True) eid selections
                (merchandiseItems event) (λ _ _ _ _ _ _, I) ∅ 0 []
                (Event_incCount eid 1 db) (map_Forall_empty _)) as Hmsg.
  destruct (reserveItems _ _ _ _ _ _ _) as [[r|[[processed total] decs]] db1]
    eqn:Hloop.
  { destruct Hmsg as (c & m & ->). done. }
  unfold Registration_create.
  destruct fault; simpl; [done|].
  case_bool_decide as Hviol; simpl; [done|].
  intros [= <- <-].
  exists event, processed, total, decs, db1. split_and!; try done.
  destruct (Registration_findByEventUser eid (user_id user) db); [|done].
  by destruct Hdup.
Qed.

(** A registration that a register request answers with has been appended
    to the ledger, which held none for the event and the participant. *)
Lemma created_appended db req eid uid reg db' :
  registrant req = Some (eid, uid) →
  handle toDataURL db req = (Created reg, db') →
  eventId reg = eid ∧ userId reg = uid
  ∧ Registration_findByEventUser eid uid db = None
  ∧ registrations db' = registrations db ++ [reg]
  ∧ ∃ event, events db !! eid = Some event ∧ registrationOpen event = true.
Proof.
  intros Hreq Hrun.
  destruct req as [eid' user f now rnd fault|eid' user s now rnd fault| | | |];
    simpl in Hreq; simplify_eq; simpl in Hrun.
  - pose proof (registerNormal_created _ _ _ _ _ _ _ _ _ _ Hrun) as Hacc.
    pose proof Hacc as (event & Hev & Hopen & _ & _ & _ & Hdup & _).
    rewrite (registerNormal_accepted _ _ _ _ _ _ _ _ event Hev Hacc) in Hrun.
    injection Hrun as <- <-. split_and!; try done. by exists event.
  - apply registerMerch_created in Hrun
      as (event & processed & total & decs & db1 & Hev & Hopen & _ & _ & _ & Hdup
          & _ & _ & Hloop & -> & _ & -> & _).
    pose proof (reserveItems_frame eid s (merchandiseItems event) ∅ 0 []
                  (Event_incCount eid 1 db)) as Hframe.
    rewrite Hloop in Hframe. destruct Hframe as (Hregs & _).
    split_and!; try done.
    + simpl. by rewrite Hregs.
    + by exists event.
Qed.

End Created.

(** X4. After a register request has answered with the new registration,
    GET /:id/my-registration of the same participant returns that
    registration. *)
Theorem my_registration_after_registering toDataURL db req eid uid reg db' :
  registrant req = Some (eid, uid) →
  handle toDataURL db req = (Created reg, db') →
  myRegistration eid uid db' = inr reg.
Proof.
  intros Hreq Hrun.
  destruct (created_appended _ _ _ _ _ _ _ Hreq Hrun)
    as (He & Hu & Hnone & Hregs & _).
  unfold myRegistration, Registration_findByEventUser. rewrite Hregs.
  apply findByEventUser_None in Hnone.
  assert (list_find (λ r, eventId r = eid ∧ userId r = uid)
            (registrations db ++ [reg])
          = Some (length (registrations db), reg)) as ->; [|done].
  apply list_find_Some. split; [|split].
  - by rewrite lookup_app_r, Nat.sub_diag.
  - done.
  - intros j r Hj Hlt. rewrite lookup_app_l in Hj by done.
    rewrite Forall_forall in Hnone. apply Hnone.
    by eapply list_elem_of_lookup_2.
Qed.

Lemma my_registration_after_registering_witness :
  myRegistration "meetup" "alice" dbMeetup
  = inr (mkRegistration "meetup" "alice" "FEL-00c0ffee" not_required ""
           (sampleQR "FEL-00c0ffee") ∅ ∅ 0 false None).
Proof.
  apply (my_registration_after_registering sampleQR sampleDb aliceJoinsMeetup).
  - reflexivity.
  - vm_compute. reflexivity.
Defined.

(** ** What the page shows and what the server does *)

Lemma addSelectedPrice_shift sels a items :
  foldl (addSelectedPrice sels) a items
  = a + foldl (addSelectedPrice sels) 0 items.
Proof.
  revert a. induction items as [|it items IH]; intros a; simpl; [lia|].
  rewrite IH, (IH (addSelectedPrice sels 0 it)).
  unfold addSelectedPrice.
  destruct (truthy (sels !! item_id it)); [|lia].
  destruct (find _ (options it)); lia.
Qed.

Lemma reserveItems_total eid sels items :
  ∀ processed total decs db processed' total' decs' db',
    reserveItems eid sels items processed total decs db
    = (inr (processed', total', decs'), db') →
    total' = foldl (addSelectedPrice sels) total items.
Proof.
  induction items as [|it items IH]; intros processed total decs db p' t' d' db';
    simpl.
  - unfold_handler. by intros [= <- <- <- <-].
  - unfold addSelectedPrice at 2.
    destruct (truthy (sels !! item_id it)) eqn:Htr.
    + rewrite andb_false_r.
      destruct (find _ (options it)) as [opt|].
      2: { unfold_handler. simpl. discriminate. }
      unfold_handler.
      destruct (Event_reserveStock eid (item_id it) (opt_id opt) db); simpl;
        [|discriminate].
      apply IH.
    + rewrite andb_true_r.
      destruct (required it); simpl; [unfold_handler; simpl; discriminate|].
      apply IH.
Qed.

Lemma addSelectedPrice_nonneg sels items :
  Forall (λ it, Forall (λ o, 0 ≤ price o) (options it)) items →
  ∀ total, 0 ≤ total → 0 ≤ foldl (addSelectedPrice sels) total items.
Proof.
  induction 1 as [|it items Hit _ IH]; intros total Htotal; simpl; [done|].
  apply IH. unfold addSelectedPrice.
  destruct (truthy (sels !! item_id it)); [|done].
  destruct (find _ (options it)) as [opt|] eqn:Hfind; [|done].
  apply find_some in Hfind as [Hin _]. apply list_elem_of_In in Hin.
  rewrite Forall_forall in Hit. specialize (Hit opt Hin). lia.
Qed.

(** X5. When the fee and the prices of the event are whole amounts that are
    not negative and the total is at most [Number.MAX_SAFE_INTEGER], the
    amount that a merchandise registration is charged is the amount that
    [computeMerchTotal()] showed on the page for the same event and the same
    selections, and it lies in the same range. In that range every addition
    of Numbers on the way is exact, in the order of the page (fee first) as
    in the order of the route (fee last). *)
Theorem amount_charged_is_amount_shown toDataURL db eid user selections now rnd
    fault event reg db' :
  events db !! eid = Some event →
  0 ≤ registrationFee event →
  Forall (λ item, Forall (λ opt, 0 ≤ price opt) (options item))
    (merchandiseItems event) →
  computeMerchTotal event selections ≤ MAX_SAFE_INTEGER →
  handle toDataURL db (RegisterMerch eid user selections now rnd fault)
  = (Created reg, db') →
  amountPaid reg = computeMerchTotal event selections
  ∧ 0 ≤ amountPaid reg ≤ MAX_SAFE_INTEGER.
Proof.
  intros Hev Hfee Hprices Hsafe Hrun. simpl in Hrun.
  apply registerMerch_created in Hrun
    as (event' & processed & total & decs & db1 & Hev' & _ & _ & _ & _ & _ & _ & _
        & Hloop & -> & _).
  simplify_eq. simpl.
  apply reserveItems_total in Hloop. subst total.
  assert (registrationFee event
          + foldl (addSelectedPrice selections) 0 (merchandiseItems event)
          = computeMerchTotal event selections) as Hsame.
  { unfold computeMerchTotal.
    by rewrite (addSelectedPrice_shift _ (registrationFee event)). }
  rewrite Hsame. split; [done|]. split; [|done].
  unfold computeMerchTotal. by apply addSelectedPrice_nonneg.
Qed.

Lemma amount_charged_is_amount_shown_witness :
  amountPaid aliceShirtCreated
  = computeMerchTotal fest {[ "item-shirt" := "opt-m" ]}
  ∧ 0 ≤ amountPaid aliceShirtCreated ≤ MAX_SAFE_INTEGER.
Proof.
  apply (amount_charged_is_amount_shown sampleQR sampleDb "fest" alice
           {[ "item-shirt" := "opt-m" ]} 10 "0000a11c" false fest
           aliceShirtCreated (run sampleQR sampleDb [aliceBuysShirt])).
  - reflexivity.
  - simpl. lia.
  - repeat constructor; simpl; lia.
  - vm_compute. discriminate.
  - vm_compute. reflexivity.
Defined.

Lemma allSoldOut_spec item :
  allSoldOut item
  = negb (existsb (λ opt, bool_decide (stock opt > 0)) (options item)).
Proof.
  unfold allSoldOut. induction (options item) as [|opt l IH]; simpl; [done|].
  rewrite IH, negb_orb. f_equal.
  repeat case_bool_decide; simpl; try done; lia.
Qed.

Lemma hasMerchStockIssue_spec event :
  eventType event = merchandise →
  hasMerchStockIssue event = true
  ↔ is_Some (soldOutRequired (merchandiseItems event)).
Proof.
  intros Hty. unfold hasMerchStockIssue, soldOutRequired.
  rewrite bool_decide_eq_false_2 by (by intros ?).
  induction (merchandiseItems event) as [|item l IH]; simpl.
  - split; [done|]. by intros [? ?].
  - rewrite <- allSoldOut_spec.
    destruct (required item && allSoldOut item); simpl; [|exact IH].
    split; [|done]. by eexists.
Qed.

(** X6. For a merchandise event, [hasMerchStockIssue()] of the page holds
    exactly when the pre-check of POST /merch/:id/register finds a required
    item without stock; the register request is then refused and changes
    nothing. *)
Theorem page_and_server_agree_on_sold_out toDataURL db eid user selections now
    rnd fault event :
  events db !! eid = Some event →
  eventType event = merchandise →
  let result :=
    handle toDataURL db (RegisterMerch eid user selections now rnd fault) in
  (hasMerchStockIssue event = true
   ↔ is_Some (soldOutRequired (merchandiseItems event)))
  ∧ (hasMerchStockIssue event = true →
     result.2 = db ∧ ∃ c m, result.1 = Message c m ∧ 400 ≤ c).
Proof.
  intros Hev Hty. simpl. split; [by apply hasMerchStockIssue_spec|].
  intros [item Hitem]%hasMerchStockIssue_spec; [|done].
  unfold registerMerch. unfold_handler. rewrite Hev.
  destruct (registrationOpen event); simpl; [|refused].
  rewrite bool_decide_eq_false_2 by (by intros ?). simpl.
  destruct (checkEligibility event user); [refused|].
  destruct (deadlinePassed event now); simpl; [refused|].
  case_bool_decide; simpl; [refused|].
  rewrite Hitem. refused.
Qed.

Lemma page_and_server_agree_on_sold_out_witness :
  (hasMerchStockIssue capSale = true
   ↔ is_Some (soldOutRequired (merchandiseItems capSale)))
  ∧ (hasMerchStockIssue capSale = true →
     (handle sampleQR dbCapSale
        (RegisterMerch "caps" carol ∅ 12 "0000ca01" false)).2
     = dbCapSale
     ∧ ∃ c m,
         (handle sampleQR dbCapSale
            (RegisterMerch "caps" carol ∅ 12 "0000ca01" false)).1
         = Message c m ∧ 400 ≤ c).
Proof.
  apply (page_and_server_agree_on_sold_out sampleQR dbCapSale "caps" carol ∅ 12
           "0000ca01" false capSale).
  - reflexivity.
  - reflexivity.
Defined.

Lemma reserveItems_refusal eid sels items :
  ∀ processed total decs db r db',
    reserveItems eid sels items processed total decs db = (inl r, db') →
    ∃ m, r = Message 400 ("Required item not selected: " +:+ m)
         ∨ r = Message 400 ("Invalid option for " +:+ m)
         ∨ r = Message 400 ("Out of stock: " +:+ m).
Proof.
  induction items as [|it items IH]; intros processed total decs db r db'; simpl.
  - unfold_handler. discriminate.
  - destruct (truthy (sels !! item_id it)) eqn:Htr.
    + rewrite andb_false_r.
      destruct (find _ (options it)) as [opt|].
      2: { unfold_handler. simpl. intros [= <- _]. eauto. }
      unfold_handler.
      destruct (Event_reserveStock eid (item_id it) (opt_id opt) db); simpl.
      * apply IH.
      * intros [= <- _]. eauto.
    + rewrite andb_true_r.
      destruct (required it); simpl; [|apply IH].
      unfold_handler. simpl. intros [= <- _]. eauto.
Qed.

(** X7. When the page shows registration as open ([registrationIsOpen]), a
    register request sent at that instant is not turned away for closed
    registration, for a passed deadline or for a full event. *)
Theorem open_on_the_page_is_open_on_the_server toDataURL db eid event now user
    submitted selections rnd fault :
  events db !! eid = Some event →
  registrationIsOpen event now = true →
  (fst (handle toDataURL db (RegisterNormal eid user submitted now rnd fault))
     ∉ closedAnswers)
  ∧ (fst (handle toDataURL db (RegisterMerch eid user selections now rnd fault))
     ∉ closedAnswers).
Proof.
  intros Hev Hopen. unfold registrationIsOpen in Hopen.
  apply andb_true_iff in Hopen as [Hopen Hcap].
  apply andb_true_iff in Hopen as [Hopen Hd].
  apply bool_decide_eq_true in Hcap.
  assert (deadlinePassed event now = false) as Hpassed.
  { unfold deadlinePassed. destruct (registrationDeadline event); [|done].
    apply bool_decide_eq_true in Hd. apply bool_decide_eq_false. lia. }
  assert (∀ r : Response,
            (r = Message 400 "Registration is not open for this event" → False) →
            (r = Message 400 "Registration deadline passed" → False) →
            (r = Message 400 "Event is full" → False) →
            r ∉ closedAnswers) as Hout.
  { intros r H1 H2 H3. unfold closedAnswers.
    rewrite !elem_of_cons, elem_of_nil. intros [?|[?|[?|[]]]]; auto. }
  split; simpl.
  - unfold registerNormal. unfold_handler. rewrite Hev, Hopen. simpl.
    case_bool_decide; simpl; [by apply Hout|].
    destruct (checkEligibility event user); [by apply Hout|].
    rewrite Hpassed. simpl.
    case_bool_decide; simpl; [by apply Hout|].
    unfold Event_reserveSlot. rewrite Hev.
    rewrite (bool_decide_eq_true_2 _ Hcap). simpl.
    destruct (missingRequired (customForm event) submitted);
      [apply Hout; simpl; discriminate|].
    unfold Registration_create.
    destruct fault; simpl; [by apply Hout|].
    case_bool_decide; simpl; by apply Hout.
  - unfold registerMerch. unfold_handler. rewrite Hev, Hopen. simpl.
    case_bool_decide; simpl; [by apply Hout|].
    destruct (checkEligibility event user); [by apply Hout|].
    rewrite Hpassed. simpl.
    case_bool_decide; simpl; [by apply Hout|].
    destruct (soldOutRequired (merchandiseItems event));
      [apply Hout; simpl; discriminate|].
    unfold Event_reserveSlot. rewrite Hev.
    rewrite (bool_decide_eq_true_2 _ Hcap). simpl.
    destruct (reserveItems _ _ _ _ _ _ _) as [[r|[[processed total] decs]] db1]
      eqn:Hloop.
    { apply reserveItems_refusal in Hloop as [m [-> | [-> | ->]]];
        apply Hout; simpl; discriminate. }
    unfold Registration_create.
    destruct fault; simpl; [by apply Hout|].
    case_bool_decide; simpl; by apply Hout.
Qed.

Lemma open_on_the_page_is_open_on_the_server_witness :
  (fst (handle sampleQR sampleDb
          (RegisterNormal "talk" alice ∅ 10 "7a1c0001" false))
     ∉ closedAnswers)
  ∧ (fst (handle sampleQR sampleDb
            (RegisterMerch "talk" alice ∅ 10 "7a1c0001" false))
     ∉ closedAnswers).
Proof.
  apply (open_on_the_page_is_open_on_the_server sampleQR sampleDb "talk" talk).
  - reflexivity.
  - reflexivity.
Defined.

Lemma find_by_key {A} (key : A → string) (l : list A) (x : A) :
  NoDup (key <$> l) → x ∈ l →
  find (λ y, bool_decide (key y = key x)) l = Some x.
Proof.
  induction l as [|y l IH]; simpl; intros Hnd Hin.
  - by apply elem_of_nil in Hin.
  - apply NoDup_cons in Hnd as [Hy Hnd].
    apply elem_of_cons in Hin as [<- | Hin].
    + by rewrite bool_decide_eq_true_2.
    + rewrite bool_decide_eq_false_2; [by apply IH|].
      intros Heq. apply Hy. rewrite Heq. by apply list_elem_of_fmap_2.
Qed.

Lemma lookupStock_member items item opt :
  wf_items items → item ∈ items → opt ∈ options item →
  lookupStock items (item_id item) (opt_id opt) = Some (stock opt).
Proof.
  intros [Hitems Hopts] Hitem Hopt. unfold lookupStock.
  unfold has_item_id, has_opt_id.
  rewrite (find_by_key item_id items item Hitems Hitem). simpl.
  rewrite Forall_forall in Hopts.
  by rewrite (find_by_key opt_id (options item) opt (Hopts item Hitem) Hopt).
Qed.

Lemma stockFilter_member event item opt :
  item ∈ merchandiseItems event → opt ∈ options item → 0 < stock opt →
  stockFilter (item_id item) (opt_id opt) event = true.
Proof.
  intros Hitem%list_elem_of_In Hopt%list_elem_of_In Hstock. unfold stockFilter.
  repeat (apply andb_true_iff; split); apply existsb_exists; exists item;
    (split; [done|]).
  - unfold has_item_id. by apply bool_decide_eq_true_2.
  - apply existsb_exists. exists opt. split; [done|].
    unfold has_opt_id. by apply bool_decide_eq_true_2.
  - apply existsb_exists. exists opt. split; [done|].
    apply bool_decide_eq_true_2. lia.
Qed.

(** X8. An option that the selector of the page offers (its item is not sold
    out, the option has stock) can be reserved: the guarded decrement of the
    register route succeeds, takes one unit of that option and leaves every
    other stock of the event as it was. *)
Theorem offered_option_can_be_reserved db eid event item opt :
  events db !! eid = Some event →
  wf_items (merchandiseItems event) →
  item ∈ merchandiseItems event →
  offered item opt →
  ∃ db', Event_reserveStock eid (item_id item) (opt_id opt) db = Some db'
         ∧ stockOf db' eid (item_id item) (opt_id opt) = Some (stock opt - 1)
         ∧ ∀ i o, ¬ (i = item_id item ∧ o = opt_id opt) →
                  stockOf db' eid i o = stockOf db eid i o.
Proof.
  intros Hev Hwf Hitem (Hopt & _ & Hstock).
  unfold Event_reserveStock. rewrite Hev.
  rewrite (stockFilter_member event item opt Hitem Hopt Hstock).
  eexists. split; [done|].
  rewrite (Event_alterItems_shift eid _
             (unitShift (item_id item) (opt_id opt) (-1)))
    by (intros; apply incStockFiltered_shift).
  split.
  - rewrite stockOf_adjust. rewrite decide_True by done.
    unfold stockOf. rewrite Hev. simpl.
    rewrite (lookupStock_member _ _ _ Hwf Hitem Hopt). simpl.
    unfold unitShift. by rewrite bool_decide_eq_true_2.
  - intros i o Hne. rewrite stockOf_adjust. rewrite decide_True by done.
    unfold unitShift. rewrite (bool_decide_eq_false_2 _ Hne).
    destruct (stockOf db eid i o) as [s|]; simpl; [|done]. f_equal; lia.
Qed.

Lemma offered_option_can_be_reserved_witness :
  ∃ db', Event_reserveStock "fest" (item_id shirt) "opt-l" sampleDb = Some db'
         ∧ stockOf db' "fest" (item_id shirt) "opt-l" = Some (2 - 1)
         ∧ ∀ i o, ¬ (i = item_id shirt ∧ o = "opt-l") →
                  stockOf db' "fest" i o = stockOf sampleDb "fest" i o.
Proof.
  apply (offered_option_can_be_reserved sampleDb "fest" fest shirt
           (mkMerchOption "opt-l" "L" 500 2)).
  - reflexivity.
  - apply (bool_decide_unpack _). vm_compute. reflexivity.
  - apply list_elem_of_here.
  - split_and!; [|reflexivity|simpl; lia].
    apply list_elem_of_further, list_elem_of_here.
Defined.

(** ** The CSV export *)

Lemma append_cons c s t : String c s +:+ t = String c (s +:+ t).
Proof. reflexivity. Qed.

Lemma append_nil_r s : s +:+ "" = s.
Proof.
  induction s as [|c s IH]; [done|]. by rewrite append_cons, IH.
Qed.

Lemma append_assoc s1 s2 s3 : (s1 +:+ s2) +:+ s3 = s1 +:+ (s2 +:+ s3).
Proof.
  induction s1 as [|c s1 IH]; [done|]. by rewrite !append_cons, IH.
Qed.

Lemma readCsv_quoted v :
  ∀ rest field row rows,
    readCsv (doubleQuotes v +:+ String dq rest) InQuoted field row rows
    = readCsv rest AfterQuote (field +:+ v) row rows.
Proof.
  induction v as [|c v IH]; intros rest field row rows; simpl.
  - by rewrite append_nil_r.
  - case_bool_decide as Hc.
    + subst c. simpl. rewrite IH. by rewrite append_assoc.
    + simpl. rewrite (bool_decide_eq_false_2 _ Hc). rewrite IH.
      by rewrite append_assoc.
Qed.

Lemma readCsv_cell v rest row rows :
  readCsv (esc v +:+ rest) FieldStart "" row rows
  = readCsv rest AfterQuote (default "" v) row rows.
Proof.
  unfold esc. simpl. rewrite append_assoc.
  change (String dq "" +:+ rest) with (String dq rest).
  by rewrite readCsv_quoted.
Qed.

Lemma last_cons {A} (l : list A) (x d : A) :
  List.last (x :: l) d = List.last l x.
Proof.
  revert x d. induction l as [|y l IH]; intros x d; [done|].
  change (List.last (x :: y :: l) d) with (List.last (y :: l) d).
  by rewrite !IH.
Qed.

Lemma readCsv_row cells :
  ∀ c rest row rows,
    readCsv (csvRow (c :: cells) +:+ rest) FieldStart "" row rows
    = readCsv rest AfterQuote (default "" (List.last cells c))
        (row ++ (default "" <$> removelast (c :: cells))) rows.
Proof.
  unfold csvRow.
  induction cells as [|c' cells IH]; intros c rest row rows.
  - change (String.concat (String comma "") (esc <$> [c])) with (esc c).
    rewrite readCsv_cell. simpl. by rewrite app_nil_r.
  - change (String.concat (String comma "") (esc <$> c :: c' :: cells))
      with (esc c +:+ String comma "" +:+ String.concat (String comma "")
                                             (esc <$> c' :: cells)).
    rewrite !append_assoc. rewrite readCsv_cell.
    change (String comma "" +:+ ?s) with (String comma s).
    change (readCsv (String comma ?s) AfterQuote ?f ?r ?rs)
      with (readCsv s FieldStart "" (r ++ [f]) rs).
    rewrite IH.
    change (removelast (c :: c' :: cells)) with (c :: removelast (c' :: cells)).
    rewrite fmap_cons, last_cons. by rewrite <- app_assoc.
Qed.

Lemma removelast_last {A} (l : list A) (x : A) :
  removelast (x :: l) ++ [List.last l x] = x :: l.
Proof.
  revert x. induction l as [|y l IH]; intros x; [done|].
  change (removelast (x :: y :: l)) with (x :: removelast (y :: l)).
  rewrite <- app_comm_cons. f_equal. rewrite last_cons. apply IH.
Qed.

Lemma fmap_row (cells : list (option string)) c :
  (default "" <$> removelast (c :: cells)) ++ [default "" (List.last cells c)]
  = default "" <$> (c :: cells).
Proof.
  change [default "" (List.last cells c)]
    with (default "" <$> [List.last cells c]).
  rewrite <- fmap_app. by rewrite removelast_last.
Qed.

Lemma readCsv_text rows :
  ∀ c cells acc,
    Forall (λ r, r ≠ []) rows →
    readCsv (String.concat (String newline "")
               (csvRow (c :: cells) :: (csvRow <$> rows)))
      FieldStart "" [] acc
    = Some (acc ++ (cellTexts <$> (c :: cells) :: rows)).
Proof.
  induction rows as [|r rows IH]; intros c cells acc Hrows.
  - change (String.concat (String newline "") (csvRow (c :: cells) :: (csvRow <$> [])))
      with (csvRow (c :: cells)).
    rewrite <- (append_nil_r (csvRow (c :: cells))).
    rewrite readCsv_row.
    change (readCsv "" AfterQuote ?f ?r ?rs) with (Some (rs ++ [r ++ [f]])).
    rewrite app_nil_l. by rewrite fmap_row.
  - apply Forall_cons in Hrows as [Hr Hrows].
    destruct r as [|c' cells']; [done|].
    change (String.concat (String newline "")
              (csvRow (c :: cells) :: (csvRow <$> (c' :: cells') :: rows)))
      with (csvRow (c :: cells) +:+ String newline ""
            +:+ String.concat (String newline "")
                  (csvRow (c' :: cells') :: (csvRow <$> rows))).
    rewrite readCsv_row.
    change (String newline "" +:+ ?s) with (String newline s).
    change (readCsv (String newline ?s) AfterQuote ?f ?r ?rs)
      with (readCsv s FieldStart "" [] (rs ++ [r ++ [f]])).
    rewrite IH by done. rewrite app_nil_l, fmap_row.
    rewrite !fmap_cons. by rewrite <- app_assoc.
Qed.

(** X9. The text of the CSV export reads back, with a reader of quoted
    comma-separated text, as the header row followed by the rows of cells
    that were written, whatever commas, quotes or line breaks the cells
    contain; an absent value reads back as the empty text. *)
Theorem csv_export_reads_back headers rows :
  headers ≠ [] →
  Forall (λ r, r ≠ []) rows →
  parseCsv (csvText headers rows)
  = Some (headers :: (cellTexts <$> rows)).
Proof.
  intros Hh Hrows. unfold parseCsv, csvText.
  destruct headers as [|h headers]; [done|].
  rewrite fmap_cons. rewrite readCsv_text by done.
  simpl. do 2 f_equal. unfold cellTexts.
  rewrite <- list_fmap_compose. f_equal. apply list_fmap_id.
Qed.

Lemma csv_export_reads_back_witness :
  parseCsv
    (csvText ["Name"; "Ticket ID"]
       [[Some ("Ada " +:+ dquote +:+ "Countess" +:+ dquote +:+ ", Lovelace"); None];
        [Some "Bob"; Some "FEL-0000b0b0"]])
  = Some (["Name"; "Ticket ID"]
          :: (cellTexts
                <$> [[Some ("Ada " +:+ dquote +:+ "Countess" +:+ dquote
                            +:+ ", Lovelace"); None];
                     [Some "Bob"; Some "FEL-0000b0b0"]])).
Proof.
  apply csv_export_reads_back.
  - discriminate.
  - repeat constructor; discriminate.
Defined.

(** ** Analytics and organizer statistics *)

Lemma countWhere_bounds p regs :
  0 ≤ countWhere p regs ≤ Z.of_nat (length regs).
Proof.
  unfold countWhere, sumZ. induction regs as [|r regs IH]; [simpl; lia|].
  rewrite fmap_cons, length_cons, Nat2Z.inj_succ. simpl foldr.
  destruct (p r); lia.
Qed.

Lemma countWhere_split p regs :
  countWhere p regs + countWhere (λ r, negb (p r)) regs = Z.of_nat (length regs).
Proof.
  unfold countWhere, sumZ. induction regs as [|r regs IH]; [simpl; lia|].
  rewrite !fmap_cons, length_cons, Nat2Z.inj_succ. simpl foldr.
  destruct (p r); simpl; lia.
Qed.

(** The counting loop of the analytics route in closed form. *)
Lemma countRegistration_foldl users regs :
  ∀ acc,
    foldl (countRegistration users) acc regs
    = mkAnalytics
        (totalRegistrations acc + Z.of_nat (length regs))
        (attendedCount acc + countWhere attended regs)
        (iiitCount acc
         + countWhere
             (λ r, bool_decide (participantType <$> users !! userId r = Some iiit))
             regs)
        (nonIiitCount acc
         + countWhere
             (λ r, negb (bool_decide
                           (participantType <$> users !! userId r = Some iiit)))
             regs)
        (revenue acc
         + paidWhere (λ r, bool_decide (paymentStatus r = approved)) regs).
Proof.
  unfold countWhere, paidWhere, sumZ.
  induction regs as [|r regs IH]; intros acc.
  - simpl. destruct acc; simpl; f_equal; lia.
  - simpl foldl. rewrite IH. unfold countRegistration.
    rewrite !fmap_cons, length_cons, Nat2Z.inj_succ. simpl.
    destruct (attended r), (bool_decide (_ = Some iiit)),
      (bool_decide (paymentStatus r = approved)); simpl; f_equal; lia.
Qed.

(** X10. The analytics of an event count every registration of the event
    once: the total is their number, the IIIT and non-IIIT counts add up to
    it, the attended count lies between zero and it, and the revenue is the
    amount paid by the approved registrations. *)
Theorem analytics_counts_add_up users uid eid db stats :
  analytics users uid eid db = inr stats →
  totalRegistrations stats = Z.of_nat (length (Registration_findByEvent eid db))
  ∧ iiitCount stats + nonIiitCount stats = totalRegistrations stats
  ∧ 0 ≤ attendedCount stats ≤ totalRegistrations stats
  ∧ revenue stats
    = paidWhere (λ r, bool_decide (paymentStatus r = approved))
        (Registration_findByEvent eid db).
Proof.
  unfold analytics.
  destruct (findOrganizerAndEvent uid eid db) as [[refusal|event] db']; [done|].
  intros [= <-]. rewrite countRegistration_foldl. simpl.
  pose proof (countWhere_bounds attended (Registration_findByEvent eid db)).
  pose proof (countWhere_split
                (λ r, bool_decide (participantType <$> users !! userId r
                                   = Some iiit))
                (Registration_findByEvent eid db)).
  split_and!; lia.
Qed.

Lemma analytics_counts_add_up_witness :
  let stats := mkAnalytics 2 0 1 1 0 in
  totalRegistrations stats
  = Z.of_nat (length (Registration_findByEvent "fest" dbTwoShirts))
  ∧ iiitCount stats + nonIiitCount stats = totalRegistrations stats
  ∧ 0 ≤ attendedCount stats ≤ totalRegistrations stats
  ∧ revenue stats
    = paidWhere (λ r, bool_decide (paymentStatus r = approved))
        (Registration_findByEvent "fest" dbTwoShirts).
Proof.
  apply (analytics_counts_add_up {[ "alice" := alice; "bob" := bob ]} "u-org").
  vm_compute. reflexivity.
Defined.

(** The inner loop of the organizer statistics in closed form. *)
Lemma countCompleted_foldl regs :
  ∀ acc,
    foldl countCompleted acc regs
    = mkOrganizerStats (completedEventCount acc) (stats_totalRegistrations acc)
        (totalAttended acc + countWhere attended regs)
        (totalRevenue acc
         + paidWhere (λ r, bool_decide (paymentStatus r = approved)
                           || bool_decide (paymentStatus r = not_required))
             regs).
Proof.
  unfold countWhere, paidWhere, sumZ.
  induction regs as [|r regs IH]; intros acc.
  - simpl. destruct acc; simpl; f_equal; lia.
  - simpl foldl. rewrite IH. unfold countCompleted.
    rewrite !fmap_cons. simpl.
    destruct (attended r),
      (bool_decide (paymentStatus r = approved)
       || bool_decide (paymentStatus r = not_required)); simpl; f_equal; lia.
Qed.

(** The outer loop, over the completed events. *)
Lemma organizerStats_foldl db evs :
  ∀ acc,
    foldl
      (λ acc (p : string * Event),
         foldl countCompleted
           (mkOrganizerStats (completedEventCount acc)
              (stats_totalRegistrations acc + registrationCount p.2)
              (totalAttended acc) (totalRevenue acc))
           (Registration_findByEvent p.1 db))
      acc evs
    = mkOrganizerStats (completedEventCount acc)
        (stats_totalRegistrations acc
         + sumZ ((λ p, registrationCount p.2) <$> evs))
        (totalAttended acc
         + sumZ ((λ p, countWhere attended (Registration_findByEvent p.1 db))
                   <$> evs))
        (totalRevenue acc
         + sumZ ((λ p, paidWhere
                         (λ r, bool_decide (paymentStatus r = approved)
                               || bool_decide (paymentStatus r = not_required))
                         (Registration_findByEvent p.1 db))
                   <$> evs)).
Proof.
  unfold sumZ.
  induction evs as [|p evs IH]; intros acc.
  - simpl. destruct acc; simpl; f_equal; lia.
  - simpl foldl. rewrite IH. rewrite countCompleted_foldl.
    rewrite !fmap_cons. simpl. f_equal; lia.
Qed.

Lemma analytics_owner users uid eid db event :
  events db !! eid = Some event →
  organizers db !! uid = Some (organizerId event) →
  analytics users uid eid db
  = inr (foldl (countRegistration users) (mkAnalytics 0 0 0 0 0)
           (Registration_findByEvent eid db)).
Proof.
  intros Hev Ho. unfold analytics.
  by rewrite (findOrganizerAndEvent_owner _ _ _ _ Hev Ho).
Qed.

(** X11. The statistics of an organizer cover the events of the organizer
    that are stored as completed, and agree with what the analytics route
    reports for each of them: the number of events is the number of these
    reports and the attended total is the sum of their attended counts. The
    registration total is the sum of the counters of these events. *)
Theorem organizer_stats_are_sums_of_analytics users uid db stats :
  organizerStats uid db = inr stats →
  ∃ oid perEvent,
    organizers db !! uid = Some oid
    ∧ Forall2 (λ p an, analytics users uid p.1 db = inr an)
        (Event_findCompleted oid db) perEvent
    ∧ completedEventCount stats = Z.of_nat (length perEvent)
    ∧ stats_totalRegistrations stats
      = sumZ ((λ p, registrationCount p.2) <$> Event_findCompleted oid db)
    ∧ totalAttended stats = sumZ (attendedCount <$> perEvent).
Proof.
  unfold organizerStats.
  destruct (organizers db !! uid) as [oid|] eqn:Ho; [|done].
  intros [= <-]. rewrite organizerStats_foldl. simpl.
  exists oid,
    ((λ p, foldl (countRegistration users) (mkAnalytics 0 0 0 0 0)
             (Registration_findByEvent p.1 db)) <$> Event_findCompleted oid db).
  split_and!; [done| | | |].
  - apply Forall2_fmap_r, Forall_Forall2_diag, Forall_forall.
    intros [eid event] Hin. simpl.
    apply list_elem_of_filter in Hin as [[Horg _] Hin]. simpl in Horg.
    apply elem_of_map_to_list in Hin.
    apply (analytics_owner _ _ _ _ event); [done|]. by rewrite Horg.
  - by rewrite length_fmap.
  - lia.
  - rewrite <- list_fmap_compose, Z.add_0_l. f_equal. apply list_fmap_ext.
    intros _ p _. simpl. rewrite countRegistration_foldl. simpl. lia.
Qed.

Lemma organizer_stats_are_sums_of_analytics_witness :
  let stats := mkOrganizerStats 1 2 1 500 in
  ∃ oid perEvent,
    organizers dbGala !! "u-org" = Some oid
    ∧ Forall2 (λ p an, analytics sampleUsers "u-org" p.1 dbGala = inr an)
        (Event_findCompleted oid dbGala) perEvent
    ∧ completedEventCount stats = Z.of_nat (length perEvent)
    ∧ stats_totalRegistrations stats
      = sumZ ((λ p, registrationCount p.2) <$> Event_findCompleted oid dbGala)
    ∧ totalAttended stats = sumZ (attendedCount <$> perEvent).
Proof.
  apply (organizer_stats_are_sums_of_analytics sampleUsers "u-org" dbGala).
  vm_compute. reflexivity.
Defined.

(** ** Check-in and payment decisions *)

Lemma list_find_insert {A} (P : A → Prop) `{∀ x, Decision (P x)} (l : list A)
    i x y :
  list_find P l = Some (i, x) → P y →
  list_find P (<[i := y]> l) = Some (i, y).
Proof.
  intros (Hi & _ & Hbefore)%list_find_Some Hy.
  apply list_find_Some. split_and!.
  - apply list_lookup_insert_eq. by eapply lookup_lt_Some.
  - done.
  - intros j z Hj Hlt. rewrite list_lookup_insert_ne in Hj by lia.
    by eapply Hbefore.
Qed.

Lemma scan_checked_in uid eid ticket now db db' :
  runHandler (scan uid eid ticket now) db = (Message 200 "Checked in", db') →
  ∃ event i r,
    events db !! eid = Some event
    ∧ organizers db !! uid = Some (organizerId event)
    ∧ ticket ≠ ""
    ∧ Registration_findByTicket eid ticket db = Some (i, r)
    ∧ paymentStatus r ≠ pending ∧ paymentStatus r ≠ rejected
    ∧ attended r = false
    ∧ db' = Registration_save i (set_attended true (Some now) r) db.
Proof.
  unfold scan. unfold_handler.
  destruct (events db !! eid) as [event|] eqn:Hev; [|done].
  destruct (organizers db !! uid) as [oid|] eqn:Ho; [|done].
  case_bool_decide as Hoid; [|done]. subst oid.
  case_bool_decide as Hst; simpl; [done|].
  case_bool_decide as Ht; simpl; [done|].
  destruct (Registration_findByTicket eid ticket db) as [[i r]|] eqn:Hf; [|done].
  destruct (bool_decide (paymentStatus r = pending)
            || bool_decide (paymentStatus r = rejected)) eqn:Hpay; simpl; [done|].
  destruct (attended r) eqn:Hatt; simpl; [done|].
  intros [= <-]. exists event, i, r.
  apply orb_false_iff in Hpay as [Hp Hr].
  apply bool_decide_eq_false in Hp, Hr. by split_and!.
Qed.

(** X12. A ticket is checked in by scanning at most once: after a scan has
    answered "Checked in", every further scan of the same ticket answers
    "Already checked in" while the event is ongoing, is refused once it is
    not, and changes nothing. *)
Theorem ticket_is_checked_in_once toDataURL db uid eid ticket now now' db' :
  handle toDataURL db (Scan uid eid ticket now)
  = (Message 200 "Checked in", db') →
  handle toDataURL db' (Scan uid eid ticket now')
  = (Message 400 "Already checked in", db')
  ∨ handle toDataURL db' (Scan uid eid ticket now')
    = (Message 400 "Attendance can only be taken while the event is ongoing",
       db').
Proof.
  simpl. intros Hfirst.
  apply scan_checked_in in Hfirst
    as (event & i & r & Hev & Ho & Ht & Hf & Hp & Hr & Hatt & ->).
  assert (events (Registration_save i (set_attended true (Some now) r) db) !! eid
          = Some event) as Hev' by done.
  assert (organizers (Registration_save i (set_attended true (Some now) r) db)
            !! uid = Some (organizerId event)) as Ho' by done.
  destruct (decide (computeStatus event now' = ongoing)) as [Hst|Hst].
  - left. rewrite (scan_ongoing _ _ _ _ _ _ Hev' Ho' Hst Ht).
    unfold Registration_findByTicket, Registration_save. simpl.
    rewrite (list_find_insert _ _ _ _ (set_attended true (Some now) r) Hf).
    + simpl. rewrite (bool_decide_eq_false_2 _ Hp), (bool_decide_eq_false_2 _ Hr).
      done.
    + apply list_find_lookup in Hf as [_ Hpr]. done.
  - right. by apply scan_not_ongoing with (event := event).
Qed.

Lemma ticket_is_checked_in_once_witness :
  let db' :=
    (handle sampleQR dbMeetup (Scan "u-org" "meetup" "FEL-00c0ffee" 150)).2 in
  handle sampleQR db' (Scan "u-org" "meetup" "FEL-00c0ffee" 160)
  = (Message 400 "Already checked in", db')
  ∨ handle sampleQR db' (Scan "u-org" "meetup" "FEL-00c0ffee" 160)
    = (Message 400 "Attendance can only be taken while the event is ongoing",
       db').
Proof.
  apply (ticket_is_checked_in_once sampleQR dbMeetup "u-org" "meetup"
           "FEL-00c0ffee" 150 160).
  vm_compute. reflexivity.
Defined.

Lemma set_attended_twice a1 t1 a2 t2 r :
  set_attended a2 t2 (set_attended a1 t1 r) = set_attended a2 t2 r.
Proof. done. Qed.

Lemma manualCheckin_done uid eid regId now db m db' :
  runHandler (manualCheckin uid eid regId now) db = (Message 200 m, db') →
  ∃ event r,
    events db !! eid = Some event
    ∧ organizers db !! uid = Some (organizerId event)
    ∧ registrations db !! regId = Some r
    ∧ m = (if negb (attended r) then "Checked in manually"
           else "Check-in reverted")
    ∧ db' = Registration_save regId
              (set_attended (negb (attended r))
                 (if negb (attended r) then Some now else None) r) db.
Proof.
  unfold manualCheckin. unfold_handler.
  destruct (events db !! eid) as [event|] eqn:Hev; [|done].
  destruct (organizers db !! uid) as [oid|] eqn:Ho; [|done].
  case_bool_decide as Hoid; [|done]. subst oid.
  case_bool_decide as Hst; simpl; [done|].
  destruct (registrations db !! regId) as [r|] eqn:Hr; [|done].
  destruct (bool_decide (paymentStatus r = pending)
            || bool_decide (paymentStatus r = rejected)); simpl; [done|].
  intros [= <- <-]. by exists event, r.
Qed.

(** X13. The manual check-in is a switch: when two manual check-ins of the
    same registration both go through, the attendance flag is back where it
    was, the two answers differ ("Checked in manually", "Check-in
    reverted"), and nothing but the attendance time of that registration
    has changed. *)
Theorem manual_check_in_twice_restores_attendance toDataURL db uid eid regId
    now1 now2 m1 m2 db1 db2 :
  handle toDataURL db (ManualCheckin uid eid regId now1) = (Message 200 m1, db1) →
  handle toDataURL db1 (ManualCheckin uid eid regId now2) = (Message 200 m2, db2) →
  ∃ r, registrations db !! regId = Some r
       ∧ db2 = Registration_save regId
                 (set_attended (attended r)
                    (if attended r then Some now2 else None) r) db
       ∧ m1 ≠ m2.
Proof.
  simpl. intros H1 H2.
  apply manualCheckin_done in H1 as (event & r & Hev & Ho & Hr & -> & ->).
  apply manualCheckin_done in H2 as (event' & r' & _ & _ & Hr' & -> & ->).
  unfold Registration_save in Hr'. simpl in Hr'.
  rewrite list_lookup_insert_eq in Hr' by (by eapply lookup_lt_Some).
  injection Hr' as <-. exists r. split; [done|]. simpl.
  unfold Registration_save. simpl. rewrite list_insert_insert_eq.
  rewrite set_attended_twice, negb_involutive.
  split; [by destruct (attended r)|].
  by destruct (attended r).
Qed.

Lemma manual_check_in_twice_restores_attendance_witness :
  let db1 := (handle sampleQR dbMeetup (ManualCheckin "u-org" "meetup" 0 150)).2 in
  let db2 := (handle sampleQR db1 (ManualCheckin "u-org" "meetup" 0 160)).2 in
  ∃ r, registrations dbMeetup !! 0%nat = Some r
       ∧ db2 = Registration_save 0
                 (set_attended (attended r)
                    (if attended r then Some 160 else None) r) dbMeetup
       ∧ "Checked in manually" ≠ "Check-in reverted".
Proof.
  apply (manual_check_in_twice_restores_attendance sampleQR dbMeetup "u-org"
           "meetup" 0 150 160 "Checked in manually" "Check-in reverted"
           (handle sampleQR dbMeetup (ManualCheckin "u-org" "meetup" 0 150)).2).
  - vm_compute. reflexivity.
  - vm_compute. reflexivity.
Defined.

(** X14. A rejection takes one place from the counter of the event named in
    the route, and from no other counter, and marks the registration as
    rejected; the route does not compare the event of the registration with
    the event of the route. *)
Theorem rejection_counts_against_the_event_of_the_route toDataURL db uid eid
    regId r event :
  events db !! eid = Some event →
  organizers db !! uid = Some (organizerId event) →
  registrations db !! regId = Some r →
  paymentStatus r ≠ rejected →
  let db' := (handle toDataURL db (Payment uid eid regId "reject")).2 in
  countOf db' eid = Some (registrationCount event - 1)
  ∧ (∀ eid', eid' ≠ eid → countOf db' eid' = countOf db eid')
  ∧ registrations db' !! regId = Some (set_payment rejected "" r).
Proof.
  intros Hev Ho Hr Hst. simpl.
  unfold payment. unfold_handler. rewrite Hev, Ho.
  rewrite bool_decide_eq_true_2 by done. rewrite Hr. simpl.
  rewrite (bool_decide_eq_false_2 _ Hst). simpl.
  unfold Event_incCount at 1 2. simpl. rewrite lookup_alter_eq, Hev. simpl.
  assert (<[regId := set_payment rejected "" r]> (registrations db) !! regId
          = Some (set_payment rejected "" r)) as Hsaved.
  { apply list_lookup_insert_eq. by eapply lookup_lt_Some. }
  case_bool_decide; simpl; unfold countOf; simpl.
  - rewrite lookup_insert_eq. simpl. split_and!; [done| |done].
    intros eid' Hne. by rewrite lookup_insert_ne, lookup_alter_ne.
  - rewrite lookup_alter_eq, Hev. simpl. split_and!; [done| |done].
    intros eid' Hne. by rewrite lookup_alter_ne.
Qed.

Lemma rejection_counts_against_the_event_of_the_route_witness :
  let db' := (handle sampleQR dbMeetup (Payment "u-org" "talk" 0 "reject")).2 in
  countOf db' "talk" = Some (registrationCount talk - 1)
  ∧ (∀ eid', eid' ≠ "talk" → countOf db' eid' = countOf dbMeetup eid')
  ∧ registrations db' !! 0%nat
    = Some (set_payment rejected ""
              (mkRegistration "meetup" "alice" "FEL-00c0ffee" not_required ""
                 (sampleQR "FEL-00c0ffee") ∅ ∅ 0 false None)).
Proof.
  apply (rejection_counts_against_the_event_of_the_route sampleQR dbMeetup
           "u-org" "talk" 0).
  - reflexivity.
  - reflexivity.
  - reflexivity.
  - discriminate.
Defined.

(** X15. A participant whose type the event excludes cannot register: both
    register routes refuse and change nothing. *)
Theorem excluded_participant_cannot_register toDataURL db req eid event user
    submitted selections now rnd fault :
  events db !! eid = Some event →
  (eligibility event = elig_iiit ∧ participantType user = non_iiit)
  ∨ (eligibility event = elig_non_iiit ∧ participantType user = iiit) →
  req = RegisterNormal eid user submitted now rnd fault
  ∨ req = RegisterMerch eid user selections now rnd fault →
  (handle toDataURL db req).2 = db
  ∧ ∃ c m, (handle toDataURL db req).1 = Message c m ∧ 400 ≤ c.
Proof.
  intros Hev Hex Hreq.
  assert (∃ m, checkEligibility event user = Some m) as [m Hel].
  { unfold checkEligibility.
    destruct Hex as [[-> ->] | [-> ->]]; simpl; by eexists. }
  destruct Hreq as [-> | ->]; simpl.
  - unfold registerNormal. unfold_handler. rewrite Hev.
    destruct (registrationOpen event); simpl; [|refused].
    case_bool_decide; simpl; [refused|].
    rewrite Hel. refused.
  - unfold registerMerch. unfold_handler. rewrite Hev.
    destruct (registrationOpen event); simpl; [|refused].
    case_bool_decide; simpl; [refused|].
    rewrite Hel. refused.
Qed.

Lemma excluded_participant_cannot_register_witness :
  (handle sampleQR dbCampus (RegisterNormal "campus" bob ∅ 10 "0000b0b0" false)).2
  = dbCampus
  ∧ ∃ c m,
      (handle sampleQR dbCampus
         (RegisterNormal "campus" bob ∅ 10 "0000b0b0" false)).1
      = Message c m ∧ 400 ≤ c.
Proof.
  apply (excluded_participant_cannot_register sampleQR dbCampus _ "campus"
           campusTalk bob ∅ ∅ 10 "0000b0b0" false).
  - reflexivity.
  - left. split; reflexivity.
  - left. reflexivity.
Defined.

(** ** Event management *)

Lemma Event_save_same eid event db :
  events db !! eid = Some event → Event_save eid event db = db.
Proof.
  intros Hev. unfold Event_save. rewrite insert_id by done.
  apply set_events_same.
Qed.

Lemma computeStatus_draft event now :
  computeStatus event now = draft ↔ status event = draft.
Proof.
  unfold computeStatus. case_bool_decide as Hd; [by rewrite Hd|].
  destruct (_ && _); [done|]. case_bool_decide; done.
Qed.

(** X16. An event that has just been created is closed and empty: it is
    stored under its new identifier with the caller as organizer, as a
    draft or published, without registrations, and every register request
    for it is refused until registration is opened. No other event and no
    registration is touched. *)
Theorem new_event_takes_no_registration validationMessage toDataURL db uid body
    newId code event db' req :
  createEvent validationMessage uid body newId db
  = (inr (EventJson code event), db') →
  code = 201
  ∧ events db !! newId = None
  ∧ db' = Event_save newId event db
  ∧ organizers db !! uid = Some (organizerId event)
  ∧ registrationOpen event = false
  ∧ registrationCount event = 0
  ∧ registrationDeadline event = None
  ∧ (status event = draft ∨ status event = published)
  ∧ (registerTarget req = Some newId →
     handle toDataURL db' req
     = (Message 400 "Registration is not open for this event", db')).
Proof.
  unfold createEvent. unfold_handler.
  destruct (organizers db !! uid) as [organizer|] eqn:Ho; [|done].
  destruct (new_eventType body) as [ty|]; [|done].
  destruct (new_startDate body) as [start|]; [|done].
  destruct (new_endDate body) as [finish|]; [|done].
  destruct (new_registrationLimit body) as [limit|]; [|done].
  destruct (missingPaths body); [|done].
  case_bool_decide as Hnew; simpl; [done|].
  intros [= <- <- <-]. split_and!; try done.
  - destruct (events db !! newId); [|done]. destruct Hnew. by eexists.
  - simpl. case_bool_decide; auto.
  - intros Hreq.
    destruct req as [eid user f now rnd fault|eid user s now rnd fault| | | |];
      simpl in Hreq; simplify_eq; simpl.
    + unfold registerNormal. unfold_handler. unfold Event_save. simpl.
      by rewrite lookup_insert_eq.
    + unfold registerMerch. unfold_handler. unfold Event_save. simpl.
      by rewrite lookup_insert_eq.
Qed.

Lemma new_event_takes_no_registration_witness :
  let db' := Event_save "hack" hackNight sampleDb in
  201 = 201
  ∧ events sampleDb !! "hack" = None
  ∧ db' = Event_save "hack" hackNight sampleDb
  ∧ organizers sampleDb !! "u-org" = Some (organizerId hackNight)
  ∧ registrationOpen hackNight = false
  ∧ registrationCount hackNight = 0
  ∧ registrationDeadline hackNight = None
  ∧ (status hackNight = draft ∨ status hackNight = published)
  ∧ (registerTarget (RegisterNormal "hack" alice ∅ 10 "00000001" false)
       = Some "hack" →
     handle sampleQR db' (RegisterNormal "hack" alice ∅ 10 "00000001" false)
     = (Message 400 "Registration is not open for this event", db')).
Proof.
  apply (new_event_takes_no_registration sampleValidation sampleQR sampleDb
           "u-org" hackNightBody "hack" 201 hackNight).
  vm_compute. reflexivity.
Defined.

(** X17. Once an event has registrations (a positive counter), an edit that
    carries a custom form or merchandise items is refused and changes
    nothing, whatever else it carries and whatever the status of the
    event. *)
Theorem form_is_locked_after_registrations validationMessage db uid eid updates
    now event :
  events db !! eid = Some event →
  0 < registrationCount event →
  is_Some (upd_customForm updates) ∨ is_Some (upd_merchandiseItems updates) →
  (editEvent validationMessage uid eid updates now db).2 = db
  ∧ ∃ c m, (editEvent validationMessage uid eid updates now db).1
           = inl (Message c m) ∧ 400 ≤ c.
Proof.
  intros Hev Hcount Hform.
  assert (registrationCount event > 0) as Hpos by lia.
  unfold editEvent. unfold_handler. rewrite Hev.
  destruct (organizers db !! uid) as [oid|]; [|refused].
  case_bool_decide; [|refused].
  rewrite (bool_decide_eq_true_2 _ Hpos).
  destruct (bool_decide (is_Some (upd_customForm updates))) eqn:Hf; simpl;
    [refused|].
  destruct (bool_decide (is_Some (upd_merchandiseItems updates))) eqn:Hi; simpl;
    [refused|].
  apply bool_decide_eq_false in Hf, Hi. by destruct Hform.
Qed.

Lemma form_is_locked_after_registrations_witness :
  (editEvent sampleValidation "u-org" "meetup" newForm 10 dbMeetup).2 = dbMeetup
  ∧ ∃ c m, (editEvent sampleValidation "u-org" "meetup" newForm 10 dbMeetup).1
           = inl (Message c m) ∧ 400 ≤ c.
Proof.
  apply (form_is_locked_after_registrations sampleValidation dbMeetup "u-org"
           "meetup" newForm 10 meetupJoined).
  - vm_compute. reflexivity.
  - vm_compute. reflexivity.
  - left. by eexists.
Defined.

(** X18. An edit of an event that is no longer a draft leaves its type,
    eligibility, dates, deadline, fee, organizer, counter, form and
    merchandise as they are; the limit never goes down; the status and the
    open flag change only together, to completed and closed; and an event
    whose live status is completed is not changed at all. *)
Theorem edit_after_draft_keeps_the_setup validationMessage db uid eid updates
    now event :
  events db !! eid = Some event →
  status event ≠ draft →
  ∃ event',
    (editEvent validationMessage uid eid updates now db).2
    = Event_save eid event' db
    ∧ fixedAfterDraft event event'
    ∧ registrationLimit event ≤ registrationLimit event'
    ∧ ((status event' = status event
        ∧ registrationOpen event' = registrationOpen event)
       ∨ (computeStatus event now = ongoing
          ∧ status event' = completed ∧ registrationOpen event' = false))
    ∧ (computeStatus event now = completed → event' = event).
Proof.
  intros Hev Hst.
  assert (∃ event',
              db = Event_save eid event' db
              ∧ fixedAfterDraft event event'
              ∧ registrationLimit event ≤ registrationLimit event'
              ∧ ((status event' = status event
                  ∧ registrationOpen event' = registrationOpen event)
                 ∨ (computeStatus event now = ongoing
                    ∧ status event' = completed
                    ∧ registrationOpen event' = false))
              ∧ (computeStatus event now = completed → event' = event))
    as Hsame.
  { exists event. rewrite (Event_save_same _ _ _ Hev).
    split_and!; try done; try lia. by left. }
  unfold editEvent. unfold_handler. rewrite Hev.
  destruct (organizers db !! uid) as [oid|]; [|exact Hsame].
  case_bool_decide; [|exact Hsame].
  destruct (_ && _); simpl; [exact Hsame|].
  destruct (_ && _); simpl; [exact Hsame|].
  destruct (computeStatus event now) eqn:Hlive.
  - apply computeStatus_draft in Hlive. done.
  - destruct (emptiedText "description" (upd_description updates));
      [|apply Hsame].
    simpl. exists (raiseLimit updates event). split; [done|].
    unfold raiseLimit.
    destruct (upd_registrationLimit updates) as [limit|];
      [case_bool_decide|]; simpl;
      (split_and!; [done| |by left|done]); simpl; lia.
  - simpl. exists (markCompleted updates event). split; [done|].
    unfold markCompleted. case_bool_decide; simpl.
    + split_and!; [done|lia|by right|done].
    + split_and!; [done|lia|by left|done].
  - simpl. exists event. split_and!; try done; try lia. by left.
Qed.

Lemma edit_after_draft_keeps_the_setup_witness :
  ∃ event',
    (editEvent sampleValidation "u-org" "meetup" (raiseTo 5) 10 sampleDb).2
    = Event_save "meetup" event' sampleDb
    ∧ fixedAfterDraft meetup event'
    ∧ registrationLimit meetup ≤ registrationLimit event'
    ∧ ((status event' = status meetup
        ∧ registrationOpen event' = registrationOpen meetup)
       ∨ (computeStatus meetup 10 = ongoing
          ∧ status event' = completed ∧ registrationOpen event' = false))
    ∧ (computeStatus meetup 10 = completed → event' = meetup).
Proof.
  apply (edit_after_draft_keeps_the_setup sampleValidation sampleDb "u-org"
           "meetup" (raiseTo 5) 10 meetup).
  - reflexivity.
  - discriminate.
Defined.

(** X19. Publishing turns a draft into a published event and touches
    nothing else of it; an event can be published once: a second request
    is refused and changes nothing. *)
Theorem an_event_is_published_once db uid eid message event' db' :
  publishEvent uid eid db = (inr (EventMessage message event'), db') →
  ∃ event,
    events db !! eid = Some event
    ∧ status event = draft
    ∧ event' = set_status published event
    ∧ db' = Event_save eid event' db
    ∧ publishEvent uid eid db'
      = (inl (Message 400 "Only draft events can be published"), db').
Proof.
  unfold publishEvent. unfold_handler.
  destruct (events db !! eid) as [event|] eqn:Hev; [|done].
  destruct (organizers db !! uid) as [oid|] eqn:Ho; [|done].
  case_bool_decide as Hoid; [|done]. subst oid.
  case_bool_decide as Hst; simpl; [done|].
  intros [= <- <- <-]. exists event. split_and!; try done.
  unfold Event_save. simpl. rewrite lookup_insert_eq, Ho. simpl.
  by rewrite bool_decide_eq_true_2.
Qed.

(** A draft that the organizer of the sample database owns. *)
Lemma an_event_is_published_once_witness :
  let draftNight := set_status draft hackNight in
  let db := Event_save "hack" draftNight sampleDb in
  ∃ event,
    events db !! "hack" = Some event
    ∧ status event = draft
    ∧ hackNight = set_status published event
    ∧ Event_save "hack" hackNight db = Event_save "hack" hackNight db
    ∧ publishEvent "u-org" "hack" (Event_save "hack" hackNight db)
      = (inl (Message 400 "Only draft events can be published"),
         Event_save "hack" hackNight db).
Proof.
  apply (an_event_is_published_once
           (Event_save "hack" (set_status draft hackNight) sampleDb)
           "u-org" "hack" "Event published").
  vm_compute. reflexivity.
Defined.

Lemma toggle_opened uid eid action deadline now db message event' db' :
  toggleRegistration uid eid action deadline now db
  = (inr (EventMessage message event'), db') →
  ∃ event,
    events db !! eid = Some event
    ∧ organizers db !! uid = Some (organizerId event)
    ∧ (computeStatus event now = published ∨ computeStatus event now = ongoing)
    ∧ db' = Event_save eid event' db
    ∧ ((action = "open" ∧ message = "Registration opened"
        ∧ ∃ d, deadline = Some d ∧ now < d
               ∧ event' = set_registrationDeadline (Some d)
                            (set_registrationOpen true event))
       ∨ (action = "close" ∧ message = "Registration closed"
          ∧ event' = set_registrationOpen false event)).
Proof.
  unfold toggleRegistration. unfold_handler.
  destruct (events db !! eid) as [event|] eqn:Hev; [|done].
  destruct (organizers db !! uid) as [oid|] eqn:Ho; [|done].
  case_bool_decide as Hoid; [|done]. subst oid.
  destruct (bool_decide (computeStatus event now ≠ published)
            && bool_decide (computeStatus event now ≠ ongoing)) eqn:Hlive;
    simpl; [done|].
  assert (computeStatus event now = published
          ∨ computeStatus event now = ongoing) as Hst.
  { apply andb_false_iff in Hlive as [H|H]; apply bool_decide_eq_false in H.
    - left. by apply dec_stable.
    - right. by apply dec_stable. }
  clear Hlive. case_bool_decide as Hopen.
  - destruct deadline as [d|]; [|done].
    case_bool_decide as Hd; simpl; [done|].
    intros [= <- <- <-]. exists event. split_and!; try done.
    left. split_and!; try done. exists d. split_and!; [done|lia|done].
  - case_bool_decide as Hclose; [|done].
    intros [= <- <- <-]. exists event. split_and!; try done.
    right. by split_and!.
Qed.

(** X20. When registration has been opened with a deadline, the deadline
    lies after the time of the request, and a register request that arrives
    up to the deadline is not turned away for closed registration or for a
    passed deadline. *)
Theorem opened_registration_accepts_until_the_deadline toDataURL db uid eid
    deadline now event' db' user submitted selections t rnd fault :
  toggleRegistration uid eid "open" deadline now db
  = (inr (EventMessage "Registration opened" event'), db') →
  ∃ d,
    deadline = Some d ∧ now < d
    ∧ events db' !! eid = Some event'
    ∧ registrationOpen event' = true
    ∧ registrationDeadline event' = Some d
    ∧ (t ≤ d →
       ∀ req,
         req = RegisterNormal eid user submitted t rnd fault
         ∨ req = RegisterMerch eid user selections t rnd fault →
         fst (handle toDataURL db' req)
         ≠ Message 400 "Registration is not open for this event"
         ∧ fst (handle toDataURL db' req)
           ≠ Message 400 "Registration deadline passed").
Proof.
  intros Hopen.
  apply toggle_opened in Hopen
    as (event & Hev & Ho & Hlive & -> & [(_ & _ & d & -> & Hd & ->) | (Hc & _)]);
    [|done].
  exists d. split_and!; try done.
  { unfold Event_save. simpl. by rewrite lookup_insert_eq. }
  intros Ht req Hreq.
  assert (events
            (Event_save eid
               (set_registrationDeadline (Some d)
                  (set_registrationOpen true event)) db) !! eid
          = Some (set_registrationDeadline (Some d)
                    (set_registrationOpen true event))) as Hev'.
  { unfold Event_save. simpl. by rewrite lookup_insert_eq. }
  assert (deadlinePassed
            (set_registrationDeadline (Some d) (set_registrationOpen true event))
            t = false) as Hpassed.
  { unfold deadlinePassed. simpl. apply bool_decide_eq_false. lia. }
  destruct Hreq as [-> | ->]; simpl.
  - unfold registerNormal. unfold_handler. rewrite Hev'.
    simpl registrationOpen. simpl negb. cbv iota.
    case_bool_decide; simpl; [done|].
    destruct (checkEligibility _ user); [done|].
    rewrite Hpassed. simpl.
    case_bool_decide; simpl; [done|].
    destruct (Event_reserveSlot _ _ _); simpl; [|done].
    destruct (missingRequired _ submitted); [split; simpl; discriminate|].
    destruct (Registration_create _ _ _); simpl; done.
  - unfold registerMerch. unfold_handler. rewrite Hev'.
    simpl registrationOpen. simpl negb. cbv iota.
    case_bool_decide; simpl; [done|].
    destruct (checkEligibility _ user); [done|].
    rewrite Hpassed. simpl.
    case_bool_decide; simpl; [done|].
    destruct (soldOutRequired _); [split; simpl; discriminate|].
    destruct (Event_reserveSlot _ _ _); simpl; [|done].
    destruct (reserveItems _ _ _ _ _ _ _) as [[r|[[processed total] decs]] db1]
      eqn:Hloop.
    { apply reserveItems_refusal in Hloop as [m [-> | [-> | ->]]];
        split; simpl; discriminate. }
    destruct (Registration_create _ _ _); simpl; done.
Qed.

Lemma opened_registration_accepts_until_the_deadline_witness :
  let event' :=
    set_registrationDeadline (Some 80) (set_registrationOpen true talk) in
  let db' := Event_save "talk" event' sampleDb in
  ∃ d,
    Some 80 = Some d ∧ 10 < d
    ∧ events db' !! "talk" = Some event'
    ∧ registrationOpen event' = true
    ∧ registrationDeadline event' = Some d
    ∧ (80 ≤ d →
       ∀ req,
         req = RegisterNormal "talk" alice ∅ 80 "7a1c0001" false
         ∨ req = RegisterMerch "talk" alice ∅ 80 "7a1c0001" false →
         fst (handle sampleQR db' req)
         ≠ Message 400 "Registration is not open for this event"
         ∧ fst (handle sampleQR db' req)
           ≠ Message 400 "Registration deadline passed").
Proof.
  apply (opened_registration_accepts_until_the_deadline sampleQR sampleDb
           "u-org" "talk" (Some 80) 10).
  vm_compute. reflexivity.
Defined.

Lemma closed_event_refuses toDataURL db eid event req :
  events db !! eid = Some event →
  registrationOpen event = false →
  registerTarget req = Some eid →
  handle toDataURL db req
  = (Message 400 "Registration is not open for this event", db).
Proof.
  intros Hev Hclosed Hreq.
  destruct req as [eid' user f now rnd fault|eid' user s now rnd fault| | | |];
    simpl in Hreq; simplify_eq; simpl.
  - unfold registerNormal. unfold_handler. by rewrite Hev, Hclosed.
  - unfold registerMerch. unfold_handler. by rewrite Hev, Hclosed.
Qed.

(** X21. After registration has been closed, every register request for the
    event is refused with "Registration is not open for this event" and
    changes nothing; closing touches nothing of the event but the open
    flag. *)
Theorem closed_registration_refuses_everyone toDataURL db uid eid deadline now
    message event' db' req :
  toggleRegistration uid eid "close" deadline now db
  = (inr (EventMessage message event'), db') →
  registerTarget req = Some eid →
  (∃ event, events db !! eid = Some event
            ∧ event' = set_registrationOpen false event)
  ∧ db' = Event_save eid event' db
  ∧ handle toDataURL db' req
    = (Message 400 "Registration is not open for this event", db').
Proof.
  intros Hclose Hreq.
  apply toggle_opened in Hclose
    as (event & Hev & Ho & Hlive & -> & [(Hopen & _) | (_ & _ & ->)]); [done|].
  split_and!; [by exists event|done|].
  apply (closed_event_refuses _ _ eid (set_registrationOpen false event));
    [|done|done].
  unfold Event_save. simpl. by rewrite lookup_insert_eq.
Qed.

Lemma closed_registration_refuses_everyone_witness :
  let event' := set_registrationOpen false meetup in
  let db' := Event_save "meetup" event' sampleDb in
  (∃ event, events sampleDb !! "meetup" = Some event
            ∧ event' = set_registrationOpen false event)
  ∧ db' = Event_save "meetup" event' sampleDb
  ∧ handle sampleQR db' aliceJoinsMeetup
    = (Message 400 "Registration is not open for this event", db').
Proof.
  apply (closed_registration_refuses_everyone sampleQR sampleDb "u-org" "meetup"
           None 10 "Registration closed").
  - vm_compute. reflexivity.
  - reflexivity.
Defined.

(** X22. Marking an ongoing event as completed stores the status completed
    and closes registration, and nothing else; the status that GET
    /events/:id reports for the event stays ongoing until its end date. *)
Theorem completed_event_is_reported_ongoing_until_its_end validationMessage db
    uid eid updates now event code event' db' :
  events db !! eid = Some event →
  computeStatus event now = ongoing →
  upd_status updates = Some completed →
  editEvent validationMessage uid eid updates now db
  = (inr (EventJson code event'), db') →
  event' = set_registrationOpen false (set_status completed event)
  ∧ db' = Event_save eid event' db
  ∧ ∀ t, startDate event ≤ t ≤ endDate event →
         getEvent eid t db' = inr (set_status ongoing event').
Proof.
  intros Hev Hlive Hupd.
  unfold editEvent. unfold_handler. rewrite Hev.
  destruct (organizers db !! uid) as [oid|]; [|done].
  case_bool_decide; [|done].
  destruct (_ && _); simpl; [done|].
  destruct (_ && _); simpl; [done|].
  rewrite Hlive. simpl. unfold markCompleted.
  rewrite (bool_decide_eq_true_2 _ Hupd).
  intros [= <- <- <-]. split_and!; [done..|].
  intros t [Hs He]. unfold getEvent, Event_save. simpl.
  rewrite lookup_insert_eq. do 2 f_equal.
  unfold computeStatus. simpl.
  rewrite !bool_decide_eq_true_2 by done. done.
Qed.

Lemma completed_event_is_reported_ongoing_until_its_end_witness :
  let event' := set_registrationOpen false (set_status completed meetup) in
  let db' := Event_save "meetup" event' sampleDb in
  event' = set_registrationOpen false (set_status completed meetup)
  ∧ db' = Event_save "meetup" event' sampleDb
  ∧ ∀ t, startDate meetup ≤ t ≤ endDate meetup →
         getEvent "meetup" t db' = inr (set_status ongoing event').
Proof.
  apply (completed_event_is_reported_ongoing_until_its_end sampleValidation
           sampleDb "u-org" "meetup" askCompleted 150 meetup 200).
  - reflexivity.
  - reflexivity.
  - reflexivity.
  - vm_compute. reflexivity.
Defined.

(** ** What the registration engine leaves alone *)

Lemma settingsKept_ledger db l : settingsKept db (set_registrations l db).
Proof. split; [done|]. intros eid. done. Qed.

Lemma settingsKept_alter f eid db :
  (∀ e, sameSettings e (f e)) →
  settingsKept db (set_events (alter f eid (events db)) db).
Proof.
  intros Hf. split; [done|]. intros eid'. simpl.
  destruct (decide (eid = eid')) as [->|Hne].
  - rewrite lookup_alter_eq. destruct (events db !! eid'); constructor. apply Hf.
  - by rewrite lookup_alter_ne.
Qed.

Lemma sameSettings_incCount d e : sameSettings e (incCount d e).
Proof. by split_and!. Qed.

Lemma sameSettings_items items e :
  Forall2 sameItem (merchandiseItems e) items →
  sameSettings e (set_merchandiseItems items e).
Proof. intros H. by split_and!. Qed.

Lemma Forall2_alter_all {A} (R : relation A) `{!Reflexive R} p f (l : list A) :
  (∀ x, R x (f x)) → Forall2 R l (alter_all p f l).
Proof.
  intros Hf. unfold alter_all. induction l as [|x l IH]; simpl; constructor;
    [|done].
  by destruct (p x).
Qed.

Lemma Forall2_alter_first {A} (R : relation A) `{!Reflexive R} p f (l : list A) :
  (∀ x, R x (f x)) → Forall2 R l (alter_first p f l).
Proof.
  intros Hf. induction l as [|x l IH]; simpl; [constructor|].
  destruct (p x); constructor; done.
Qed.

Lemma sameOption_add_stock d o : sameOption o (add_stock d o).
Proof. done. Qed.

Lemma sameItem_options it opts :
  Forall2 sameOption (options it) opts → sameItem it (set_options opts it).
Proof. intros H. by split_and!. Qed.

Lemma sameItem_incStock inc i o d items :
  inc = incStockFiltered ∨ inc = incStockPositional ∨ inc = incStockFound →
  Forall2 sameItem items (inc i o d items).
Proof.
  intros [-> | [-> | ->]];
    unfold incStockFiltered, incStockPositional, incStockFound;
    (apply Forall2_alter_all || apply Forall2_alter_first); try apply _;
    intros it; apply sameItem_options;
    (apply Forall2_alter_all || apply Forall2_alter_first); try apply _;
    intros op; apply sameOption_add_stock.
Qed.

Lemma settingsKept_incCount eid d db : settingsKept db (Event_incCount eid d db).
Proof. apply settingsKept_alter. intros e. apply sameSettings_incCount. Qed.

Lemma settingsKept_alterItems eid f db :
  (∀ items, Forall2 sameItem items (f items)) →
  settingsKept db (Event_alterItems eid f db).
Proof.
  intros Hf. apply settingsKept_alter. intros e. apply sameSettings_items, Hf.
Qed.

Lemma settingsKept_rollbackStock inc eid decs db :
  inc = incStockFiltered ∨ inc = incStockPositional →
  settingsKept db (rollbackStock inc eid decs db).
Proof.
  intros Hinc. unfold rollbackStock. revert db.
  induction decs as [|[i o] decs IH]; intros db; simpl; [done|].
  etrans; [|apply IH]. apply settingsKept_alterItems. intros items.
  apply sameItem_incStock. destruct Hinc; auto.
Qed.

Lemma settingsKept_reserveStock eid i o db db' :
  Event_reserveStock eid i o db = Some db' → settingsKept db db'.
Proof.
  unfold Event_reserveStock. destruct (events db !! eid); [|done].
  destruct (stockFilter i o _); [|done]. intros [= <-].
  apply settingsKept_alterItems. intros items. apply sameItem_incStock. auto.
Qed.

Lemma settingsKept_reserveItems eid sels items :
  ∀ processed total decs db,
    settingsKept db (reserveItems eid sels items processed total decs db).2.
Proof.
  induction items as [|it items IH]; intros processed total decs db; simpl.
  - done.
  - assert (∀ inc,
              inc = incStockFiltered ∨ inc = incStockPositional →
              settingsKept db
                (Event_incCount eid (-1) (rollbackStock inc eid decs db)))
      as Hfail.
    { intros inc Hinc.
      etrans; [by apply settingsKept_rollbackStock|].
      apply settingsKept_incCount. }
    destruct (required it && negb (truthy (sels !! item_id it)));
      [unfold_handler; simpl; apply Hfail; auto|].
    destruct (truthy (sels !! item_id it)); [|apply IH].
    destruct (find _ (options it)) as [opt|];
      [|unfold_handler; simpl; apply Hfail; auto].
    unfold mbind, Handler_bind, tryUpdate.
    destruct (Event_reserveStock eid (item_id it) (opt_id opt) db) as [db1|]
      eqn:Hres; simpl.
    + etrans; [by eapply settingsKept_reserveStock|]. apply IH.
    + unfold_handler. simpl. apply Hfail. auto.
Qed.

Lemma sameItem_restoreSelections sels items :
  Forall2 sameItem items (restoreSelections sels items).
Proof.
  unfold restoreSelections.
  apply (map_fold_weak_ind (λ acc _, Forall2 sameItem items acc)); [done|].
  intros i sel m acc _ IH. case_bool_decide; [done|].
  etrans; [exact IH|]. apply sameItem_incStock. auto.
Qed.

Section Settings.

Variable toDataURL : string → string.

Lemma registerMerch_settings eid user selections now rnd fault db :
  settingsKept db
    (runHandler (registerMerch toDataURL eid user selections now rnd fault) db).2.
Proof.
  unfold registerMerch. unfold_handler.
  destruct (events db !! eid) as [event|] eqn:Hev; [|done].
  destruct (registrationOpen event); simpl; [|done].
  case_bool_decide as Hty; simpl; [done|].
  destruct (checkEligibility event user); [done|].
  destruct (deadlinePassed event now); simpl; [done|].
  case_bool_decide as Hdup; simpl; [done|].
  destruct (soldOutRequired (merchandiseItems event)); [done|].
  unfold Event_reserveSlot. rewrite Hev.
  case_bool_decide as Hcap; simpl; [|done].
  pose proof (settingsKept_incCount eid 1 db) as Hslot.
  pose proof (settingsKept_reserveItems eid selections (merchandiseItems event)
                ∅ 0 [] (Event_incCount eid 1 db)) as Hloop.
  destruct (reserveItems _ _ _ _ _ _ _) as [[r|[[processed total] decs]] db1].
  { simpl in *. by etrans. }
  simpl in Hloop.
  assert (settingsKept db db1) as Hres by (by etrans).
  assert (settingsKept db
            (rollbackStock incStockFiltered eid decs (Event_incCount eid (-1) db1)))
    as Hback.
  { etrans; [exact Hres|]. etrans; [apply settingsKept_incCount|].
    apply settingsKept_rollbackStock. auto. }
  unfold Registration_create.
  destruct fault; simpl; [done|].
  case_bool_decide; simpl; [done|].
  etrans; [exact Hres|]. apply settingsKept_ledger.
Qed.

Lemma payment_settings uid eid regId action db :
  settingsKept db (runHandler (payment toDataURL uid eid regId action) db).2.
Proof.
  unfold payment. unfold_handler.
  destruct (events db !! eid) as [event|] eqn:Hev; [|done].
  destruct (organizers db !! uid) as [oid|]; [|done].
  case_bool_decide; [|done].
  destruct (registrations db !! regId) as [r|]; [|done].
  case_bool_decide; simpl.
  { case_bool_decide; simpl; [done|]. apply settingsKept_ledger. }
  case_bool_decide; simpl; [|done].
  case_bool_decide; simpl; [done|].
  unfold Event_incCount. simpl. rewrite lookup_alter_eq, Hev. simpl.
  case_bool_decide; simpl.
  - split; [done|]. intros eid'. simpl.
    destruct (decide (eid = eid')) as [<-|Hne].
    + rewrite lookup_insert_eq, Hev. constructor.
      etrans; [apply (sameSettings_incCount (-1))|].
      apply sameSettings_items. apply sameItem_restoreSelections.
    + rewrite lookup_insert_ne, lookup_alter_ne by done. done.
  - split; [done|]. intros eid'. simpl.
    destruct (decide (eid = eid')) as [<-|Hne].
    + rewrite lookup_alter_eq, Hev. constructor.
      apply (sameSettings_incCount (-1)).
    + by rewrite lookup_alter_ne.
Qed.

Lemma handle_settings db req : settingsKept db (handle toDataURL db req).2.
Proof.
  destruct req as [eid user f now rnd fault|eid user s now rnd fault
                  |eid uid proof|uid eid regId action|uid eid ticket now
                  |uid eid regId now]; simpl.
  - destruct (runHandler _ db) as [resp db'] eqn:Hrun. simpl.
    apply registerNormal_effect in Hrun
      as [[-> _] | [(event & field & _ & _ & _ & _ & ->)
                   | (event & reg & _ & _ & _ & _ & _ & _ & ->)]].
    + done.
    + apply settingsKept_incCount.
    + etrans; [apply (settingsKept_incCount eid 1)|]. apply settingsKept_ledger.
  - apply registerMerch_settings.
  - rewrite uploadPaymentProof_effect.
    case_bool_decide; [done|].
    destruct (Registration_findByEventUser eid uid db) as [[i r]|]; [|done].
    destruct (_ && _); [done|]. apply settingsKept_ledger.
  - apply payment_settings.
  - destruct (scan_effect uid eid ticket now db) as [-> | (k & r & _ & ->)];
      [done|apply settingsKept_ledger].
  - destruct (manualCheckin_effect uid eid regId now db) as [-> | (r & _ & ->)];
      [done|apply settingsKept_ledger].
Qed.

End Settings.

(** X23. No sequence of register requests, payment decisions, payment-proof
    uploads and check-ins changes the settings of an event: its type,
    eligibility, dates, deadline, limit, fee, organizer, status, open flag
    and form, and the identifiers, names, labels and prices of its
    merchandise stay as they are; only the counter and the stock move. No
    event appears or disappears. *)
Theorem engine_keeps_event_settings toDataURL db reqs :
  settingsKept db (run toDataURL db reqs).
Proof.
  revert db. induction reqs as [|req reqs IH]; intros db; simpl; [done|].
  etrans; [apply (handle_settings toDataURL db req)|]. apply IH.
Qed.

(** ** Drafts *)

Lemma draftsClosed_save eid event db :
  draftsClosed db →
  (status event = draft → registrationOpen event = false) →
  draftsClosed (Event_save eid event db).
Proof.
  intros Hdb Hev. unfold draftsClosed, Event_save. simpl.
  by apply map_Forall_insert_2.
Qed.

Lemma draftsClosed_settings db db' :
  settingsKept db db' → draftsClosed db → draftsClosed db'.
Proof.
  intros [_ Hkept] Hdb eid e' He' Hst.
  specialize (Hkept eid). rewrite He' in Hkept.
  inversion Hkept as [e ? Hsame Heq|]; subst.
  destruct Hsame as (_ & _ & _ & _ & _ & _ & _ & _ & Hstatus & Hopen & _).
  rewrite Hopen. apply (Hdb eid e); [done|]. by rewrite <- Hstatus.
Qed.

Section Drafts.

Variable validationMessage : list string → string.
Variable toDataURL : string → string.

Lemma createEvent_draftsClosed uid body newId db :
  draftsClosed db → draftsClosed (createEvent validationMessage uid body newId db).2.
Proof.
  intros Hdb. unfold createEvent. unfold_handler.
  destruct (organizers db !! uid) as [organizer|]; [|done].
  destruct (new_eventType body) as [ty|]; [|done].
  destruct (new_startDate body) as [start|]; [|done].
  destruct (new_endDate body) as [finish|]; [|done].
  destruct (new_registrationLimit body) as [limit|]; [|done].
  destruct (missingPaths body); [|done].
  case_bool_decide; simpl; [done|].
  by apply draftsClosed_save.
Qed.

Lemma editEvent_draftsClosed uid eid updates now db :
  draftsClosed db →
  draftsClosed (editEvent validationMessage uid eid updates now db).2.
Proof.
  intros Hdb. unfold editEvent. unfold_handler.
  destruct (events db !! eid) as [event|] eqn:Hev; [|done].
  destruct (organizers db !! uid) as [oid|]; [|done].
  case_bool_decide; [|done].
  destruct (_ && _); simpl; [done|].
  destruct (_ && _); simpl; [done|].
  destruct (computeStatus event now) eqn:Hlive.
  - apply computeStatus_draft in Hlive.
    destruct (invalidUpdates updates); simpl; [|done].
    apply draftsClosed_save; [done|]. intros _. simpl. by apply (Hdb eid).
  - assert (status event ≠ draft) as Hst.
    { intros Hst%(computeStatus_draft _ now). congruence. }
    destruct (emptiedText _ _); simpl; [|done].
    apply draftsClosed_save; [done|]. unfold raiseLimit.
    destruct (upd_registrationLimit updates); [case_bool_decide|]; simpl; done.
  - assert (status event ≠ draft) as Hst.
    { intros Hst%(computeStatus_draft _ now). congruence. }
    simpl. apply draftsClosed_save; [done|]. unfold markCompleted.
    case_bool_decide; simpl; done.
  - simpl. apply draftsClosed_save; [done|]. by apply (Hdb eid).
Qed.

Lemma publishEvent_draftsClosed uid eid db :
  draftsClosed db → draftsClosed (publishEvent uid eid db).2.
Proof.
  intros Hdb. unfold publishEvent. unfold_handler.
  destruct (events db !! eid) as [event|] eqn:Hev; [|done].
  destruct (organizers db !! uid) as [oid|]; [|done].
  case_bool_decide; [|done].
  case_bool_decide; simpl; [done|].
  by apply draftsClosed_save.
Qed.

Lemma toggleRegistration_draftsClosed uid eid action deadline now db :
  draftsClosed db →
  draftsClosed (toggleRegistration uid eid action deadline now db).2.
Proof.
  intros Hdb.
  destruct (toggleRegistration uid eid action deadline now db) as [[r|a] db']
    eqn:Hrun.
  - assert (db' = db) as ->; [|done].
    revert Hrun. unfold toggleRegistration. unfold_handler.
    destruct (events db !! eid) as [event|]; [|by intros [= _ <-]].
    destruct (organizers db !! uid) as [oid|]; [|by intros [= _ <-]].
    case_bool_decide; [|by intros [= _ <-]].
    destruct (_ && _); simpl; [by intros [= _ <-]|].
    case_bool_decide.
    { destruct deadline; [|by intros [= _ <-]].
      case_bool_decide; simpl; [by intros [= _ <-]|done]. }
    case_bool_decide; [done|by intros [= _ <-]].
  - destruct a as [code event'|message event'].
    { revert Hrun. unfold toggleRegistration. unfold_handler.
      destruct (events db !! eid) as [event|]; [|done].
      destruct (organizers db !! uid) as [oid|]; [|done].
      case_bool_decide; [|done].
      destruct (_ && _); simpl; [done|].
      case_bool_decide.
      { destruct deadline; [|done]. case_bool_decide; simpl; done. }
      case_bool_decide; done. }
    apply toggle_opened in Hrun
      as (event & Hev & _ & Hlive & -> & [(_ & _ & d & _ & _ & ->) | (_ & _ & ->)]).
    + apply draftsClosed_save; [done|]. simpl. intros Hst.
      apply (computeStatus_draft _ now) in Hst. destruct Hlive; congruence.
    + by apply draftsClosed_save.
Qed.

Lemma perform_draftsClosed db a :
  draftsClosed db → draftsClosed (perform validationMessage toDataURL db a).
Proof.
  intros Hdb. destruct a as [req| | | |]; unfold perform; simpl.
  - eapply draftsClosed_settings; [apply handle_settings|done].
  - by apply createEvent_draftsClosed.
  - by apply editEvent_draftsClosed.
  - by apply publishEvent_draftsClosed.
  - by apply toggleRegistration_draftsClosed.
Qed.

End Drafts.

(** X24. Nobody registers for a draft. Registration is closed on every
    draft after any sequence of actions (creating, editing, publishing,
    opening and closing registration, and the requests of the registration
    engine) that starts from a database in which it is, and a register
    request that creates a registration is for an event that is not a
    draft. *)
Theorem nobody_registers_for_a_draft validationMessage toDataURL db0 actions req
    eid uid reg db' :
  draftsClosed db0 →
  let db := play validationMessage toDataURL db0 actions in
  draftsClosed db
  ∧ (registrant req = Some (eid, uid) →
     handle toDataURL db req = (Created reg, db') →
     ∃ event, events db !! eid = Some event ∧ status event ≠ draft).
Proof.
  intros Hdb0. simpl.
  assert (draftsClosed (play validationMessage toDataURL db0 actions)) as Hdb.
  { revert db0 Hdb0. unfold play.
    induction actions as [|a actions IH]; intros db0 Hdb0; simpl; [done|].
    apply IH. by apply perform_draftsClosed. }
  split; [done|]. intros Hreq Hrun.
  destruct (created_appended _ _ _ _ _ _ _ Hreq Hrun)
    as (_ & _ & _ & _ & event & Hev & Hopen).
  exists event. split; [done|]. intros Hst.
  specialize (Hdb eid event Hev Hst). congruence.
Qed.

Lemma nobody_registers_for_a_draft_witness :
  let db := play sampleValidation sampleQR emptyDb hackNightStory in
  draftsClosed db
  ∧ ∃ event, events db !! "hack" = Some event ∧ status event ≠ draft.
Proof.
  destruct (nobody_registers_for_a_draft sampleValidation sampleQR emptyDb
              hackNightStory aliceJoinsHackNight "hack" "alice"
              (normalRegistration sampleQR hackNight "hack" alice ∅ "0000aaaa")
              (handle sampleQR
                 (play sampleValidation sampleQR emptyDb hackNightStory)
                 aliceJoinsHackNight).2) as [Hclosed Hreg].
  - apply (bool_decide_unpack _). vm_compute. reflexivity.
  - split; [exact Hclosed|]. apply Hreg; [reflexivity|].
    vm_compute. reflexivity.
Defined.

(** ** The pages of the event list *)

Lemma slice_forward {A} (start finish : Z) (l : list A) :
  0 ≤ start ≤ finish →
  slice start finish l
  = take (Z.to_nat (finish - start)) (drop (Z.to_nat start) l).
Proof.
  intros [Hs Hf]. unfold slice. cbv zeta.
  rewrite !bool_decide_eq_false_2 by lia.
  destruct (decide (Z.of_nat (length l) ≤ start)) as [Hlen|Hlen].
  - rewrite (Z.min_r start) by lia.
    rewrite !drop_ge by lia. by rewrite !take_nil.
  - rewrite (Z.min_l start) by lia.
    destruct (decide (finish ≤ Z.of_nat (length l))) as [Hfin|Hfin].
    + by rewrite (Z.min_l finish) by lia.
    + rewrite (Z.min_r finish) by lia.
      rewrite !take_ge; [done| |]; rewrite length_drop; lia.
Qed.

Lemma slice_length {A} (start finish : Z) (l : list A) :
  start ≤ finish →
  Z.of_nat (length (slice start finish l)) ≤ finish - start.
Proof.
  intros Hle. unfold slice. cbv zeta. rewrite length_take, length_drop.
  repeat case_bool_decide; lia.
Qed.

Lemma paginate_forward {A} (page : nat) (limit : Z) (l : list A) :
  0 ≤ limit →
  paginate (Some (Z.of_nat (S page))) (Some limit) l
  = take (Z.to_nat limit) (drop (page * Z.to_nat limit) l).
Proof.
  intros Hlimit. unfold paginate. simpl.
  rewrite slice_forward by lia. f_equal; [f_equal; lia|f_equal; lia].
Qed.

Lemma pages_concat {A} (limit : Z) (l : list A) (k : nat) :
  0 ≤ limit →
  concat ((λ p, paginate (Some (Z.of_nat p)) (Some limit) l) <$> seq 1 k)
  = take (k * Z.to_nat limit) l.
Proof.
  intros Hlimit. induction k as [|k IH]; [by rewrite take_0|].
  rewrite seq_S, fmap_app, concat_app, IH. simpl.
  rewrite paginate_forward by done. rewrite app_nil_r.
  rewrite take_take_drop. f_equal. lia.
Qed.

(** X25. The pages of the event list, asked for in order with a positive
    limit, list every event once and in order; and no page, whatever page
    number is asked for, holds more events than a limit that is not
    negative. *)
Theorem pages_list_every_event_once {A} (l : list A) (limit : Z) (k : nat) :
  0 < limit →
  Z.of_nat (length l) ≤ Z.of_nat k * limit →
  concat ((λ p, paginate (Some (Z.of_nat p)) (Some limit) l) <$> seq 1 k) = l
  ∧ ∀ page size,
      0 ≤ size →
      Z.of_nat (length (paginate (Some page) (Some size) l)) ≤ size.
Proof.
  intros Hlimit Hk. split.
  - rewrite pages_concat by lia. apply take_ge. nia.
  - intros page size Hsize. unfold paginate. simpl.
    pose proof (slice_length ((page - 1) * size) ((page - 1) * size + size) l).
    lia.
Qed.

Lemma pages_list_every_event_once_witness :
  concat ((λ p, paginate (Some (Z.of_nat p)) (Some 2) [fest; talk; meetup])
            <$> seq 1 2)
  = [fest; talk; meetup]
  ∧ ∀ page size,
      0 ≤ size →
      Z.of_nat (length (paginate (Some page) (Some size) [fest; talk; meetup]))
      ≤ size.
Proof.
  apply pages_list_every_event_once.
  - lia.
  - simpl. lia.
Defined.

(** ** When a merchandise registration goes through *)

Lemma incStockFiltered_other i o d items it :
  it ∈ items → item_id it ≠ i → it ∈ incStockFiltered i o d items.
Proof.
  intros Hin Hne. unfold incStockFiltered, alter_all.
  apply list_elem_of_fmap. exists it. split; [|done].
  unfold has_item_id. by rewrite bool_decide_eq_false_2.
Qed.

Lemma reserveItems_succeeds eid sels items :
  ∀ processed total decs db e,
    events db !! eid = Some e →
    NoDup (item_id <$> items) →
    Forall (λ it, it ∈ merchandiseItems e) items →
    Forall (λ it, NoDup (opt_id <$> options it)) items →
    Forall (selectionFits sels) items →
    ∃ result db',
      reserveItems eid sels items processed total decs db = (inr result, db').
Proof.
  induction items as [|it items IH];
    intros processed total decs db e Hev Hnd Hin Hopts Hfit; simpl.
  - by eexists _, _.
  - apply NoDup_cons in Hnd as [Hfresh Hnd].
    apply Forall_cons in Hin as [Hit Hin].
    apply Forall_cons in Hopts as [Hopt Hopts].
    apply Forall_cons in Hfit as [[Hreq Hsel] Hfit].
    destruct (truthy (sels !! item_id it)) eqn:Htr.
    + rewrite andb_false_r.
      destruct (Hsel eq_refl) as (opt & Hoptin & Hchoice & Hstock).
      rewrite Hchoice. simpl.
      unfold has_opt_id. rewrite (find_by_key opt_id _ opt Hopt Hoptin).
      unfold_handler. unfold Event_reserveStock. rewrite Hev.
      rewrite (stockFilter_member e it opt Hit Hoptin Hstock). simpl.
      eapply (IH _ _ _ _
                (set_merchandiseItems
                   (incStockFiltered (item_id it) (opt_id opt) (-1)
                      (merchandiseItems e)) e)); try done.
      * unfold Event_alterItems. simpl. by rewrite lookup_alter_eq, Hev.
      * simpl. rewrite Forall_forall in Hin. apply Forall_forall.
        intros it2 Hit2. apply incStockFiltered_other; [by apply Hin|].
        intros Heq. apply Hfresh. rewrite <- Heq. by apply list_elem_of_fmap_2.
    + rewrite andb_true_r.
      destruct (required it) eqn:Hr; [by specialize (Hreq eq_refl)|]. simpl.
      by eapply IH.
Qed.

Lemma soldOutRequired_fits sels items :
  Forall (selectionFits sels) items → soldOutRequired items = None.
Proof.
  unfold soldOutRequired. induction 1 as [|it items [Hreq Hsel] _ IH]; [done|].
  simpl. destruct (required it) eqn:Hr; simpl; [|exact IH].
  destruct (Hsel (Hreq eq_refl)) as (opt & Hin & _ & Hstock).
  assert (existsb (λ opt, bool_decide (stock opt > 0)) (options it) = true) as ->.
  { apply existsb_exists. exists opt. split; [by apply list_elem_of_In|].
    apply bool_decide_eq_true_2. lia. }
  exact IH.
Qed.

(** X26. POST /merch/:id/register creates a registration whenever the event
    is an open merchandise event with a place left, the participant is
    eligible, in time and not yet registered, every required item has a
    choice, every choice names an option of its item that is in stock, the
    ticket code is new and the store accepts the write (item and option
    identifiers being distinct); the registration is for that event and
    participant and carries the new ticket code. *)
Theorem merch_registration_goes_through toDataURL db eid user selections now rnd
    fault event :
  events db !! eid = Some event →
  merchAccepted db eid user selections now rnd fault →
  ∃ reg db',
    handle toDataURL db (RegisterMerch eid user selections now rnd fault)
    = (Created reg, db')
    ∧ eventId reg = eid ∧ userId reg = user_id user
    ∧ ticketId reg = "FEL-" +:+ rnd.
Proof.
  intros Hev (event' & Hev' & Hopen & Hty & Hel & Hd & Hdup & Hcap & [Hnd Hopts]
              & Hfit & Hticket & ->).
  simplify_eq.
  assert (Forall (λ it, it ∈ merchandiseItems event) (merchandiseItems event))
    as Hself by (by apply Forall_forall).
  destruct (reserveItems_succeeds eid selections (merchandiseItems event) ∅ 0 []
              (Event_incCount eid 1 db) (incCount 1 event)) as ([[p t] d] & db1 & Hloop);
    try done.
  { unfold Event_incCount. simpl. by rewrite lookup_alter_eq, Hev. }
  pose proof (reserveItems_frame eid selections (merchandiseItems event) ∅ 0 []
                (Event_incCount eid 1 db)) as Hframe.
  rewrite Hloop in Hframe. destruct Hframe as (Hregs & _).
  simpl in Hregs.
  assert (runHandler (registerMerch toDataURL eid user selections now rnd false) db
          = (Created
               (mkRegistration eid (user_id user) ("FEL-" +:+ rnd)
                  (if bool_decide (registrationFee event + t > 0)
                   then pending else not_required)
                  ""
                  (if bool_decide (registrationFee event + t > 0)
                   then "" else toDataURL ("FEL-" +:+ rnd))
                  ∅ p (registrationFee event + t) false None),
             set_registrations
               (registrations db1
                  ++ [mkRegistration eid (user_id user) ("FEL-" +:+ rnd)
                        (if bool_decide (registrationFee event + t > 0)
                         then pending else not_required)
                        ""
                        (if bool_decide (registrationFee event + t > 0)
                         then "" else toDataURL ("FEL-" +:+ rnd))
                        ∅ p (registrationFee event + t) false None])
               db1)) as Hrun.
  { unfold registerMerch. unfold_handler. rewrite Hev, Hopen. simpl.
    rewrite bool_decide_eq_false_2 by (by intros ?). simpl.
    rewrite Hel, Hd. simpl. rewrite Hdup.
    rewrite bool_decide_eq_false_2 by (by intros [? ?]). simpl.
    rewrite (soldOutRequired_fits _ _ Hfit).
    unfold Event_reserveSlot. rewrite Hev.
    rewrite (bool_decide_eq_true_2 _ Hcap). simpl.
    rewrite Hloop. unfold Registration_create.
    rewrite bool_decide_eq_false_2; [done|].
    apply violatesUnique_fresh; simpl.
    - unfold Registration_findByEventUser in *. by rewrite Hregs.
    - by rewrite Hregs. }
  eexists _, _. split; [exact Hrun|]. simpl. by split_and!.
Qed.

Lemma merch_registration_goes_through_witness :
  ∃ reg db',
    handle sampleQR sampleDb aliceBuysShirt = (Created reg, db')
    ∧ eventId reg = "fest" ∧ userId reg = user_id alice
    ∧ ticketId reg = "FEL-" +:+ "0000a11c".
Proof.
  apply (merch_registration_goes_through sampleQR sampleDb "fest" alice
           {[ "item-shirt" := "opt-m" ]} 10 "0000a11c" false fest).
  - reflexivity.
  - exists fest. split_and!; try reflexivity.
    + apply (bool_decide_unpack _). vm_compute. reflexivity.
    + unfold fest. repeat apply Forall_cons_2; [| |apply Forall_nil_2].
      * split; [reflexivity|]. intros _.
        exists (mkMerchOption "opt-m" "M" 500 1).
        split_and!; [apply list_elem_of_here|reflexivity|simpl; lia].
      * split; intros H; vm_compute in H; discriminate H.
    + constructor.
Defined.

(** ** Payment decisions and amounts *)

Section Decisions.

Variable toDataURL : string → string.

Lemma payment_done uid eid regId action db message reg db' :
  runHandler (payment toDataURL uid eid regId action) db
  = (MessageReg message reg, db') →
  ∃ event r,
    events db !! eid = Some event
    ∧ organizers db !! uid = Some (organizerId event)
    ∧ registrations db !! regId = Some r
    ∧ registrations db' = <[regId := reg]> (registrations db)
    ∧ amountPaid reg = amountPaid r
    ∧ ((action = "approve" ∧ paymentStatus r ≠ approved
        ∧ paymentStatus reg = approved)
       ∨ (action = "reject" ∧ paymentStatus r ≠ rejected
          ∧ paymentStatus reg = rejected)).
Proof.
  unfold payment. unfold_handler.
  destruct (events db !! eid) as [event|] eqn:Hev; [|done].
  destruct (organizers db !! uid) as [oid|] eqn:Ho; [|done].
  case_bool_decide as Hoid; [|done]. subst oid.
  destruct (registrations db !! regId) as [r|] eqn:Hr; [|done].
  case_bool_decide as Happ; simpl.
  { case_bool_decide as Hst; simpl; [done|].
    intros [= <- <- <-]. exists event, r. split_and!; try done. by left. }
  case_bool_decide as Hrej; simpl; [|done].
  case_bool_decide as Hst; simpl; [done|].
  unfold Event_incCount. simpl. rewrite lookup_alter_eq, Hev. simpl.
  case_bool_decide; simpl; intros [= <- <- <-]; exists event, r;
    (split_and!; try done); by right.
Qed.

Lemma payment_silent uid eid regId action db c m db' :
  runHandler (payment toDataURL uid eid regId action) db = (Message c m, db') →
  db' = db.
Proof.
  unfold payment. unfold_handler.
  destruct (events db !! eid) as [event|] eqn:Hev; [|by intros [= _ _ <-]].
  destruct (organizers db !! uid) as [oid|] eqn:Ho; [|by intros [= _ _ <-]].
  case_bool_decide as Hoid; [|by intros [= _ _ <-]].
  destruct (registrations db !! regId) as [r|] eqn:Hr; [|by intros [= _ _ <-]].
  case_bool_decide as Happ; simpl.
  { case_bool_decide as Hst; simpl; [by intros [= _ _ <-]|done]. }
  case_bool_decide as Hrej; simpl; [|by intros [= _ _ <-]].
  case_bool_decide as Hst; simpl; [by intros [= _ _ <-]|].
  unfold Event_incCount. simpl. rewrite lookup_alter_eq, Hev. simpl.
  case_bool_decide; simpl; done.
Qed.

End Decisions.

(** X27. A payment decision is not taken twice: once a registration has
    been approved, a further approval is refused with "Already approved",
    once it has been rejected, a further rejection is refused with "Already
    rejected", and the refused request changes nothing. *)
Theorem payment_decision_is_not_repeated toDataURL db uid eid regId action
    message reg db' :
  handle toDataURL db (Payment uid eid regId action)
  = (MessageReg message reg, db') →
  (action = "approve"
   ∧ handle toDataURL db' (Payment uid eid regId action)
     = (Message 400 "Already approved", db'))
  ∨ (action = "reject"
     ∧ handle toDataURL db' (Payment uid eid regId action)
       = (Message 400 "Already rejected", db')).
Proof.
  simpl. intros Hrun.
  pose proof (payment_settings toDataURL uid eid regId action db) as [Ho Hkept].
  rewrite Hrun in Ho, Hkept. simpl in Ho, Hkept.
  apply payment_done in Hrun
    as (event & r & Hev & Howner & Hr & Hregs & _ & Hdone).
  specialize (Hkept eid). rewrite Hev in Hkept.
  inversion Hkept as [? event' Hsame Heq Hev'|]; subst.
  destruct Hsame as (_ & _ & _ & _ & _ & _ & _ & Horg & _).
  assert (registrations db' !! regId = Some reg) as Hreg'.
  { rewrite Hregs. apply list_lookup_insert_eq. by eapply lookup_lt_Some. }
  assert (organizers db' !! uid = Some (organizerId event')) as Howner'.
  { by rewrite Ho, Horg. }
  unfold payment. unfold_handler. rewrite <- Hev', Howner'.
  rewrite bool_decide_eq_true_2 by done. rewrite Hreg'.
  destruct Hdone as [(-> & _ & Hst) | (-> & _ & Hst)]; simpl.
  - left. split; [done|]. by rewrite (bool_decide_eq_true_2 _ Hst).
  - right. split; [done|]. by rewrite (bool_decide_eq_true_2 _ Hst).
Qed.

Lemma payment_decision_is_not_repeated_witness :
  let db' := dbShirtRejected in
  ("reject" = "approve"
   ∧ handle sampleQR db' (Payment "u-org" "fest" 0 "reject")
     = (Message 400 "Already approved", db'))
  ∨ ("reject" = "reject"
     ∧ handle sampleQR db' (Payment "u-org" "fest" 0 "reject")
       = (Message 400 "Already rejected", db')).
Proof.
  apply (payment_decision_is_not_repeated sampleQR
           (run sampleQR sampleDb [aliceBuysShirt]) "u-org" "fest" 0 "reject"
           "Payment rejectd" rejectedShirtReg dbShirtRejected).
  vm_compute. reflexivity.
Defined.

Lemma pricedFairly_settings db db' :
  settingsKept db db' → pricedFairly db → pricedFairly db'.
Proof.
  intros [_ Hkept] Hdb eid e' He'.
  specialize (Hkept eid). rewrite He' in Hkept.
  inversion Hkept as [e ? Hsame Heq|]; subst.
  destruct (Hdb eid e (eq_sym Heq)) as [Hfee Hprices].
  destruct Hsame as (_ & _ & _ & _ & _ & _ & Hf & _ & _ & _ & _ & Hitems).
  split; [by rewrite Hf|].
  eapply Forall2_Forall_r; [exact Hitems|].
  eapply Forall_impl; [exact Hprices|].
  intros it Hit it' (_ & _ & _ & Hopts).
  eapply Forall2_Forall_r; [exact Hopts|].
  eapply Forall_impl; [exact Hit|].
  intros o Ho o' (_ & _ & Hp). by rewrite Hp.
Qed.

Lemma freeIsFree_append db db' reg :
  registrations db' = registrations db ++ [reg] →
  (paymentStatus reg = not_required → amountPaid reg = 0) →
  freeIsFree db → freeIsFree db'.
Proof.
  unfold freeIsFree. intros -> Hreg Hdb.
  apply Forall_app. split; [done|]. by constructor.
Qed.

Lemma freeIsFree_save db db' k r r' :
  registrations db' = <[k := r']> (registrations db) →
  registrations db !! k = Some r →
  amountPaid r' = amountPaid r →
  (paymentStatus r' = not_required → paymentStatus r = not_required) →
  freeIsFree db → freeIsFree db'.
Proof.
  unfold freeIsFree. intros -> Hr Hpaid Hst Hdb.
  apply Forall_insert; [done|]. intros Hfree.
  rewrite Hpaid. rewrite Forall_forall in Hdb.
  apply (Hdb r); [by eapply list_elem_of_lookup_2|by apply Hst].
Qed.

Lemma freeIsFree_same db db' :
  registrations db' = registrations db → freeIsFree db → freeIsFree db'.
Proof. unfold freeIsFree. by intros ->. Qed.

Section Amounts.

Variable toDataURL : string → string.

Lemma registerMerch_ledger eid user selections now rnd fault db :
  let result :=
    runHandler (registerMerch toDataURL eid user selections now rnd fault) db in
  registrations result.2 = registrations db ∨ ∃ reg, result.1 = Created reg.
Proof.
  simpl. unfold registerMerch. unfold_handler.
  destruct (events db !! eid) as [event|] eqn:Hev; [|by left].
  destruct (registrationOpen event); simpl; [|by left].
  case_bool_decide as Hty; simpl; [by left|].
  destruct (checkEligibility event user); [by left|].
  destruct (deadlinePassed event now); simpl; [by left|].
  case_bool_decide as Hdup; simpl; [by left|].
  destruct (soldOutRequired (merchandiseItems event)); [by left|].
  unfold Event_reserveSlot. rewrite Hev.
  case_bool_decide as Hcap; simpl; [|by left].
  pose proof (reserveItems_frame eid selections (merchandiseItems event)
                ∅ 0 [] (Event_incCount eid 1 db)) as Hloop.
  destruct (reserveItems _ _ _ _ _ _ _) as [[r|[[processed total] decs]] db1].
  { left. destruct Hloop as (Hregs & _). exact Hregs. }
  destruct Hloop as (Hregs & _). simpl in Hregs.
  pose proof (counterMoved_rollbackStock incStockFiltered eid decs
                (Event_incCount eid (-1) db1)) as (Hback & _).
  simpl in Hback.
  unfold Registration_create.
  destruct fault; simpl; [left; by etrans|].
  case_bool_decide; simpl; [left; by etrans|].
  right. by eexists.
Qed.

Lemma payment_ledger uid eid regId action db :
  let db' := (runHandler (payment toDataURL uid eid regId action) db).2 in
  registrations db' = registrations db
  ∨ ∃ r reg,
      registrations db !! regId = Some r
      ∧ registrations db' = <[regId := reg]> (registrations db)
      ∧ amountPaid reg = amountPaid r
      ∧ paymentStatus reg ≠ not_required.
Proof.
  simpl.
  destruct (runHandler (payment toDataURL uid eid regId action) db)
    as [[c m|reg|message reg] db'] eqn:Hrun; simpl.
  - left. apply payment_silent in Hrun. by subst.
  - exfalso. revert Hrun. unfold payment. unfold_handler.
    destruct (events db !! eid) as [event|] eqn:Hev; [|done].
    destruct (organizers db !! uid) as [oid|]; [|done].
    case_bool_decide; [|done].
    destruct (registrations db !! regId) as [r|]; [|done].
    case_bool_decide; simpl.
    { case_bool_decide; simpl; done. }
    case_bool_decide; simpl; [|done].
    case_bool_decide; simpl; [done|].
    unfold Event_incCount. simpl. rewrite lookup_alter_eq, Hev. simpl.
    case_bool_decide; simpl; done.
  - right. apply payment_done in Hrun
      as (event & r & _ & _ & Hr & Hregs & Hpaid & Hdone).
    exists r, reg. split_and!; try done.
    destruct Hdone as [(_ & _ & ->) | (_ & _ & ->)]; done.
Qed.

Lemma handle_freeIsFree db req :
  pricedFairly db → freeIsFree db → freeIsFree (handle toDataURL db req).2.
Proof.
  intros Hpriced Hfree.
  destruct req as [eid user f now rnd fault|eid user s now rnd fault
                  |eid uid proof|uid eid regId action|uid eid ticket now
                  |uid eid regId now]; simpl.
  - destruct (runHandler _ db) as [resp db'] eqn:Hrun. simpl.
    apply registerNormal_effect in Hrun
      as [[-> _] | [(event & field & _ & _ & _ & _ & ->)
                   | (event & reg & Hev & _ & _ & _ & -> & _ & ->)]].
    + done.
    + by apply (freeIsFree_same db).
    + eapply (freeIsFree_append db); [done| |done]. simpl.
      destruct (Hpriced eid event Hev) as [Hfee _].
      case_bool_decide; [done|]. intros _. lia.
  - pose proof (registerMerch_ledger eid user s now rnd fault db) as Hledger.
    destruct (runHandler _ db) as [resp db'] eqn:Hrun. simpl in *.
    destruct Hledger as [Hsame | [reg ->]]; [by apply (freeIsFree_same db)|].
    apply registerMerch_created in Hrun
      as (event & processed & total & decs & db1 & Hev & _ & _ & _ & _ & _ & _ & _
          & Hloop & -> & _ & -> & _).
    destruct (Hpriced eid event Hev) as [Hfee Hprices].
    pose proof (reserveItems_frame eid s (merchandiseItems event) ∅ 0 []
                  (Event_incCount eid 1 db)) as Hframe.
    rewrite Hloop in Hframe. destruct Hframe as (Hregs & _).
    apply reserveItems_total in Hloop.
    pose proof (addSelectedPrice_nonneg s _ Hprices 0 (Z.le_refl 0)) as Htotal.
    rewrite <- Hloop in Htotal.
    eapply (freeIsFree_append db); [simpl; by rewrite Hregs| |done]. simpl.
    case_bool_decide; [done|]. intros _. lia.
  - rewrite uploadPaymentProof_effect.
    case_bool_decide; [done|].
    destruct (Registration_findByEventUser eid uid db) as [[i r]|] eqn:Hf;
      [|done].
    apply list_find_lookup in Hf as [Hi _].
    destruct (bool_decide (paymentStatus r ≠ pending)
              && bool_decide (paymentStatus r ≠ rejected)) eqn:Hst; [done|].
    eapply (freeIsFree_save db); [done|exact Hi|done| |done]. simpl.
    apply andb_false_iff in Hst as [Hst|Hst]; apply bool_decide_eq_false in Hst;
      apply dec_stable in Hst; rewrite Hst; by case_bool_decide.
  - destruct (payment_ledger uid eid regId action db)
      as [Hsame | (r & reg & Hr & Hregs & Hpaid & Hst)].
    + by apply (freeIsFree_same db).
    + by eapply (freeIsFree_save db).
  - destruct (scan_effect uid eid ticket now db) as [-> | (k & r & Hr & ->)];
      [done|]. by eapply (freeIsFree_save db).
  - destruct (manualCheckin_effect uid eid regId now db) as [-> | (r & Hr & ->)];
      [done|]. by eapply (freeIsFree_save db).
Qed.

End Amounts.

(** X28. A registration that needed no payment paid nothing: when no fee
    and no price is negative, every registration whose payment status is
    not_required has amount zero after any sequence of register requests,
    payment decisions, payment-proof uploads and check-ins, given that this
    holds before (as in an empty ledger); fees and prices stay
    non-negative. *)
Theorem free_registrations_paid_nothing toDataURL db reqs :
  pricedFairly db → freeIsFree db →
  freeIsFree (run toDataURL db reqs) ∧ pricedFairly (run toDataURL db reqs).
Proof.
  revert db. induction reqs as [|req reqs IH]; intros db Hpriced Hfree; simpl;
    [done|].
  apply IH.
  - eapply pricedFairly_settings; [apply handle_settings|done].
  - by apply handle_freeIsFree.
Qed.

Lemma free_registrations_paid_nothing_witness :
  freeIsFree dbTwoShirts ∧ pricedFairly dbTwoShirts.
Proof.
  apply (free_registrations_paid_nothing sampleQR sampleDb
           [aliceBuysShirt; bobBuysShirt]).
  - apply (bool_decide_unpack _). vm_compute. reflexivity.
  - constructor.
Defined.

(** ** The file name of the export *)

Lemma countChar_app c s t :
  countChar c (s +:+ t) = (countChar c s + countChar c t)%nat.
Proof.
  induction s as [|c' s IH]; [done|].
  change (String c' s +:+ t) with (String c' (s +:+ t)). simpl.
  rewrite IH. lia.
Qed.

Lemma countChar_replaced c name :
  isAlphaNum c = false → c ≠ "_"%char →
  countChar c (replaceNonAlphaNum name) = 0%nat.
Proof.
  intros Hc Hunder. induction name as [|c' name IH]; [done|]. simpl.
  rewrite IH. rewrite bool_decide_eq_false_2; [done|].
  destruct (isAlphaNum c') eqn:Hc'; congruence.
Qed.

(** X29. Whatever the name of the event, the [Content-Disposition] header
    of the CSV export holds exactly the two double quotes that delimit the
    file name and no line break: the event name cannot close the file name
    or start another header. *)
Theorem export_header_cannot_be_broken name :
  countChar dq (contentDisposition name) = 2%nat
  ∧ countChar newline (contentDisposition name) = 0%nat
  ∧ countChar "013"%char (contentDisposition name) = 0%nat.
Proof.
  unfold contentDisposition. rewrite !countChar_app.
  rewrite !countChar_replaced by (done || (by vm_compute)).
  done.
Qed.

(** ** The check-in window *)

(** X30. Attendance is taken exactly while the event is reported as
    ongoing: for the organizer of an event, the scan route and the manual
    check-in answer "Attendance can only be taken while the event is
    ongoing" if and only if GET /events/:id does not report the status
    ongoing at that time. *)
Theorem attendance_is_taken_while_reported_ongoing toDataURL db uid eid event
    now ticket regId :
  events db !! eid = Some event →
  organizers db !! uid = Some (organizerId event) →
  let refusal :=
    Message 400 "Attendance can only be taken while the event is ongoing" in
  let reported := ∃ e, getEvent eid now db = inr e ∧ status e = ongoing in
  (fst (handle toDataURL db (Scan uid eid ticket now)) = refusal ↔ ¬ reported)
  ∧ (fst (handle toDataURL db (ManualCheckin uid eid regId now)) = refusal
     ↔ ¬ reported).
Proof.
  intros Hev Ho. simpl.
  assert ((∃ e, getEvent eid now db = inr e ∧ status e = ongoing)
          ↔ computeStatus event now = ongoing) as Hreported.
  { unfold getEvent. rewrite Hev. split.
    - by intros (e & [= <-] & Hst).
    - intros Hst. by eexists. }
  rewrite Hreported. split.
  - destruct (decide (computeStatus event now = ongoing)) as [Hst|Hst].
    + split; [|done]. intros Hresp. exfalso. revert Hresp.
      destruct (decide (ticket = "")) as [Ht|Ht].
      * by rewrite (scan_empty_ticket _ _ _ _ _ _ Hev Ho Hst Ht).
      * rewrite (scan_ongoing _ _ _ _ _ _ Hev Ho Hst Ht).
        destruct (Registration_findByTicket eid ticket db) as [[i r]|]; [|done].
        destruct (_ || _); [done|]. by destruct (attended r).
    + split; [done|]. intros _.
      by rewrite (scan_not_ongoing _ _ _ _ _ _ Hev Ho Hst).
  - unfold manualCheckin. unfold_handler. rewrite Hev, Ho.
    rewrite bool_decide_eq_true_2 by done.
    case_bool_decide as Hst; simpl.
    + done.
    + split; [|done]. intros Hresp. exfalso. revert Hresp.
      destruct (registrations db !! regId) as [r|]; [|done].
      destruct (_ || _); simpl; [done|]. by destruct (attended r).
Qed.

Lemma attendance_is_taken_while_reported_ongoing_witness :
  let refusal :=
    Message 400 "Attendance can only be taken while the event is ongoing" in
  let reported :=
    ∃ e, getEvent "meetup" 50 dbMeetup = inr e ∧ status e = ongoing in
  (fst (handle sampleQR dbMeetup (Scan "u-org" "meetup" "FEL-00c0ffee" 50))
   = refusal ↔ ¬ reported)
  ∧ (fst (handle sampleQR dbMeetup (ManualCheckin "u-org" "meetup" 0 50))
     = refusal ↔ ¬ reported).
Proof.
  apply (attendance_is_taken_while_reported_ongoing sampleQR dbMeetup "u-org"
           "meetup" meetupJoined).
  - vm_compute. reflexivity.
  - vm_compute. reflexivity.
Defined.
